(** * Signal-coordination request helpers (src/helpers/requestHelpers.ts)

    A shallow embedding of the four factories of [requestHelpers.ts]:
    [createSyncWaitRequest], [createWaitForDoneRequest],
    [createIterativeLoopRequest] and [createProgressReportingRequest].

    Every factory returns an [async] function.  One invocation of such a
    function is modelled as a state machine:

    - the closure's local variables ([isDone], [lastSubmission],
      [finalData]) are fields of a record;
    - the [async] body is a program counter naming the [await] it is
      parked on (the source line is given at each constructor);
    - the host (the workflow runtime) drives the invocation with events:
      the delivery of a signal runs the registered handler to its end,
      [Settle] settles the promise of the started activity, and [Resume]
      lets the body run from the [await] it is parked on to the next one
      that is not ready.  The host decides the order of the events; the
      theorems quantify over all of them.

    The part of the body that runs before the first [await] (the
    declarations of the locals, the [setHandler] calls and the call of the
    activity) is the initial state of the machine.  [setHandler] calls and
    activity calls are recorded, in program order, in the field [issued].

    What is taken from the host, [@temporalio/workflow]:

    - a handler set with [setHandler] runs once for every delivery of its
      signal, from start to end, never in the middle of the body;
    - [condition(p)] evaluates [p] when called and after every delivery,
      and the body goes on once [p] holds.  The predicates of this file can
      only be made false by the body itself, so that [Resume] testing the
      predicate at the time the body runs sees what the host saw;
    - a promise settles once.

    What is assumed of the caller: the callbacks return (they do not throw
    into the handler or the body) and touch nothing but their own world
    [W]; the signal definitions passed to one factory are different
    signals.

    Beside the helpers the file embeds their caller, the workflow of
    [src/workflows.ts], and what sends the signals: the HTTP endpoints of
    the Express server and the command-line clients of [src/clients]. *)

From Stdlib Require Import List Bool String Arith Lia.
Import ListNotations.

Set Implicit Arguments.
Set Warnings "-notation-for-abbreviation".

(** ** What the helpers use of the host *)

Module Host.

(** A [SignalDefinition] is identified by its name; the payload type is
    the type parameter of the pattern. *)
Definition SignalDefinition : Type := string.

(** How a promise ends: [await] returns [v] or throws [e]. *)
Inductive settlement (T Err : Type) : Type :=
| Fulfilled (v : T)
| Rejected (e : Err).
Arguments Fulfilled {T Err} v.
Arguments Rejected {T Err} e.

(** Calls the body makes to the host before it first suspends. *)
Inductive request (Args : Type) : Type :=
| SetHandler (def : SignalDefinition)
| Invoke (args : Args).
Arguments SetHandler {Args} def.
Arguments Invoke {Args} args.

(** An optional callback [cb?: (x: X) => void] acting on the caller's
    world [W]: [if (cb) cb(x)] and [cb?.(x)]. *)
Definition call_optional {X W : Type}
    (cb : option (X -> W -> W)) (x : X) (w : W) : W :=
  match cb with
  | Some f => f x w
  | None => w
  end.

(** The invocations a supplied callback receives are recorded next to the
    world it acts on; nothing is recorded for an absent callback. *)
Definition record_optional {X W C : Type}
    (cb : option (X -> W -> W)) (c : C) (log : list C) : list C :=
  match cb with
  | Some _ => log ++ [c]
  | None => log
  end.

End Host.
Import Host.

(** * Part I: the model *)

(** ** (1) createSyncWaitRequest, lines 38-48 *)

Module SyncWait.
Section Pattern.

Variables T Args Err : Type.

(** Where the body of [syncWait] is. *)
Inductive pc : Type :=
| await_activityFn (settled : option (settlement T Err)) (* line 46 *)
| returned (result : T)                                  (* line 46 *)
| threw (failure : Err).

Record state : Type := mkState {
  body : pc;
  issued : list (request Args)
}.

(** [syncWait(...args)] up to its first suspension: the activity is called
    and its promise awaited. *)
Definition syncWait (args : Args) : state :=
  {| body := await_activityFn None;
     issued := [Invoke args] |}.

Inductive event : Type :=
| Settle (s : settlement T Err)
| Resume.

Definition with_body (b : pc) (st : state) : state :=
  {| body := b; issued := issued st |}.

(** A promise settles once; a later settlement is not observed. *)
Definition settle (s : settlement T Err) (st : state) : state :=
  match body st with
  | await_activityFn None => with_body (await_activityFn (Some s)) st
  | _ => st
  end.

(** [return await activityFn(...args)]. *)
Definition resume (st : state) : state :=
  match body st with
  | await_activityFn (Some (Fulfilled r)) => with_body (returned r) st
  | await_activityFn (Some (Rejected e)) => with_body (threw e) st
  | _ => st
  end.

Definition step (st : state) (ev : event) : state :=
  match ev with
  | Settle s => settle s st
  | Resume => resume st
  end.

Definition run (st : state) (tr : list event) : state :=
  fold_left step tr st.

(** The first settlement of the activity's promise in a trace. *)
Fixpoint first_settle (tr : list event) : option (settlement T Err) :=
  match tr with
  | [] => None
  | Settle s :: _ => Some s
  | Resume :: tr' => first_settle tr'
  end.

End Pattern.
Arguments await_activityFn {T Err} settled.
Arguments returned {T Err} result.
Arguments threw {T Err} failure.
Arguments Resume {T Err}.
Arguments syncWait {T Args Err} args.

End SyncWait.

(** ** (2) createWaitForDoneRequest, lines 77-102 *)

Module WaitForDone.
Section Pattern.

Variables T Args Final Err : Type.
Variable doneSignalDef : SignalDefinition.

(** Where the body of [waitForDone] is; [result] is the constant of
    line 95. *)
Inductive pc : Type :=
| await_startActivity (settled : option (settlement T Err)) (* line 95 *)
| await_condition (result : T)                              (* line 98 *)
| returned (result : T)                                     (* line 100 *)
| threw (failure : Err).

Record state : Type := mkState {
  isDone : bool;                    (* line 87 *)
  body : pc;
  issued : list (request Args)
}.

(** [waitForDone(...activityArgs)] up to its first suspension, lines
    87-95: the handler is set, then the activity is called. *)
Definition waitForDone (activityArgs : Args) : state :=
  {| isDone := false;
     body := await_startActivity None;
     issued := [SetHandler doneSignalDef; Invoke activityArgs] |}.

Inductive event : Type :=
| Done (payload : Final)            (* a delivery of [doneSignalDef] *)
| Settle (s : settlement T Err)
| Resume.

Definition with_body (b : pc) (st : state) : state :=
  {| isDone := isDone st; body := b; issued := issued st |}.

(** The handler of lines 90-92; it takes no parameter, so the payload the
    host passes is dropped. *)
Definition on_done (_ : Final) (st : state) : state :=
  {| isDone := true; body := body st; issued := issued st |}.

Definition settle (s : settlement T Err) (st : state) : state :=
  match body st with
  | await_startActivity None => with_body (await_startActivity (Some s)) st
  | _ => st
  end.

(** [await condition(() => isDone)], line 98: the predicate is evaluated
    when [condition] is called and again after every delivery; the body
    goes on to line 100 as soon as it holds. *)
Definition condition_isDone (result : T) (st : state) : state :=
  if isDone st then with_body (returned result) st
  else with_body (await_condition result) st.

Definition resume (st : state) : state :=
  match body st with
  | await_startActivity (Some (Fulfilled result)) => condition_isDone result st
  | await_startActivity (Some (Rejected e)) => with_body (threw e) st
  | await_startActivity None => st
  | await_condition result => condition_isDone result st
  | returned _ => st
  | threw _ => st
  end.

Definition step (st : state) (ev : event) : state :=
  match ev with
  | Done payload => on_done payload st
  | Settle s => settle s st
  | Resume => resume st
  end.

Definition run (st : state) (tr : list event) : state :=
  fold_left step tr st.

Fixpoint first_settle (tr : list event) : option (settlement T Err) :=
  match tr with
  | [] => None
  | Settle s :: _ => Some s
  | _ :: tr' => first_settle tr'
  end.

Definition is_Done (ev : event) : bool :=
  match ev with Done _ => true | _ => false end.

(** Whether the completion signal is delivered somewhere in the trace. *)
Definition signalled (tr : list event) : bool := existsb is_Done tr.

(** Two events that differ at most in the payload of the completion
    signal. *)
Definition same_but_payload (e1 e2 : event) : Prop :=
  match e1, e2 with
  | Done _, Done _ => True
  | Settle s1, Settle s2 => s1 = s2
  | Resume, Resume => True
  | _, _ => False
  end.

(** How often [isDone] goes from [false] to [true] along a run. *)
Fixpoint flips (st : state) (tr : list event) : nat :=
  match tr with
  | [] => 0
  | ev :: tr' =>
      (if negb (isDone st) && isDone (step st ev) then 1 else 0)
      + flips (step st ev) tr'
  end.

End Pattern.
Arguments await_startActivity {T Err} settled.
Arguments await_condition {T Err} result.
Arguments returned {T Err} result.
Arguments threw {T Err} failure.
Arguments Done {T Final Err} payload.
Arguments Settle {T Final Err} s.
Arguments Resume {T Final Err}.
Arguments waitForDone {T Args Err} doneSignalDef activityArgs.
Arguments same_but_payload {T Final Err} e1 e2.

End WaitForDone.

(** ** (3) createIterativeLoopRequest, lines 139-179 *)

Module IterativeLoop.
Section Pattern.

(** [Submission] is the type of the payloads other than [undefined], so
    that [lastSubmission !== undefined] is [lastSubmission <> None].  [W] is
    whatever the callback acts on. *)
Variables Args Submission Final W : Type.
Variables submissionSignalDef finishSignalDef : SignalDefinition.
Variable onSubmission : option (Submission -> W -> W).

Inductive pc : Type :=
| await_condition                   (* line 168 *)
| returned.                         (* line 178 *)

Record state : Type := mkState {
  isDone : bool;                        (* line 149 *)
  lastSubmission : option Submission;   (* line 150 *)
  body : pc;
  world : W;
  calls : list Submission;          (* arguments [onSubmission] was called with *)
  issued : list (request Args)
}.

Definition with_body (b : pc) (st : state) : state :=
  {| isDone := isDone st; lastSubmission := lastSubmission st; body := b;
     world := world st; calls := calls st; issued := issued st |}.

(** The handler of lines 153-155. *)
Definition on_finish (_ : Final) (st : state) : state :=
  {| isDone := true; lastSubmission := lastSubmission st; body := body st;
     world := world st; calls := calls st; issued := issued st |}.

(** The handler of lines 158-163. *)
Definition on_submission (sub : Submission) (st : state) : state :=
  {| isDone := isDone st; lastSubmission := Some sub; body := body st;
     world := call_optional onSubmission sub (world st);
     calls := record_optional onSubmission sub (calls st);
     issued := issued st |}.

(** The predicate of line 168. *)
Definition wake_predicate (st : state) : bool :=
  match lastSubmission st with Some _ => true | None => false end
  || isDone st.

(** Line 172. *)
Definition consume (st : state) : state :=
  {| isDone := isDone st; lastSubmission := None; body := body st;
     world := world st; calls := calls st; issued := issued st |}.

(** Line 166 and the call of line 168: the loop is left when [isDone]
    holds, otherwise the body parks on [condition].  Whether it goes on
    from there is decided by [resume]. *)
Definition loop_head (st : state) : state :=
  if isDone st then with_body returned st
  else with_body await_condition st.

(** From line 168 on, once the predicate holds: lines 169-177. *)
Definition resume (st : state) : state :=
  match body st with
  | await_condition =>
      if wake_predicate st then
        if isDone st then with_body returned st   (* line 169: break *)
        else loop_head (consume st)
      else st
  | returned => st
  end.

(** [iterativeLoop(..._args)] up to its first suspension, lines 149-168;
    [w] is the world at the time of the call. *)
Definition iterativeLoop (w : W) (_args : Args) : state :=
  loop_head
    {| isDone := false; lastSubmission := None; body := await_condition;
       world := w; calls := [];
       issued := [SetHandler finishSignalDef;
                  SetHandler submissionSignalDef] |}.

Inductive event : Type :=
| Finish (payload : Final)          (* a delivery of [finishSignalDef] *)
| Submit (sub : Submission)         (* a delivery of [submissionSignalDef] *)
| Resume.

Definition step (st : state) (ev : event) : state :=
  match ev with
  | Finish payload => on_finish payload st
  | Submit sub => on_submission sub st
  | Resume => resume st
  end.

Definition run (st : state) (tr : list event) : state :=
  fold_left step tr st.

(** The submissions delivered in a trace, in order. *)
Fixpoint submissions (tr : list event) : list Submission :=
  match tr with
  | [] => []
  | Submit sub :: tr' => sub :: submissions tr'
  | _ :: tr' => submissions tr'
  end.

Definition is_Finish (ev : event) : bool :=
  match ev with Finish _ => true | _ => false end.

Definition is_Resume (ev : event) : bool :=
  match ev with Resume => true | _ => false end.

Definition finished (tr : list event) : bool := existsb is_Finish tr.

(** The signal deliveries of a trace, without the host's [Resume]s. *)
Definition deliveries (tr : list event) : list event :=
  filter (fun ev => negb (is_Resume ev)) tr.

End Pattern.
Arguments Finish {Submission Final} payload.
Arguments Submit {Submission Final} sub.
Arguments Resume {Submission Final}.
Arguments iterativeLoop {Args Submission W}
  submissionSignalDef finishSignalDef w _args.

End IterativeLoop.

(** ** (6) createProgressReportingRequest, lines 209-274 *)

Module ProgressRequest.
Section Pattern.

Variables AResult AArgs Progress Final Err W : Type.
Variables updateSignalDef completeSignalDef : SignalDefinition.
Variable onStarted : option (AResult -> W -> W).
Variable onProgress : option (Progress -> W -> W).

(** [progressRequest] returns [finalData!]; the assertion is erased when
    the program is compiled, so what is returned is the content of the
    variable, [undefined] included. *)
Inductive pc : Type :=
| await_startLongJobActivity
    (settled : option (settlement AResult Err))   (* line 261 *)
| await_condition                                 (* line 269 *)
| returned (result : option Final)                (* line 272 *)
| threw (failure : Err).

Inductive call : Type :=
| OnStarted (activityResult : AResult)
| OnProgress (progressData : Progress).

Record state : Type := mkState {
  isDone : bool;                    (* line 242 *)
  finalData : option Final;         (* line 245 *)
  body : pc;
  world : W;
  calls : list call;                (* the callbacks called, in order *)
  issued : list (request AArgs)
}.

Definition with_body (b : pc) (st : state) : state :=
  {| isDone := isDone st; finalData := finalData st; body := b;
     world := world st; calls := calls st; issued := issued st |}.

(** The handler of lines 248-250. *)
Definition on_update (progressValue : Progress) (st : state) : state :=
  if negb (isDone st) then
    {| isDone := isDone st; finalData := finalData st; body := body st;
       world := call_optional onProgress progressValue (world st);
       calls := record_optional onProgress (OnProgress progressValue)
                  (calls st);
       issued := issued st |}
  else st.

(** The handler of lines 253-258.  [finalVal] is whatever the signal
    carries: [finalData = Some v] says that [v] has been written to the
    variable. *)
Definition on_complete (finalVal : Final) (st : state) : state :=
  if negb (isDone st) then
    {| isDone := true; finalData := Some finalVal; body := body st;
       world := world st; calls := calls st; issued := issued st |}
  else st.

Definition settle (s : settlement AResult Err) (st : state) : state :=
  match body st with
  | await_startLongJobActivity None =>
      with_body (await_startLongJobActivity (Some s)) st
  | _ => st
  end.

(** Lines 264-266. *)
Definition started (activityResult : AResult) (st : state) : state :=
  {| isDone := isDone st; finalData := finalData st; body := body st;
     world := call_optional onStarted activityResult (world st);
     calls := record_optional onStarted (OnStarted activityResult)
                (calls st);
     issued := issued st |}.

(** Lines 269-272. *)
Definition condition_isDone (st : state) : state :=
  if isDone st then with_body (returned (finalData st)) st
  else with_body await_condition st.

Definition resume (st : state) : state :=
  match body st with
  | await_startLongJobActivity (Some (Fulfilled activityResult)) =>
      condition_isDone (started activityResult st)
  | await_startLongJobActivity (Some (Rejected e)) => with_body (threw e) st
  | await_startLongJobActivity None => st
  | await_condition => condition_isDone st
  | returned _ => st
  | threw _ => st
  end.

(** [progressRequest(...activityArgs)] up to its first suspension, lines
    242-261; [w] is the world at the time of the call. *)
Definition progressRequest (w : W) (activityArgs : AArgs) : state :=
  {| isDone := false; finalData := None;
     body := await_startLongJobActivity None;
     world := w; calls := [];
     issued := [SetHandler updateSignalDef; SetHandler completeSignalDef;
                Invoke activityArgs] |}.

Inductive event : Type :=
| Update (progressValue : Progress) (* a delivery of [updateSignalDef] *)
| Complete (finalVal : Final)       (* a delivery of [completeSignalDef] *)
| Settle (s : settlement AResult Err)
| Resume.

Definition step (st : state) (ev : event) : state :=
  match ev with
  | Update progressValue => on_update progressValue st
  | Complete finalVal => on_complete finalVal st
  | Settle s => settle s st
  | Resume => resume st
  end.

Definition run (st : state) (tr : list event) : state :=
  fold_left step tr st.

Fixpoint first_settle (tr : list event) : option (settlement AResult Err) :=
  match tr with
  | [] => None
  | Settle s :: _ => Some s
  | _ :: tr' => first_settle tr'
  end.

(** The payload of the first completion signal of a trace. *)
Fixpoint first_complete (tr : list event) : option Final :=
  match tr with
  | [] => None
  | Complete finalVal :: _ => Some finalVal
  | _ :: tr' => first_complete tr'
  end.

(** The progress payloads delivered before the first completion signal. *)
Fixpoint updates_before_complete (tr : list event) : list Progress :=
  match tr with
  | [] => []
  | Complete _ :: _ => []
  | Update progressValue :: tr' => progressValue :: updates_before_complete tr'
  | _ :: tr' => updates_before_complete tr'
  end.

(** The signals delivered in a trace, without [Settle] and [Resume]. *)
Definition is_signal (ev : event) : bool :=
  match ev with Update _ | Complete _ => true | _ => false end.

Definition deliveries (tr : list event) : list event := filter is_signal tr.

(** The arguments [onProgress] was called with. *)
Fixpoint progress_calls (cs : list call) : list Progress :=
  match cs with
  | [] => []
  | OnProgress p :: cs' => p :: progress_calls cs'
  | OnStarted _ :: cs' => progress_calls cs'
  end.

(** The arguments [onStarted] was called with. *)
Fixpoint started_calls (cs : list call) : list AResult :=
  match cs with
  | [] => []
  | OnStarted a :: cs' => a :: started_calls cs'
  | OnProgress _ :: cs' => started_calls cs'
  end.

(** What a recorded call does to the world. *)
Definition replay (w : W) (c : call) : W :=
  match c with
  | OnStarted a => call_optional onStarted a w
  | OnProgress p => call_optional onProgress p w
  end.

Fixpoint flips (st : state) (tr : list event) : nat :=
  match tr with
  | [] => 0
  | ev :: tr' =>
      (if negb (isDone st) && isDone (step st ev) then 1 else 0)
      + flips (step st ev) tr'
  end.

End Pattern.
Arguments await_startLongJobActivity {AResult Final Err} settled.
Arguments await_condition {AResult Final Err}.
Arguments returned {AResult Final Err} result.
Arguments threw {AResult Final Err} failure.
Arguments OnStarted {AResult Progress} activityResult.
Arguments OnProgress {AResult Progress} progressData.
Arguments Update {AResult Progress Final Err} progressValue.
Arguments Complete {AResult Progress Final Err} finalVal.
Arguments Settle {AResult Progress Final Err} s.
Arguments Resume {AResult Progress Final Err}.
Arguments progressRequest {AResult AArgs Progress Final Err W}
  updateSignalDef completeSignalDef w activityArgs.

End ProgressRequest.

(** ** What a signal carries

    The payload types of the patterns are TypeScript types: nothing
    checks, when the program runs, that a signal carries a value of the
    type its definition declares.  A signal sent without an argument
    gives the handler [undefined], one sent with [null] gives it [null]. *)

Module Payload.

Inductive carried (A : Type) : Type :=
| Value (a : A)
| Undefined
| Null.
Arguments Value {A} a.
Arguments Undefined {A}.
Arguments Null {A}.

(** What a variable [let x: A | undefined] holds when the values written
    to it are payloads: [undefined] until it is first written, then what
    was written last. *)
Definition content {A : Type} (x : option (carried A)) : carried A :=
  match x with
  | Some c => c
  | None => Undefined
  end.

(** [c!] asserts that [c] is neither [undefined] nor [null]. *)
Definition defined {A : Type} (c : carried A) : bool :=
  match c with
  | Value _ => true
  | Undefined => false
  | Null => false
  end.

End Payload.

(** ** JavaScript values

    A value as [JSON.parse] builds it, or as a signal carries it.  What
    the program does with such values is read a property, test it with
    [!], choose with [||] and make a string of it; numbers are kept
    abstract, with the test of their being [0] or [NaN].  [Obj] lists the
    properties of an object, each name once. *)

Module Js.
Section Values.

Variable number : Type.
Variable zero_or_NaN : number -> bool.

Local Unset Elimination Schemes.

Inductive value : Type :=
| Undefined
| Null
| Bool (b : bool)
| Num (n : number)
| Str (s : string)
| Arr (items : list value)
| Obj (fields : list (string * value)).

Local Set Elimination Schemes.

(** [!v] is [negb (truthy v)]. *)
Definition truthy (v : value) : bool :=
  match v with
  | Undefined => false
  | Null => false
  | Bool b => b
  | Num n => negb (zero_or_NaN n)
  | Str s => negb (String.eqb s "")
  | Arr _ => true
  | Obj _ => true
  end.

(** [a || b]. *)
Definition or_else (a b : value) : value :=
  if truthy a then a else b.

Fixpoint lookup (key : string) (fields : list (string * value)) : value :=
  match fields with
  | [] => Undefined
  | (k, v) :: rest => if String.eqb k key then v else lookup key rest
  end.

(** [v.key], and [const { key } = v], for a [key] that is no property of
    the built-in prototypes: [None] is the [TypeError] thrown when [v] is
    [undefined] or [null]. *)
Definition get (v : value) (key : string) : option value :=
  match v with
  | Undefined => None
  | Null => None
  | Obj fields => Some (lookup key fields)
  | _ => Some Undefined
  end.

(** [v?.key]. *)
Definition get_optional (v : value) (key : string) : value :=
  match get v key with
  | Some x => x
  | None => Undefined
  end.

End Values.

Arguments Undefined {number}.
Arguments Null {number}.
Arguments Bool {number} b.
Arguments Str {number} s.

End Js.

(** The string that a template literal, and [+] with a string, make of a
    value whose objects define neither [toString] nor [valueOf]; a number
    is given by its text.  Used in the examples. *)

Module JsText.
Import Js.

Fixpoint to_string (v : Js.value string) : string :=
  match v with
  | Undefined => "undefined"
  | Null => "null"
  | Bool true => "true"
  | Bool false => "false"
  | Num n => n
  | Str s => s
  | Arr items =>
      String.concat ","
        (map (fun item =>
                match item with
                | Undefined => ""%string
                | Null => ""%string
                | _ => to_string item
                end) items)
  | Obj _ => "[object Object]"
  end.

End JsText.

(** ** relifeResearchWorkflow, src/workflows.ts lines 64-146

    The workflow calls [iterativeLoop] once and, in the callback of every
    submission, [progressRequest].  Its state is the place of the workflow
    function, the call of [iterativeLoop], the calls of [progressRequest]
    made so far with the callback each belongs to, and what the workflow
    has asked of the host.

    A call of [progressRequest] or [iterativeLoop] acts on the world of
    its caller: it is lent the world before each step and gives it back
    after.

    The events are the deliveries of the four signals, [Settle t s] (the
    activity that [t] awaits settles with [s], and [t] runs on to its
    next suspension) and [Resume t] ([t], parked on [condition], runs on
    if the predicate holds).  When a call that [t] awaits returns or
    throws, [t] goes on at once.

    What is taken from the host in addition:

    - calling an activity asks the host to run it at once;
    - [setHandler] for a signal that has a handler replaces that handler,
      so that the progress and completion signals go to the latest call
      of [progressRequest];
    - when the workflow function has returned or thrown, nothing of the
      workflow runs any more;
    - the payload of a signal is any value: the types of lines 7-23 are
      not checked when the program runs;
    - the three callbacks are [async] functions whose promise the helpers
      drop.  When such a promise is rejected (an activity it awaits
      fails, or it reads a property of [undefined] or [null]) nobody
      handles the rejection, and the host fails the workflow task: the
      workflow makes no step from there on.

    A signal delivered while no handler is set for it is kept by the host
    for later: such runs are left out ([step] gives [None]).  What the
    callbacks write to the console is left out.  Strings are the UTF-8
    bytes of the source text. *)

Module Research.
Import Js.

(** Lines 18-23. *)
Definition userConditionSignal : SignalDefinition := "condition"%string.
Definition userConvincedSignal : SignalDefinition := "finish"%string.
Definition searchProgressSignal : SignalDefinition := "searchProgress"%string.
Definition searchCompleteSignal : SignalDefinition := "searchComplete"%string.

Definition waiting_message : string :=                      (* line 66 *)
  "[😎マネージャーのコメント] 調査員が賃貸を探せるように待機しています 🙋‍♂️".
Definition searching_message : string :=                    (* line 95 *)
  "[👩‍💼 マネージャーのコメント] 調査員が賃貸を探しています 👍".
Definition progress_prefix : string :=                      (* line 104 *)
  "[🧑‍💻 調査員のコメント] ".
Definition done_message : string :=                         (* line 130 *)
  "[🧑‍💻 調査員のコメント] 一旦調査が完了しました、調査結果を確認してください😆".
Definition result_prefix : string :=                        (* line 131 *)
  "[👩‍💼 マネージャーのコメント] 調査結果: ".
Definition farewell_message : string :=                     (* line 143 *)
  "[👩‍💼 マネージャーのコメント] そちらの物件をみてみたいのですね、手配しますね！".

Section Workflow.

Variable number : Type.
Local Notation value := (Js.value number).

(** The string that a template literal, and [+] with a string, make of a
    value. *)
Variable to_string : value -> string.

Variable Err : Type.
(** What reading a property of [undefined] or [null] throws. *)
Variable type_error : Err.
Variable chatSessionId : string.

(** The activities of lines 38-54, as the host is asked to run them. *)
Inductive command : Type :=
| PostChatMessage (chatSessionId message : string)
| StartSearchActivity (condition : value).

(** What the workflow has asked of the host and what the host holds
    against it. *)
Record ledger : Type := mkLedger {
  commands : list command;          (* the activities asked for, in order *)
  unawaited : list nat;             (* the places in [commands] of the chat
                                       messages of [onStarted] and
                                       [onProgress] that have not settled *)
  unhandled : option Err            (* the rejection nobody handled *)
}.

(** An activity is called and awaited by the caller. *)
Definition ask (c : command) (b : ledger) : ledger :=
  {| commands := commands b ++ [c];
     unawaited := unawaited b;
     unhandled := unhandled b |}.

(** An activity is called in a callback whose promise is dropped. *)
Definition ask_unawaited (c : command) (b : ledger) : ledger :=
  {| commands := commands b ++ [c];
     unawaited := unawaited b ++ [List.length (commands b)];
     unhandled := unhandled b |}.

(** A promise nobody awaits is rejected with [e]. *)
Definition reject (e : Err) (b : ledger) : ledger :=
  {| commands := commands b;
     unawaited := unawaited b;
     unhandled := Some e |}.

Definition request_state : Type :=
  ProgressRequest.state string value value value Err ledger.

Definition request_event : Type :=
  ProgressRequest.event string value value Err.

(** [onStarted], lines 94-99: the chat message is asked for when the
    callback is called; after the message is posted the callback only
    writes to the console. *)
Definition onStarted (jobId : string) (b : ledger) : ledger :=
  ask_unawaited (PostChatMessage chatSessionId searching_message) b.

(** [onProgress], lines 102-105: [prog.message] is read at line 103. *)
Definition onProgress (prog : value) (b : ledger) : ledger :=
  match get prog "message" with
  | Some message =>
      ask_unawaited
        (PostChatMessage chatSessionId
           (String.append progress_prefix (to_string message))) b
  | None => reject type_error b
  end.

(** Where the callback of a submission is, lines 124-135. *)
Inductive callback_pc : Type :=
| await_progressReq                                         (* line 129 *)
| await_done_message (finalRes : option value)              (* line 130 *)
| await_result_message                                      (* line 131 *)
| finished                                                  (* line 135 *)
| rejected (failure : Err).

Record search : Type := mkSearch {
  invocation : request_state;       (* the call of [progressReq] *)
  callback : callback_pc
}.

Record env : Type := mkEnv {
  book : ledger;
  searches : list search
}.

(** The callback of a submission up to its first suspension, lines
    124-129: [cond.request] is read at line 126, then [progressReq] is
    called and runs up to its own first suspension. *)
Definition onSubmission (cond : value) (e : env) : env :=
  match get cond "request" with
  | Some request =>
      let args := Obj [("request"%string, request)] in
      let b := ask (StartSearchActivity args) (book e) in
      {| book := b;
         searches :=
           searches e ++
           [{| invocation :=
                 ProgressRequest.progressRequest
                   searchProgressSignal searchCompleteSignal b args;
               callback := await_progressReq |}] |}
  | None =>
      {| book := reject type_error (book e); searches := searches e |}
  end.

Definition loop_state : Type := IterativeLoop.state unit value env.

(** Where the workflow function is. *)
Inductive main_pc : Type :=
| await_waiting_message                                     (* line 66 *)
| await_iterativeReq                                        (* line 142 *)
| await_farewell_message                                    (* line 143 *)
| returned                                                  (* line 146 *)
| threw (failure : Err).

Record state : Type := mkState {
  main : main_pc;
  loop : option loop_state;         (* the call of [iterativeReq] *)
  now : env
}.

(** [relifeResearchWorkflow(chatSessionId)] up to its first suspension. *)
Definition relifeResearchWorkflow : state :=
  {| main := await_waiting_message;
     loop := None;
     now := {| book := {| commands :=
                            [PostChatMessage chatSessionId waiting_message];
                          unawaited := [];
                          unhandled := None |};
               searches := [] |} |}.

Inductive task : Type :=
| Main
| Search (k : nat)                  (* the callback of the k-th submission *)
| Message (i : nat).                (* the callback of [progressReq] that
                                       asked for the i-th command *)

Inductive event : Type :=
| Condition (cond : value)          (* signal [condition] *)
| Convinced (msg : value)           (* signal [finish] *)
| Progress (prog : value)           (* signal [searchProgress] *)
| Complete (result : value)         (* signal [searchComplete] *)
| Settle (t : task) (s : settlement string Err)
| Resume (t : task).

Definition lend_request (b : ledger) (r : request_state) : request_state :=
  {| ProgressRequest.isDone := ProgressRequest.isDone r;
     ProgressRequest.finalData := ProgressRequest.finalData r;
     ProgressRequest.body := ProgressRequest.body r;
     ProgressRequest.world := b;
     ProgressRequest.calls := ProgressRequest.calls r;
     ProgressRequest.issued := ProgressRequest.issued r |}.

Definition lend_loop (e : env) (l : loop_state) : loop_state :=
  {| IterativeLoop.isDone := IterativeLoop.isDone l;
     IterativeLoop.lastSubmission := IterativeLoop.lastSubmission l;
     IterativeLoop.body := IterativeLoop.body l;
     IterativeLoop.world := e;
     IterativeLoop.calls := IterativeLoop.calls l;
     IterativeLoop.issued := IterativeLoop.issued l |}.

Fixpoint set_nth {A : Type} (k : nat) (x : A) (l : list A) : list A :=
  match l, k with
  | [], _ => []
  | _ :: l', 0 => x :: l'
  | y :: l', S k' => y :: set_nth k' x l'
  end.

(** One step of the call of [progressReq] in a search. *)
Definition in_request (ev : request_event) (b : ledger) (s : search)
    : ledger * search :=
  let r := ProgressRequest.step (Some onStarted) (Some onProgress)
             (lend_request b (invocation s)) ev in
  (ProgressRequest.world r,
   {| invocation := r; callback := callback s |}).

Definition on_search (k : nat)
    (f : ledger -> search -> ledger * search) (e : env) : env :=
  match nth_error (searches e) k with
  | Some s =>
      let (b, s') := f (book e) s in
      {| book := b; searches := set_nth k s' (searches e) |}
  | None => e
  end.

(** The handlers of [searchProgress] and [searchComplete] are those of the
    call of [progressReq] made last. *)
Definition to_latest_request (ev : request_event) (st : state)
    : option state :=
  match searches (now st) with
  | [] => None
  | _ :: _ =>
      Some {| main := main st; loop := loop st;
              now := on_search (List.length (searches (now st)) - 1)
                       (in_request ev) (now st) |}
  end.

(** One step of the call of [iterativeReq]. *)
Definition in_loop (ev : IterativeLoop.event value value) (st : state)
    : option state :=
  match loop st with
  | None => None
  | Some l =>
      let l' := IterativeLoop.step (Some onSubmission)
                  (lend_loop (now st) l) ev in
      Some {| main := main st; loop := Some l';
              now := IterativeLoop.world l' |}
  end.

(** The delivery of [condition], lines 158-163 of the helper.  The loop
    keeps a payload other than [undefined] as its pending submission;
    [undefined] written to [lastSubmission] leaves it without one. *)
Definition deliver_condition (cond : value) (st : state) : option state :=
  match loop st with
  | None => None
  | Some l =>
      let l' := IterativeLoop.step (Some onSubmission)
                  (lend_loop (now st) l)
                  (IterativeLoop.Submit cond
                     : IterativeLoop.event value value) in
      Some {| main := main st;
              loop := Some match cond with
                           | Undefined => IterativeLoop.consume l'
                           | _ => l'
                           end;
              now := IterativeLoop.world l' |}
  end.

(** Line 66 and line 143: the chat message the workflow function awaits
    settles.  After line 66 the factories are called (lines 77-136) and
    then [iterativeReq()], which runs up to its first suspension. *)
Definition settle_main (s : settlement string Err) (st : state) : state :=
  match main st, s with
  | await_waiting_message, Fulfilled _ =>
      {| main := await_iterativeReq;
         loop := Some (IterativeLoop.iterativeLoop
                         userConditionSignal userConvincedSignal
                         (now st) tt);
         now := now st |}
  | await_farewell_message, Fulfilled _ =>
      {| main := returned; loop := loop st; now := now st |}
  | await_waiting_message, Rejected e
  | await_farewell_message, Rejected e =>
      {| main := threw e; loop := loop st; now := now st |}
  | _, _ => st
  end.

(** Line 142: the loop runs on from its [condition]; when it returns,
    the workflow function asks for the message of line 143. *)
Definition resume_main (st : state) : state :=
  match main st, loop st with
  | await_iterativeReq, Some l =>
      let l' := IterativeLoop.step (Some onSubmission)
                  (lend_loop (now st) l)
                  (IterativeLoop.Resume : IterativeLoop.event value value) in
      match IterativeLoop.body l' with
      | IterativeLoop.returned =>
          {| main := await_farewell_message;
             loop := Some l';
             now := {| book :=
                         ask (PostChatMessage chatSessionId
                                farewell_message)
                           (book (IterativeLoop.world l'));
                       searches := searches (IterativeLoop.world l') |} |}
      | IterativeLoop.await_condition =>
          {| main := main st; loop := Some l';
             now := IterativeLoop.world l' |}
      end
  | _, _ => st
  end.

(** What the variable [finalRes] holds: [progressReq] returns the content
    of [finalData], which is [undefined] when nothing was written to
    it. *)
Definition content (finalRes : option value) : value :=
  match finalRes with
  | Some result => result
  | None => Undefined
  end.

(** Line 129, when the call of [progressReq] has run: if it has
    returned, the callback asks for the message of line 130; if it has
    thrown, the callback throws.  The promise of the callback is dropped
    by the loop: the rejection is nobody's. *)
Definition proceed (p : ledger * search) : ledger * search :=
  let (b, x) := p in
  match callback x, ProgressRequest.body (invocation x) with
  | await_progressReq, ProgressRequest.returned finalRes =>
      (ask (PostChatMessage chatSessionId done_message) b,
       {| invocation := invocation x;
          callback := await_done_message finalRes |})
  | await_progressReq, ProgressRequest.threw e =>
      (reject e b, {| invocation := invocation x; callback := rejected e |})
  | _, _ => (b, x)
  end.

(** The activity that the callback of a submission awaits settles: the
    start activity inside [progressReq] (line 129), or the chat message
    of line 130 or of line 131, where [finalRes.summary] is read. *)
Definition settle_search (s : settlement string Err)
    (b : ledger) (x : search) : ledger * search :=
  match callback x with
  | await_progressReq =>
      match ProgressRequest.body (invocation x) with
      | ProgressRequest.await_startLongJobActivity None =>
          let (b1, x1) := in_request (ProgressRequest.Settle s) b x in
          proceed (in_request ProgressRequest.Resume b1 x1)
      | _ => (b, x)
      end
  | await_done_message finalRes =>
      match s with
      | Fulfilled _ =>
          match get (content finalRes) "summary" with
          | Some summary =>
              (ask (PostChatMessage chatSessionId
                      (String.append result_prefix (to_string summary))) b,
               {| invocation := invocation x;
                  callback := await_result_message |})
          | None =>
              (reject type_error b,
               {| invocation := invocation x;
                  callback := rejected type_error |})
          end
      | Rejected e =>
          (reject e b,
           {| invocation := invocation x; callback := rejected e |})
      end
  | await_result_message =>
      match s with
      | Fulfilled _ =>
          (b, {| invocation := invocation x; callback := finished |})
      | Rejected e =>
          (reject e b,
           {| invocation := invocation x; callback := rejected e |})
      end
  | finished => (b, x)
  | rejected _ => (b, x)
  end.

(** Line 129, the call of [progressReq] parked on its [condition]. *)
Definition resume_search (b : ledger) (x : search) : ledger * search :=
  match callback x, ProgressRequest.body (invocation x) with
  | await_progressReq, ProgressRequest.await_condition =>
      proceed (in_request ProgressRequest.Resume b x)
  | _, _ => (b, x)
  end.

(** The chat message asked for as the i-th command by [onStarted] or
    [onProgress] settles, and the callback goes on: fulfilled, it has
    nothing left to do but write to the console; rejected, its promise is
    rejected. *)
Definition settle_message (i : nat) (s : settlement string Err)
    (b : ledger) : ledger :=
  if existsb (Nat.eqb i) (unawaited b) then
    let b' := {| commands := commands b;
                 unawaited :=
                   filter (fun j => negb (Nat.eqb i j)) (unawaited b);
                 unhandled := unhandled b |} in
    match s with
    | Fulfilled _ => b'
    | Rejected e => reject e b'
    end
  else b.

(** The workflow function has returned or thrown. *)
Definition over (st : state) : bool :=
  match main st with
  | returned => true
  | threw _ => true
  | _ => false
  end.

(** The workflow task has failed on a rejection nobody handled. *)
Definition stuck (st : state) : bool :=
  match unhandled (book (now st)) with
  | Some _ => true
  | None => false
  end.

Definition step (st : state) (ev : event) : option state :=
  if over st || stuck st then Some st
  else
    match ev with
    | Condition cond => deliver_condition cond st
    | Convinced msg => in_loop (IterativeLoop.Finish msg) st
    | Progress prog => to_latest_request (ProgressRequest.Update prog) st
    | Complete result =>
        to_latest_request (ProgressRequest.Complete result) st
    | Settle Main s => Some (settle_main s st)
    | Resume Main => Some (resume_main st)
    | Settle (Search k) s =>
        Some {| main := main st; loop := loop st;
                now := on_search k (settle_search s) (now st) |}
    | Resume (Search k) =>
        Some {| main := main st; loop := loop st;
                now := on_search k resume_search (now st) |}
    | Settle (Message i) s =>
        Some {| main := main st; loop := loop st;
                now := {| book := settle_message i s (book (now st));
                          searches := searches (now st) |} |}
    | Resume (Message _) => Some st
    end.

Fixpoint run (st : state) (tr : list event) : option state :=
  match tr with
  | [] => Some st
  | ev :: tr' =>
      match step st ev with
      | Some st' => run st' tr'
      | None => None
      end
  end.

(** The conditions delivered in a trace, and the searches asked for in a
    list of commands. *)
Fixpoint conditions (tr : list event) : list value :=
  match tr with
  | [] => []
  | Condition cond :: tr' => cond :: conditions tr'
  | _ :: tr' => conditions tr'
  end.

Fixpoint searches_started (cs : list command) : list value :=
  match cs with
  | [] => []
  | StartSearchActivity cond :: cs' => cond :: searches_started cs'
  | PostChatMessage _ _ :: cs' => searches_started cs'
  end.

(** The argument of [progressReq] at line 129. *)
Definition search_args (cond : value) : value :=
  Obj [("request"%string, get_optional cond "request")].

Definition is_Convinced (ev : event) : bool :=
  match ev with Convinced _ => true | _ => false end.

(** What holds of every search of a run: [finalData] is written with
    [isDone], a returned value is [finalData], and the callback is past
    line 129 only when the call has its final result. *)
Definition sound (x : search) : Prop :=
  (ProgressRequest.isDone (invocation x) = true ->
   exists result, ProgressRequest.finalData (invocation x) = Some result) /\
  (forall v,
      ProgressRequest.body (invocation x) = ProgressRequest.returned v ->
      ProgressRequest.isDone (invocation x) = true /\
      v = ProgressRequest.finalData (invocation x)) /\
  match callback x with
  | await_progressReq => True
  | await_done_message finalRes =>
      ProgressRequest.isDone (invocation x) = true /\
      finalRes = ProgressRequest.finalData (invocation x)
  | await_result_message | finished =>
      ProgressRequest.isDone (invocation x) = true
  | rejected _ => True
  end.

(** What a callback has left with the host by the time it is where it
    is: the chat messages it has asked for, and its rejection. *)
Definition posted (b : ledger) (x : search) : Prop :=
  match callback x with
  | await_progressReq => True
  | await_done_message _ =>
      In (PostChatMessage chatSessionId done_message) (commands b)
  | await_result_message | finished =>
      exists result summary,
        ProgressRequest.finalData (invocation x) = Some result /\
        get result "summary" = Some summary /\
        In (PostChatMessage chatSessionId
              (String.append result_prefix (to_string summary)))
           (commands b)
  | rejected _ => unhandled b <> None
  end.

(** A later ledger: commands are added, and only chat messages; a
    rejection stays. *)
Definition later (b b' : ledger) : Prop :=
  (exists extra,
      commands b' = commands b ++ extra /\ searches_started extra = []) /\
  (unhandled b <> None -> unhandled b' <> None).

(** What a step of a search keeps: the ledger is a later one, a sound
    search stays sound and has left with the host what it should. *)
Definition keeps (b : ledger) (x : search) (p : ledger * search) : Prop :=
  later b (fst p) /\
  (sound x -> sound (snd p)) /\
  (sound x -> posted b x -> posted (fst p) (snd p)).

End Workflow.

Arguments PostChatMessage {number} chatSessionId message.
Arguments StartSearchActivity {number} condition.
Arguments await_progressReq {number Err}.
Arguments await_done_message {number Err} finalRes.
Arguments await_result_message {number Err}.
Arguments finished {number Err}.
Arguments rejected {number Err} failure.
Arguments await_waiting_message {Err}.
Arguments await_iterativeReq {Err}.
Arguments await_farewell_message {Err}.
Arguments returned {Err}.
Arguments threw {Err} failure.
Arguments Condition {number Err} cond.
Arguments Convinced {number Err} msg.
Arguments Progress {number Err} prog.
Arguments Complete {number Err} result.
Arguments Settle {number Err} t s.
Arguments Resume {number Err} t.
Arguments is_Convinced {number Err} ev.
Arguments conditions {number Err} tr.
Arguments searches_started {number} cs.
Arguments search_args {number} cond.
Arguments relifeResearchWorkflow {number Err} chatSessionId.

End Research.

(** ** The HTTP endpoints in front of the workflow (the Express server)
    and the command-line clients, src/clients

    A request body is a JavaScript value.  The Temporal client is the
    host: it is given a call and answers, or fails.  Console output is
    left out. *)

Module Server.
Import Js.
Section Endpoints.

Variable number : Type.
Variable zero_or_NaN : number -> bool.

Local Notation value := (Js.value number).
Local Notation truthy := (Js.truthy zero_or_NaN).
Local Notation or_else := (Js.or_else zero_or_NaN).

(** What the Temporal client fails with, and [TASK_QUEUE_NAME] of
    [../shared]. *)
Variable Failure : Type.
Variable TASK_QUEUE_NAME : string.

Inductive thrown : Type :=
| TypeError                         (* destructuring [undefined] or [null] *)
| ClientError (e : Failure).

(** [String(err)]. *)
Variable describe : thrown -> string.

Inductive client_call : Type :=
| StartWorkflow (workflowId taskQueue : string) (args : list value)
| SendSignal (workflowId : value) (def : SignalDefinition) (payload : value).

(** What the client answers to a call: nothing, or a failure. *)
Variable client : client_call -> option Failure.

Record response : Type := {
  status : nat;
  json : value
}.

Record outcome : Type := {
  calls : list client_call;         (* the calls made to the client *)
  answer : response
}.

(** [res.status(400).json({ error })]. *)
Definition bad_request (error : string) : outcome :=
  {| calls := [];
     answer := {| status := 400; json := Obj [("error"%string, Str error)] |}
  |}.

(** The [catch] of every handler: [res.status(500).json({ error:
    String(err) })]. *)
Definition failed (made : list client_call) (err : thrown) : outcome :=
  {| calls := made;
     answer := {| status := 500;
                  json := Obj [("error"%string, Str (describe err))] |} |}.

(** [await] the call, then [res.json(body)]. *)
Definition call_then_answer (c : client_call) (body : value) : outcome :=
  match client c with
  | None => {| calls := [c]; answer := {| status := 200; json := body |} |}
  | Some e => failed [c] (ClientError e)
  end.

(** POST /workflow/start; [timestamp] is [Date.now()] as the template
    literal prints it. *)
Definition start (timestamp : string) (body : value) : outcome :=
  match get body "chatSessionId" with
  | None => failed [] TypeError
  | Some chatSessionId =>
      if negb (truthy chatSessionId) then
        bad_request "Missing chatSessionId"
      else
        let workflowId :=
          String.append "relifeResearchWorkflow-" timestamp in
        call_then_answer
          (StartWorkflow workflowId TASK_QUEUE_NAME [chatSessionId])
          (Obj [("workflowId"%string, Str workflowId)])
  end.

(** POST /workflow/request-research. *)
Definition request_research (body : value) : outcome :=
  match get body "workflowId", get body "condition" with
  | Some workflowId, Some condition =>
      if negb (truthy workflowId)
         || negb (truthy (get_optional condition "request")) then
        bad_request "Missing workflowId or condition.request"
      else
        call_then_answer
          (SendSignal workflowId Research.userConditionSignal condition)
          (Obj [("message"%string, Str "Condition signal sent");
                ("condition"%string, condition)])
  | _, _ => failed [] TypeError
  end.

(** POST /workflow/submit-research-progress. *)
Definition submit_research_progress (body : value) : outcome :=
  match get body "workflowId", get body "message" with
  | Some workflowId, Some message =>
      if negb (truthy workflowId) || negb (truthy message) then
        bad_request "Missing workflowId or message"
      else
        let progress :=
          Obj [("message"%string,
                or_else message (Str "Partial search result"))] in
        call_then_answer
          (SendSignal workflowId Research.searchProgressSignal progress)
          (Obj [("message"%string, Str "Progress signal sent");
                ("progress"%string, progress)])
  | _, _ => failed [] TypeError
  end.

(** POST /workflow/submit-research-result. *)
Definition submit_research_result (body : value) : outcome :=
  match get body "workflowId", get body "summary" with
  | Some workflowId, Some summary =>
      if negb (truthy workflowId) || negb (truthy summary) then
        bad_request "Missing workflowId, finalList, or summary"
      else
        let result := Obj [("summary"%string, summary)] in
        call_then_answer
          (SendSignal workflowId Research.searchCompleteSignal result)
          (Obj [("message"%string, Str "Complete signal sent");
                ("finalResult"%string, result)])
  | _, _ => failed [] TypeError
  end.

(** POST /workflow/convinced. *)
Definition convinced (body : value) : outcome :=
  match get body "workflowId", get body "finishMsg" with
  | Some workflowId, Some finishMsg =>
      if negb (truthy workflowId) then
        bad_request "Missing workflowId"
      else
        let msg := or_else finishMsg (Str "User decided to finish") in
        call_then_answer
          (SendSignal workflowId Research.userConvincedSignal msg)
          (Obj [("message"%string, Str "Finish signal sent");
                ("finishMsg"%string, msg)])
  | _, _ => failed [] TypeError
  end.

Inductive endpoint : Type :=
| WorkflowStart (timestamp : string)
| RequestResearch
| SubmitResearchProgress
| SubmitResearchResult
| Convinced.

Definition handle (e : endpoint) (body : value) : outcome :=
  match e with
  | WorkflowStart timestamp => start timestamp body
  | RequestResearch => request_research body
  | SubmitResearchProgress => submit_research_progress body
  | SubmitResearchResult => submit_research_result body
  | Convinced => convinced body
  end.

(** The signals among the calls made. *)
Fixpoint signals_sent (cs : list client_call)
    : list (value * SignalDefinition * value) :=
  match cs with
  | [] => []
  | SendSignal workflowId def payload :: cs' =>
      (workflowId, def, payload) :: signals_sent cs'
  | StartWorkflow _ _ _ :: cs' => signals_sent cs'
  end.

End Endpoints.

Arguments TypeError {Failure}.

End Server.

Module Cli.
Import Js.
Section Clients.

Variable number : Type.
Local Notation value := (Js.value number).

Variable Failure : Type.

(** What the host answers: to [Connection.connect()], to a call of the
    client, to [connection.close()]. *)
Variable connect : option Failure.
Variable client : Server.client_call number -> option Failure.
Variable close : option Failure.

Record outcome : Type := {
  connected : bool;                           (* [connect] was called *)
  calls : list (Server.client_call number);
  exit_code : nat
}.

(** [process.exit(1)] of the argument check. *)
Definition usage : outcome :=
  {| connected := false; calls := []; exit_code := 1 |}.

(** Lines from [Connection.connect()] on; a failure anywhere ends in the
    [catch] of the last lines, [process.exit(1)]. *)
Definition send (workflowId : string) (def : SignalDefinition)
    (payload : value) : outcome :=
  match connect with
  | Some _ => {| connected := true; calls := []; exit_code := 1 |}
  | None =>
      let c := Server.SendSignal (Str workflowId) def payload in
      match client c with
      | Some _ => {| connected := true; calls := [c]; exit_code := 1 |}
      | None =>
          match close with
          | Some _ => {| connected := true; calls := [c]; exit_code := 1 |}
          | None => {| connected := true; calls := [c]; exit_code := 0 |}
          end
      end
  end.

(** clients/requrst-research.ts; [args] is [process.argv.slice(2)]. *)
Definition request_research (args : list string) : outcome :=
  match args with
  | workflowId :: request :: _ =>
      send workflowId Research.userConditionSignal
        (Obj [("request"%string, Str request)])
  | _ => usage
  end.

(** clients/submit-research-result.ts. *)
Definition submit_research_result (args : list string) : outcome :=
  match args with
  | workflowId :: summary :: _ =>
      send workflowId Research.searchCompleteSignal
        (Obj [("summary"%string, Str summary)])
  | _ => usage
  end.

(** clients/convinced.ts. *)
Definition convinced (args : list string) : outcome :=
  match args with
  | workflowId :: _ =>
      send workflowId Research.userConvincedSignal (Str "物件ID1234")
  | [] => usage
  end.

End Clients.
End Cli.

(** ** Concrete runs used as examples *)

Module Scenarios.

Definition note (x : string) (w : list string) : list string := w ++ [x].

(** The search of [workflows.ts]: the activity resolves to ["job-42"], two
    progress reports arrive, then the final result. *)
Definition search : list (ProgressRequest.event string string string string) :=
  [ProgressRequest.Settle (Fulfilled "job-42"%string);
   ProgressRequest.Resume;
   ProgressRequest.Update "found 3 listings"%string;
   ProgressRequest.Update "found 7 listings"%string;
   ProgressRequest.Complete "done, 7 listings"%string;
   ProgressRequest.Resume].

Definition search_call : ProgressRequest.state
    string (list string) string string string (list string) :=
  ProgressRequest.run (Some note) (Some note)
    (ProgressRequest.progressRequest
       "searchProgress"%string "searchComplete"%string []
       ["2LDK"%string])
    search.

End Scenarios.

(** * Part II: properties *)

(** ** (1) The synchronous call *)

Module SyncWaitFacts.
Import SyncWait.
Section Facts.

Context {T Args Err : Type}.

Local Notation state := (SyncWait.state T Args Err).
Local Notation event := (SyncWait.event T Err).

Lemma run_snoc (st : state) (tr : list event) ev :
  run st (tr ++ [ev]) = step (run st tr) ev.
Proof. unfold run. now rewrite fold_left_app. Qed.

Lemma run_app (st : state) (tr1 tr2 : list event) :
  run st (tr1 ++ tr2) = run (run st tr1) tr2.
Proof. unfold run. now rewrite fold_left_app. Qed.

Lemma first_settle_snoc (tr : list event) ev :
  first_settle (tr ++ [ev]) =
  match first_settle tr with
  | Some s => Some s
  | None => match ev with Settle s => Some s | Resume => None end
  end.
Proof.
  induction tr as [|e tr IH]; simpl.
  - destruct ev; reflexivity.
  - destruct e; [reflexivity | exact IH].
Qed.

Lemma first_settle_app (tr1 tr2 : list event) s :
  first_settle tr1 = Some s -> first_settle (tr1 ++ tr2) = Some s.
Proof.
  induction tr1 as [|e tr1 IH]; simpl; [discriminate|].
  destruct e; auto.
Qed.

Lemma issued_step (st : state) ev : issued (step st ev) = issued st.
Proof.
  destruct ev; simpl.
  - unfold settle. destruct (body st) as [[s'|]| |]; reflexivity.
  - unfold resume. destruct (body st) as [[[r|e]|]| |]; reflexivity.
Qed.

Lemma issued_run (tr : list event) :
  forall st : state, issued (run st tr) = issued st.
Proof.
  induction tr as [|ev tr IH]; intros st; simpl; [reflexivity|].
  now rewrite IH, issued_step.
Qed.

(** What the program counter says about the trace that led to it. *)
Lemma body_agrees_run (args : Args) (tr : list event) :
  match body (run (syncWait args) tr) with
  | await_activityFn settled => first_settle tr = settled
  | returned r =>
      exists tr1 tr2, tr = tr1 ++ Resume :: tr2 /\
                      first_settle tr1 = Some (Fulfilled r)
  | threw e =>
      exists tr1 tr2, tr = tr1 ++ Resume :: tr2 /\
                      first_settle tr1 = Some (Rejected e)
  end.
Proof.
  induction tr as [|ev tr IH] using rev_ind; [reflexivity|].
  rewrite run_snoc.
  destruct (run (syncWait args) tr) as [b iss]; simpl in *.
  destruct ev as [s|]; simpl.
  - unfold settle; simpl.
    destruct b as [[s'|]| r | e]; simpl in *.
    + rewrite first_settle_snoc, IH; reflexivity.
    + rewrite first_settle_snoc, IH; reflexivity.
    + destruct IH as (tr1 & tr2 & -> & H).
      exists tr1, (tr2 ++ [Settle s]). now rewrite <- app_assoc.
    + destruct IH as (tr1 & tr2 & -> & H).
      exists tr1, (tr2 ++ [Settle s]). now rewrite <- app_assoc.
  - unfold resume; simpl.
    destruct b as [[[r|e]|]| r | e]; simpl in *.
    + exists tr, []. now split.
    + exists tr, []. now split.
    + rewrite first_settle_snoc, IH; reflexivity.
    + destruct IH as (tr1 & tr2 & -> & H).
      exists tr1, (tr2 ++ [Resume]). now rewrite <- app_assoc.
    + destruct IH as (tr1 & tr2 & -> & H).
      exists tr1, (tr2 ++ [Resume]). now rewrite <- app_assoc.
Qed.

Lemma finished_stable (tr : list event) :
  forall st : state,
    (forall r, body st = returned r -> body (run st tr) = returned r) /\
    (forall e, body st = threw e -> body (run st tr) = threw e).
Proof.
  induction tr as [|ev tr IH]; intros st; simpl; [now split|].
  split; intros x Hx; apply IH;
    destruct ev; simpl; unfold settle, resume; rewrite Hx; exact Hx.
Qed.

(** Once the promise is settled and the body resumed, the call is over. *)
Lemma settled_then_resumed (args : Args) (tr1 tr2 : list event) s :
  first_settle tr1 = Some s ->
  body (run (syncWait args) (tr1 ++ Resume :: tr2)) =
  match s with Fulfilled r => returned r | Rejected e => threw e end.
Proof.
  intros H.
  change (tr1 ++ Resume :: tr2) with (tr1 ++ [Resume] ++ tr2).
  rewrite app_assoc, run_app, run_snoc.
  pose proof (body_agrees_run args tr1) as A.
  destruct (run (syncWait args) tr1) as [b iss]; simpl in A.
  destruct b as [settled | r | e]; simpl in A.
  - rewrite H in A; subst settled.
    destruct s; apply finished_stable; reflexivity.
  - destruct A as (u1 & u2 & -> & A).
    rewrite (first_settle_app u1 _ A) in H. injection H as <-.
    apply finished_stable; reflexivity.
  - destruct A as (u1 & u2 & -> & A).
    rewrite (first_settle_app u1 _ A) in H. injection H as <-.
    apply finished_stable; reflexivity.
Qed.

(** C8.  Whatever the host does, [syncWait(...args)] has called the
    operation once with [args] and has set no signal handler; it returns
    [r] exactly when the operation's promise was fulfilled with [r] and the
    body resumed afterwards, and it throws [e] exactly when the promise was
    rejected with [e] and the body resumed afterwards: the result and the
    failure are the operation's own, and a failure is followed by no second
    call. *)
Theorem syncWait_result_is_the_operation_s (args : Args) (tr : list event) :
  issued (run (syncWait args) tr) = [Invoke args] /\
  (forall r,
      body (run (syncWait args) tr) = returned r <->
      exists tr1 tr2, tr = tr1 ++ Resume :: tr2 /\
                      first_settle tr1 = Some (Fulfilled r)) /\
  (forall e,
      body (run (syncWait args) tr) = threw e <->
      exists tr1 tr2, tr = tr1 ++ Resume :: tr2 /\
                      first_settle tr1 = Some (Rejected e)).
Proof.
  split; [apply issued_run|].
  pose proof (body_agrees_run args tr) as A.
  split; intros x; split.
  - intros H. rewrite H in A. exact A.
  - intros (tr1 & tr2 & -> & H).
    exact (settled_then_resumed args tr1 tr2 H).
  - intros H. rewrite H in A. exact A.
  - intros (tr1 & tr2 & -> & H).
    exact (settled_then_resumed args tr1 tr2 H).
Qed.

End Facts.

(** The operation fails with ["boom"]: the call throws ["boom"], and the
    log still holds the one call. *)
Lemma syncWait_result_is_the_operation_s_witness :
  body (run (syncWait (T:=nat) [1; 2])
          [Settle (Rejected "boom"%string); Resume]) = threw "boom"%string /\
  issued (run (syncWait (T:=nat) [1; 2])
          [Settle (Rejected "boom"%string); Resume]) = [Invoke [1; 2]].
Proof.
  pose proof (syncWait_result_is_the_operation_s (T:=nat) [1; 2]
                [Settle (Rejected "boom"%string); Resume]) as (Hi & _ & Ht).
  split; [|exact Hi].
  apply Ht. exists [Settle (Rejected "boom"%string)], []. split; reflexivity.
Defined.

End SyncWaitFacts.

(** ** (2) Start, then wait for the completion signal *)

Module WaitForDoneFacts.
Import WaitForDone.
Section Facts.

Context {T Args Final Err : Type}.
Variable doneSignalDef : SignalDefinition.

Local Notation state := (WaitForDone.state T Args Err).
Local Notation event := (WaitForDone.event T Final Err).

Lemma wfd_run_snoc (st : state) (tr : list event) ev :
  run st (tr ++ [ev]) = step (run st tr) ev.
Proof. unfold run. now rewrite fold_left_app. Qed.

Lemma wfd_run_app (st : state) (tr1 tr2 : list event) :
  run st (tr1 ++ tr2) = run (run st tr1) tr2.
Proof. unfold run. now rewrite fold_left_app. Qed.

Lemma wfd_first_settle_snoc (tr : list event) ev :
  first_settle (tr ++ [ev]) =
  match first_settle tr with
  | Some s => Some s
  | None => match ev with Settle s => Some s | _ => None end
  end.
Proof.
  induction tr as [|e tr IH]; simpl.
  - destruct ev; reflexivity.
  - destruct e; auto.
Qed.

Lemma wfd_first_settle_app (tr1 tr2 : list event) s :
  first_settle tr1 = Some s -> first_settle (tr1 ++ tr2) = Some s.
Proof.
  induction tr1 as [|e tr1 IH]; simpl; [discriminate|].
  destruct e; auto.
Qed.

Lemma signalled_app (tr1 tr2 : list event) :
  signalled (tr1 ++ tr2) = signalled tr1 || signalled tr2.
Proof. unfold signalled. apply existsb_app. Qed.

Lemma wfd_isDone_step (st : state) (ev : event) :
  isDone (step st ev) = isDone st || is_Done ev.
Proof.
  destruct ev; simpl.
  - now rewrite orb_true_r.
  - unfold settle. rewrite orb_false_r.
    destruct (body st) as [[?|]| | |]; reflexivity.
  - unfold resume, condition_isDone. rewrite orb_false_r.
    destruct (body st) as [[[?|?]|]| | |]; simpl; try reflexivity;
      destruct (isDone st) eqn:E; simpl; auto.
Qed.

Lemma wfd_isDone_run (tr : list event) :
  forall st : state, isDone (run st tr) = isDone st || signalled tr.
Proof.
  induction tr as [|ev tr IH]; intros st; simpl.
  - now rewrite orb_false_r.
  - rewrite IH, wfd_isDone_step. now rewrite orb_assoc.
Qed.

Lemma wfd_issued_step (st : state) (ev : event) :
  issued (step st ev) = issued st.
Proof.
  destruct ev; simpl; [reflexivity | |].
  - unfold settle. destruct (body st) as [[?|]| | |]; reflexivity.
  - unfold resume, condition_isDone.
    destruct (body st) as [[[?|?]|]| | |]; simpl; try reflexivity;
      destruct (isDone st); reflexivity.
Qed.

Lemma wfd_issued_run (tr : list event) :
  forall st : state, issued (run st tr) = issued st.
Proof.
  induction tr as [|ev tr IH]; intros st; simpl; [reflexivity|].
  now rewrite IH, wfd_issued_step.
Qed.

(** A delivery of the completion signal to an invocation that has seen one
    already changes nothing. *)
Lemma on_done_again (st : state) (p : Final) :
  isDone st = true -> step st (Done p) = st.
Proof. destruct st as [d b i]; simpl. intros ->. reflexivity. Qed.

Lemma wfd_flips_bound (tr : list event) :
  forall st : state, flips st tr <= (if isDone st then 0 else 1).
Proof.
  induction tr as [|ev tr IH]; intros st; simpl.
  - destruct (isDone st); lia.
  - specialize (IH (step st ev)).
    rewrite wfd_isDone_step in *.
    destruct (isDone st), (is_Done ev); simpl in *; lia.
Qed.

(** The payloads of the completion signal do not matter to a run. *)
Lemma payload_irrelevant (tr tr' : list event) :
  Forall2 same_but_payload tr tr' ->
  forall st : state, run st tr = run st tr'.
Proof.
  induction 1 as [|e e' tr tr' He _ IH]; intros st; simpl; [reflexivity|].
  destruct e, e'; simpl in He; try contradiction; subst; apply IH.
Qed.

Lemma wfd_finished_stable (tr : list event) :
  forall st : state,
    (forall r, body st = returned r -> body (run st tr) = returned r) /\
    (forall e, body st = threw e -> body (run st tr) = threw e).
Proof.
  induction tr as [|ev tr IH]; intros st; simpl; [now split|].
  split; intros x Hx; apply IH;
    destruct ev; simpl; try exact Hx;
    unfold settle, resume; rewrite Hx; exact Hx.
Qed.

(** What the program counter says about the trace that led to it. *)
Lemma wfd_body_agrees (args : Args) (tr : list event) :
  match body (run (waitForDone doneSignalDef args) tr) with
  | await_startActivity settled => first_settle tr = settled
  | await_condition r => first_settle tr = Some (Fulfilled r)
  | returned r =>
      exists tr1 tr2, tr = tr1 ++ Resume :: tr2 /\
                      first_settle tr1 = Some (Fulfilled r) /\
                      signalled tr1 = true
  | threw e =>
      exists tr1 tr2, tr = tr1 ++ Resume :: tr2 /\
                      first_settle tr1 = Some (Rejected e)
  end.
Proof.
  induction tr as [|ev tr IH] using rev_ind; [reflexivity|].
  rewrite wfd_run_snoc.
  pose proof (wfd_isDone_run tr (waitForDone doneSignalDef args)) as D.
  simpl in D.
  destruct (run (waitForDone doneSignalDef args) tr) as [d b iss];
    simpl in *.
  assert (forall (P : list event -> Prop) x,
            (exists tr1 tr2, tr = tr1 ++ Resume :: tr2 /\ P tr1) ->
            exists tr1 tr2, tr ++ [x] = tr1 ++ Resume :: tr2 /\ P tr1) as K.
  { intros P x (tr1 & tr2 & -> & H).
    exists tr1, (tr2 ++ [x]). now rewrite <- app_assoc. }
  destruct ev as [p | s |]; simpl.
  - destruct b as [[s'|]| r | r | e]; simpl in *;
      try (rewrite wfd_first_settle_snoc, IH; reflexivity).
    + exact (K (fun t => first_settle t = Some (Fulfilled r) /\
                         signalled t = true) _ IH).
    + exact (K (fun t => first_settle t = Some (Rejected e)) _ IH).
  - unfold settle; simpl.
    destruct b as [[s'|]| r | r | e]; simpl in *;
      try (rewrite wfd_first_settle_snoc, IH; reflexivity).
    + exact (K (fun t => first_settle t = Some (Fulfilled r) /\
                         signalled t = true) _ IH).
    + exact (K (fun t => first_settle t = Some (Rejected e)) _ IH).
  - unfold resume, condition_isDone; simpl.
    destruct b as [[[r|e]|]| r | r | e]; simpl in *.
    + destruct d; simpl.
      * exists tr, []. now repeat split.
      * rewrite wfd_first_settle_snoc, IH; reflexivity.
    + exists tr, []. now split.
    + rewrite wfd_first_settle_snoc, IH; reflexivity.
    + destruct d; simpl.
      * exists tr, []. now repeat split.
      * rewrite wfd_first_settle_snoc, IH; reflexivity.
    + exact (K (fun t => first_settle t = Some (Fulfilled r) /\
                         signalled t = true) _ IH).
    + exact (K (fun t => first_settle t = Some (Rejected e)) _ IH).
Qed.

(** Once the activity has resolved and the signal has been delivered, in
    either order, the next [Resume] ends the call. *)
Lemma both_then_resumed (args : Args) (tr1 tr2 : list event) r :
  first_settle tr1 = Some (Fulfilled r) ->
  signalled tr1 = true ->
  body (run (waitForDone doneSignalDef args) (tr1 ++ Resume :: tr2)) =
  returned r.
Proof.
  intros H S.
  change (tr1 ++ Resume :: tr2) with (tr1 ++ [Resume] ++ tr2).
  rewrite app_assoc, wfd_run_app, wfd_run_snoc.
  pose proof (wfd_body_agrees args tr1) as A.
  pose proof (wfd_isDone_run tr1 (waitForDone doneSignalDef args)) as D.
  rewrite S in D. simpl in D.
  destruct (run (waitForDone doneSignalDef args) tr1) as [d b iss];
    simpl in *. subst d.
  apply wfd_finished_stable.
  destruct b as [settled | r' | r' | e]; simpl in *.
  - rewrite H in A; subst settled. reflexivity.
  - rewrite H in A. injection A as <-. reflexivity.
  - destruct A as (u1 & u2 & -> & A & _).
    rewrite (wfd_first_settle_app u1 _ A) in H. injection H as <-.
    reflexivity.
  - destruct A as (u1 & u2 & -> & A).
    rewrite (wfd_first_settle_app u1 _ A) in H. discriminate.
Qed.

Lemma returned_iff (args : Args) (tr : list event) (r : T) :
  body (run (waitForDone doneSignalDef args) tr) = returned r <->
  exists tr1 tr2, tr = tr1 ++ Resume :: tr2 /\
                  first_settle tr1 = Some (Fulfilled r) /\
                  signalled tr1 = true.
Proof.
  split.
  - intros H. pose proof (wfd_body_agrees args tr) as A.
    rewrite H in A. exact A.
  - intros (tr1 & tr2 & -> & H & S). now apply both_then_resumed.
Qed.

Lemma same_but_payload_trace (tr tr' : list event) :
  Forall2 same_but_payload tr tr' ->
  first_settle tr' = first_settle tr /\ signalled tr' = signalled tr.
Proof.
  induction 1 as [|e e' tr tr' He _ [IH1 IH2]]; simpl; [now split|].
  destruct e, e'; simpl in He; try contradiction; subst; simpl; auto.
Qed.

(** C1.  Take any order of events in which the start activity resolves to
    [result] and the completion signal is delivered, and replace the
    payloads of the completion signal by any others: the run is the same
    state by state, the call returns [result] at the next [Resume], and no
    value other than [result] is ever returned. *)
Theorem waitForDone_returns_the_activity_result
    (args : Args) (tr tr' : list event) (result : T) :
  first_settle tr = Some (Fulfilled result) ->
  signalled tr = true ->
  Forall2 same_but_payload tr tr' ->
  run (waitForDone doneSignalDef args) tr' =
  run (waitForDone doneSignalDef args) tr /\
  body (run (waitForDone doneSignalDef args) (tr' ++ [Resume])) =
  returned result /\
  (forall tr2 v,
      body (run (waitForDone doneSignalDef args) (tr' ++ tr2)) = returned v ->
      v = result).
Proof.
  intros H S P.
  destruct (same_but_payload_trace P) as [H' S'].
  rewrite H in H'. rewrite S in S'.
  split; [symmetry; now apply payload_irrelevant|].
  split; [now apply both_then_resumed|].
  intros tr2 v R. apply returned_iff in R.
  destruct R as (u1 & u2 & E & A & _).
  pose proof (wfd_first_settle_app u1 (Resume :: u2) A) as B.
  rewrite <- E in B.
  rewrite (wfd_first_settle_app tr' tr2 H') in B.
  now injection B.
Qed.

(** C6.  In every state the host can bring a call to, the call has set the
    handler of the completion signal and then called the start activity,
    once; it has returned [r] exactly when, before some [Resume], the
    activity resolved to [r] and the completion signal was delivered, in
    whichever order; in particular a signal delivered while the activity is
    still running is not lost. *)
Theorem waitForDone_waits_for_both (args : Args) (tr : list event) :
  issued (run (waitForDone doneSignalDef args) tr) =
  [SetHandler doneSignalDef; Invoke args] /\
  (forall r,
      body (run (waitForDone doneSignalDef args) tr) = returned r <->
      exists tr1 tr2, tr = tr1 ++ Resume :: tr2 /\
                      first_settle tr1 = Some (Fulfilled r) /\
                      signalled tr1 = true) /\
  (forall (p : Final) (r : T),
      body (run (waitForDone doneSignalDef args)
              ([Done p; Settle (Fulfilled r); Resume] : list event)) =
      returned r /\
      body (run (waitForDone doneSignalDef args)
              ([Settle (Fulfilled r); Resume; Done p; Resume] : list event)) =
      returned r /\
      body (run (waitForDone doneSignalDef args)
              ([Settle (Fulfilled r); Resume] : list event)) =
      await_condition r /\
      body (run (waitForDone doneSignalDef args)
              ([Done p; Resume] : list event)) =
      await_startActivity None).
Proof.
  split; [apply wfd_issued_run|].
  split; [intros r; apply returned_iff|].
  intros p r. repeat split.
Qed.

End Facts.

(** The activity resolves to ["job-42"]; the completion signal carries 1
    in one run and 99 in the other. *)
Lemma waitForDone_returns_the_activity_result_witness :
  body (run (waitForDone (Args:=list nat) (Err:=string) "done"%string [7])
          ([Done 99; Settle (Fulfilled "job-42"%string)] ++ [Resume])) =
  returned "job-42"%string.
Proof.
  refine (proj1 (proj2
    (@waitForDone_returns_the_activity_result
       string (list nat) nat string "done"%string [7]
       [Done 1; Settle (Fulfilled "job-42"%string)]
       [Done 99; Settle (Fulfilled "job-42"%string)]
       "job-42"%string _ _ _))).
  - reflexivity.
  - reflexivity.
  - repeat constructor.
Defined.

Lemma waitForDone_waits_for_both_witness :
  body (run (waitForDone (Args:=list nat) (Err:=string) "done"%string [7])
          [Done 5; Resume; Settle (Fulfilled "job-42"%string); Resume]) =
  returned "job-42"%string.
Proof.
  apply (proj1 (proj2
    (@waitForDone_waits_for_both string (list nat) nat string
       "done"%string [7]
       [Done 5; Resume; Settle (Fulfilled "job-42"%string); Resume]))).
  exists [Done 5; Resume; Settle (Fulfilled "job-42"%string)], [].
  repeat split.
Defined.

End WaitForDoneFacts.

(** ** (3) The submission loop *)

Module IterativeLoopFacts.
Import IterativeLoop.
Section Facts.

Context {Args Submission Final W : Type}.
Variables submissionSignalDef finishSignalDef : SignalDefinition.
Variable onSubmission : option (Submission -> W -> W).

Local Notation state := (IterativeLoop.state Args Submission W).
Local Notation event := (IterativeLoop.event Submission Final).
Local Notation step := (IterativeLoop.step (Final:=Final) onSubmission).
Local Notation run := (IterativeLoop.run (Final:=Final) onSubmission).
Local Notation iterativeLoop :=
  (IterativeLoop.iterativeLoop (Args:=Args)
     submissionSignalDef finishSignalDef).

Lemma il_run_snoc (st : state) (tr : list event) ev :
  run st (tr ++ [ev]) = step (run st tr) ev.
Proof. unfold IterativeLoop.run. now rewrite fold_left_app. Qed.

Lemma il_run_app (st : state) (tr1 tr2 : list event) :
  run st (tr1 ++ tr2) = run (run st tr1) tr2.
Proof. unfold IterativeLoop.run. now rewrite fold_left_app. Qed.

Lemma finished_app (tr1 tr2 : list event) :
  finished (tr1 ++ tr2) = finished tr1 || finished tr2.
Proof. unfold finished. apply existsb_app. Qed.

Lemma submissions_app (tr1 tr2 : list event) :
  submissions (tr1 ++ tr2) = submissions tr1 ++ submissions tr2.
Proof.
  induction tr1 as [|e tr1 IH]; simpl; [reflexivity|].
  destruct e; simpl; now rewrite ?IH.
Qed.

Lemma submissions_deliveries (tr : list event) :
  submissions (deliveries tr) = submissions tr.
Proof.
  induction tr as [|e tr IH]; simpl; [reflexivity|].
  destruct e; simpl; now rewrite ?IH.
Qed.

Lemma finished_deliveries (tr : list event) :
  finished (deliveries tr) = finished tr.
Proof.
  induction tr as [|e tr IH]; simpl; [reflexivity|].
  destruct e; simpl; auto.
Qed.

Lemma submissions_map_Submit (subs : list Submission) :
  submissions (map (Submit (Final:=Final)) subs) = subs.
Proof. induction subs as [|s subs IH]; simpl; now rewrite ?IH. Qed.

(** What [resume] does, case by case. *)
Lemma resume_cases (st : state) :
  resume st =
  match body st with
  | returned => st
  | await_condition =>
      if isDone st then with_body returned st
      else match lastSubmission st with
           | Some _ => with_body await_condition (consume st)
           | None => st
           end
  end.
Proof.
  unfold resume, wake_predicate, loop_head.
  destruct (body st); [|reflexivity].
  destruct (lastSubmission st), (isDone st) eqn:E; simpl;
    rewrite ?E; reflexivity.
Qed.

(** After line 172 the predicate of line 168 is false: the body parks
    there again, as [loop_head] has it. *)
Lemma consume_parks (st : state) :
  isDone st = false -> wake_predicate (consume st) = false.
Proof. unfold wake_predicate. simpl. now intros ->. Qed.

(** The handlers never make the predicate of line 168 false: what the host
    saw when it woke the body still holds when the body runs. *)
Lemma handlers_keep_wake_predicate (st : state) (ev : event) :
  ev <> Resume ->
  wake_predicate st = true -> wake_predicate (step st ev) = true.
Proof.
  unfold wake_predicate. intros N H.
  destruct ev; simpl; [apply orb_true_r | reflexivity | contradiction].
Qed.

Lemma il_isDone_step (st : state) (ev : event) :
  isDone (step st ev) = isDone st || is_Finish ev.
Proof.
  destruct ev; simpl.
  - now rewrite orb_true_r.
  - now rewrite orb_false_r.
  - rewrite resume_cases, orb_false_r.
    destruct (body st); [|reflexivity].
    destruct (isDone st) eqn:E; simpl; [exact E|].
    destruct (lastSubmission st); simpl; exact E.
Qed.

Lemma il_isDone_run (tr : list event) :
  forall st : state, isDone (run st tr) = isDone st || finished tr.
Proof.
  induction tr as [|ev tr IH]; intros st; simpl.
  - now rewrite orb_false_r.
  - rewrite IH, il_isDone_step. now rewrite orb_assoc.
Qed.

Lemma il_effects_resume (st : state) :
  calls (resume st) = calls st /\ world (resume st) = world st /\
  issued (resume st) = issued st.
Proof.
  rewrite resume_cases.
  destruct (body st); [|now repeat split].
  destruct (isDone st); [now repeat split|].
  destruct (lastSubmission st); now repeat split.
Qed.

(** The callback is called in the handler, once for every delivery. *)
Lemma il_calls_run (tr : list event) :
  forall st : state,
    calls (run st tr) =
    calls st ++ match onSubmission with
                | Some _ => submissions tr
                | None => []
                end.
Proof.
  induction tr as [|ev tr IH]; intros st; simpl.
  - destruct onSubmission; now rewrite app_nil_r.
  - rewrite IH. destruct ev; simpl; try reflexivity.
    + unfold record_optional. destruct onSubmission; [|reflexivity].
      now rewrite <- app_assoc.
    + now rewrite (proj1 (il_effects_resume st)).
Qed.

Lemma il_world_run (tr : list event) :
  forall st : state,
    world (run st tr) =
    fold_left (fun w sub => call_optional onSubmission sub w)
      (submissions tr) (world st).
Proof.
  induction tr as [|ev tr IH]; intros st; simpl; [reflexivity|].
  rewrite IH. destruct ev; simpl; try reflexivity.
  now rewrite (proj1 (proj2 (il_effects_resume st))).
Qed.

Lemma il_issued_run (tr : list event) :
  forall st : state, issued (run st tr) = issued st.
Proof.
  induction tr as [|ev tr IH]; intros st; simpl; [reflexivity|].
  rewrite IH. destruct ev; simpl; try reflexivity.
  now rewrite (proj2 (proj2 (il_effects_resume st))).
Qed.

Lemma il_returned_stable (tr : list event) :
  forall st : state, body st = returned -> body (run st tr) = returned.
Proof.
  induction tr as [|ev tr IH]; intros st H; simpl; [exact H|].
  apply IH. destruct ev; simpl; try exact H.
  rewrite resume_cases, H. exact H.
Qed.

(** The loop has returned only if a [Resume] came after a finish signal. *)
Lemma il_body_agrees (w : W) (args : Args) (tr : list event) :
  match body (run (iterativeLoop w args) tr) with
  | await_condition => True
  | returned =>
      exists tr1 tr2, tr = tr1 ++ Resume :: tr2 /\ finished tr1 = true
  end.
Proof.
  induction tr as [|ev tr IH] using rev_ind; [exact I|].
  rewrite il_run_snoc.
  pose proof (il_isDone_run tr (iterativeLoop w args)) as D.
  simpl in D.
  destruct (body (step (run (iterativeLoop w args) tr) ev)) eqn:B;
    [exact I|].
  destruct (body (run (iterativeLoop w args) tr)) eqn:B0.
  - destruct ev; simpl in B; try congruence.
    rewrite resume_cases, B0 in B.
    destruct (isDone (run (iterativeLoop w args) tr)) eqn:E.
    + exists tr, []. split; [reflexivity | now rewrite <- D].
    + destruct (lastSubmission (run (iterativeLoop w args) tr));
        simpl in B; congruence.
  - destruct IH as (tr1 & tr2 & -> & F).
    exists tr1, (tr2 ++ [ev]). now rewrite <- app_assoc.
Qed.

Lemma not_finished_pending (w : W) (args : Args) (tr : list event) :
  finished tr = false ->
  body (run (iterativeLoop w args) tr) = await_condition.
Proof.
  intros F. pose proof (il_body_agrees w args tr) as A.
  destruct (body (run (iterativeLoop w args) tr)); [reflexivity|].
  destruct A as (tr1 & tr2 & -> & A).
  rewrite finished_app, A in F. discriminate.
Qed.

Lemma finished_then_resumed (w : W) (args : Args) (tr1 tr2 : list event) :
  finished tr1 = true ->
  body (run (iterativeLoop w args) (tr1 ++ Resume :: tr2)) = returned.
Proof.
  intros F.
  change (tr1 ++ Resume :: tr2) with (tr1 ++ [Resume] ++ tr2).
  rewrite app_assoc, il_run_app, il_run_snoc.
  apply il_returned_stable. simpl. rewrite resume_cases.
  rewrite il_isDone_run, F, orb_true_r.
  destruct (body (run (iterativeLoop w args) tr1)) eqn:B; [reflexivity|].
  exact B.
Qed.

(** Where the content of [lastSubmission] comes from. *)
Lemma slot_origin (tr : list event) :
  forall st : state,
    lastSubmission (run st tr) = None \/
    lastSubmission (run st tr) = lastSubmission st \/
    exists sub, In sub (submissions tr) /\
                lastSubmission (run st tr) = Some sub.
Proof.
  induction tr as [|ev tr IH]; intros st; simpl; [now right; left|].
  destruct (IH (step st ev)) as [H | [H | (sub & Hin & H)]].
  - now left.
  - rewrite H. destruct ev; simpl.
    + now right; left.
    + right; right. exists sub. split; [now left | reflexivity].
    + rewrite resume_cases.
      destruct (body st); [|now right; left].
      destruct (isDone st); [now right; left|].
      destruct (lastSubmission st) eqn:L; simpl; [now left|].
      right; left. now rewrite L.
  - right; right. exists sub. split; [|exact H].
    destruct ev; simpl; auto.
Qed.

End Facts.

Section Claims.

Context {Args Submission Final W : Type}.
Variables submissionSignalDef finishSignalDef : SignalDefinition.
Variable cb : Submission -> W -> W.

Local Notation state := (IterativeLoop.state Args Submission W).
Local Notation event := (IterativeLoop.event Submission Final).
Local Notation run := (IterativeLoop.run (Final:=Final) (Some cb)).
Local Notation iterativeLoop :=
  (IterativeLoop.iterativeLoop (Args:=Args)
     submissionSignalDef finishSignalDef).

(** C3.  The host delivers the submissions [subs] and then a finish
    signal, and resumes the body whenever it likes in between and once
    afterwards.  Then [onSubmission] has been called with the elements of
    [subs], once each and in that order (the world is the result of these
    calls), the loop has returned, and it had not returned at any earlier
    point at which the finish signal was not yet delivered.  [subs] may be
    empty. *)
Theorem iterativeLoop_submissions_then_finish
    (w : W) (args : Args) (tr : list event)
    (subs : list Submission) (f : Final) :
  deliveries tr = map Submit subs ++ [Finish f] ->
  calls (run (iterativeLoop w args) (tr ++ [Resume])) = subs /\
  world (run (iterativeLoop w args) (tr ++ [Resume])) =
    fold_left (fun w' sub => cb sub w') subs w /\
  body (run (iterativeLoop w args) (tr ++ [Resume])) = returned /\
  (forall tr1 tr2,
      tr ++ [Resume] = tr1 ++ tr2 ->
      finished tr1 = false ->
      body (run (iterativeLoop w args) tr1) = await_condition).
Proof.
  intros D.
  assert (submissions tr = subs) as S.
  { rewrite <- submissions_deliveries, D, submissions_app,
      submissions_map_Submit. simpl. apply app_nil_r. }
  assert (finished tr = true) as F.
  { rewrite <- finished_deliveries, D, finished_app. simpl.
    apply orb_true_r. }
  repeat split.
  - rewrite il_calls_run, submissions_app, S. simpl. now rewrite app_nil_r.
  - rewrite il_world_run, submissions_app, S. simpl. now rewrite app_nil_r.
  - now apply finished_then_resumed.
  - intros tr1 tr2 _ F1. now apply not_finished_pending.
Qed.

(** C4.  Two submissions are delivered with no [Resume] between them.
    [onSubmission] is called for both, in the handler, while the body
    stays where it is; the variable [lastSubmission] holds the second one
    when the body next runs.  If the body is waiting and the loop is not
    finished, that one [Resume] clears the variable and parks the body
    again.  Whatever follows, the variable is empty, holds the second
    submission or holds a later one: the first is not seen again unless it
    is delivered again. *)
Theorem second_submission_overwrites_the_first
    (st : state) (s1 s2 : Submission) :
  calls (run st [Submit s1; Submit s2]) = calls st ++ [s1; s2] /\
  world (run st [Submit s1; Submit s2]) = cb s2 (cb s1 (world st)) /\
  body (run st [Submit s1; Submit s2]) = body st /\
  lastSubmission (run st [Submit s1; Submit s2]) = Some s2 /\
  (isDone st = false -> body st = await_condition ->
   lastSubmission (run st [Submit s1; Submit s2; Resume]) = None /\
   body (run st [Submit s1; Submit s2; Resume]) = await_condition /\
   calls (run st [Submit s1; Submit s2; Resume]) = calls st ++ [s1; s2]) /\
  (forall tr,
      lastSubmission (run st ([Submit s1; Submit s2] ++ tr)) = None \/
      lastSubmission (run st ([Submit s1; Submit s2] ++ tr)) = Some s2 \/
      exists sub, In sub (submissions tr) /\
        lastSubmission (run st ([Submit s1; Submit s2] ++ tr)) = Some sub).
Proof.
  split; [simpl; now rewrite <- app_assoc|].
  split; [reflexivity|].
  split; [reflexivity|].
  split; [reflexivity|].
  split.
  - intros D B. simpl. rewrite resume_cases. simpl. rewrite D, B. simpl.
    repeat split. now rewrite <- app_assoc.
  - intros tr. rewrite il_run_app.
    destruct (slot_origin (Some cb) tr (run st [Submit s1; Submit s2]))
      as [H | [H | H]]; auto.
Qed.

End Claims.

(** Three submissions and a finish signal; the body is resumed once in the
    middle.  The callback appends its argument to a list. *)
Lemma iterativeLoop_submissions_then_finish_witness :
  calls (run (Some (fun (sub : nat) (w : list nat) => w ++ [sub]))
           (iterativeLoop (Args:=list nat) "condition"%string
              "finish"%string [] [])
           ([Submit 1; Resume; Submit 2; Submit 3; Finish "ok"%string]
              ++ [Resume])) = [1; 2; 3].
Proof.
  apply (@iterativeLoop_submissions_then_finish
           (list nat) nat string (list nat)
           "condition"%string "finish"%string
           (fun sub w => w ++ [sub]) [] []
           [Submit 1; Resume; Submit 2; Submit 3; Finish "ok"%string]
           [1; 2; 3] "ok"%string).
  reflexivity.
Defined.

Lemma second_submission_overwrites_the_first_witness :
  lastSubmission
    (run (Final:=string) (Some (fun (sub : nat) (w : list nat) => w ++ [sub]))
       (iterativeLoop (Args:=list nat) "condition"%string
          "finish"%string [] [])
       [Submit 1; Submit 2; Resume]) = None.
Proof.
  apply (@second_submission_overwrites_the_first
           (list nat) nat string (list nat) (fun sub w => w ++ [sub])
           (iterativeLoop "condition"%string "finish"%string [] []) 1 2);
    reflexivity.
Defined.

End IterativeLoopFacts.

(** ** (6) Progress reports and a final result *)

Module ProgressRequestFacts.
Import ProgressRequest.
Section Facts.

Context {AResult AArgs Progress Final Err W : Type}.
Variables updateSignalDef completeSignalDef : SignalDefinition.
Variable onStarted : option (AResult -> W -> W).
Variable onProgress : option (Progress -> W -> W).

Local Notation state :=
  (ProgressRequest.state AResult AArgs Progress Final Err W).
Local Notation event := (ProgressRequest.event AResult Progress Final Err).
Local Notation step := (ProgressRequest.step onStarted onProgress).
Local Notation run := (ProgressRequest.run onStarted onProgress).
Local Notation resume :=
  (ProgressRequest.resume (AArgs:=AArgs) (Progress:=Progress)
     (Final:=Final) (Err:=Err) onStarted).
Local Notation progressRequest :=
  (ProgressRequest.progressRequest (AResult:=AResult) (Progress:=Progress)
     (Final:=Final) (Err:=Err) updateSignalDef completeSignalDef).

Lemma pr_run_snoc (st : state) (tr : list event) ev :
  run st (tr ++ [ev]) = step (run st tr) ev.
Proof. unfold ProgressRequest.run. now rewrite fold_left_app. Qed.

Lemma pr_run_app (st : state) (tr1 tr2 : list event) :
  run st (tr1 ++ tr2) = run (run st tr1) tr2.
Proof. unfold ProgressRequest.run. now rewrite fold_left_app. Qed.

Lemma pr_first_settle_snoc (tr : list event) ev :
  first_settle (tr ++ [ev]) =
  match first_settle tr with
  | Some s => Some s
  | None => match ev with Settle s => Some s | _ => None end
  end.
Proof.
  induction tr as [|e tr IH]; simpl.
  - destruct ev; reflexivity.
  - destruct e; auto.
Qed.

Lemma pr_first_settle_app (tr1 tr2 : list event) s :
  first_settle tr1 = Some s -> first_settle (tr1 ++ tr2) = Some s.
Proof.
  induction tr1 as [|e tr1 IH]; simpl; [discriminate|].
  destruct e; auto.
Qed.

Lemma first_complete_app (tr1 tr2 : list event) f :
  first_complete tr1 = Some f -> first_complete (tr1 ++ tr2) = Some f.
Proof.
  induction tr1 as [|e tr1 IH]; simpl; [discriminate|].
  destruct e; auto.
Qed.

Lemma first_complete_deliveries (tr : list event) :
  first_complete (deliveries tr) = first_complete tr.
Proof.
  induction tr as [|e tr IH]; simpl; [reflexivity|].
  destruct e; simpl; auto.
Qed.

Lemma updates_deliveries (tr : list event) :
  updates_before_complete (deliveries tr) = updates_before_complete tr.
Proof.
  induction tr as [|e tr IH]; simpl; [reflexivity|].
  destruct e; simpl; now rewrite ?IH.
Qed.

Lemma updates_map_Update (ps : list Progress) (rest : list event) :
  updates_before_complete (map Update ps ++ rest) =
  ps ++ updates_before_complete rest.
Proof. induction ps as [|p ps IH]; simpl; now rewrite ?IH. Qed.

Lemma first_complete_map_Update (ps : list Progress) (rest : list event) :
  first_complete (map Update ps ++ rest) = first_complete rest.
Proof. induction ps as [|p ps IH]; simpl; auto. Qed.

Lemma progress_calls_app (cs1 cs2 : list (call AResult Progress)) :
  progress_calls (cs1 ++ cs2) = progress_calls cs1 ++ progress_calls cs2.
Proof.
  induction cs1 as [|c cs1 IH]; simpl; [reflexivity|].
  destruct c; simpl; now rewrite IH.
Qed.

Lemma started_calls_app (cs1 cs2 : list (call AResult Progress)) :
  started_calls (cs1 ++ cs2) = started_calls cs1 ++ started_calls cs2.
Proof.
  induction cs1 as [|c cs1 IH]; simpl; [reflexivity|].
  destruct c; simpl; now rewrite IH.
Qed.

(** What [resume] leaves alone. *)
Lemma resume_keeps (st : state) :
  isDone (resume st) = isDone st /\
  finalData (resume st) = finalData st /\
  issued (resume st) = issued st /\
  progress_calls (calls (resume st)) = progress_calls (calls st).
Proof.
  unfold ProgressRequest.resume, condition_isDone, started.
  destruct (body st) as [[[a|e]|]| | |]; simpl; try now repeat split.
  - destruct (isDone st) eqn:E; simpl; repeat split; auto;
      unfold record_optional; destruct onStarted; auto;
      rewrite progress_calls_app; simpl; apply app_nil_r.
  - destruct (isDone st) eqn:E; simpl; repeat split; auto.
Qed.

Lemma settle_keeps (s : settlement AResult Err) (st : state) :
  isDone (settle s st) = isDone st /\
  finalData (settle s st) = finalData st /\
  issued (settle s st) = issued st /\
  calls (settle s st) = calls st /\
  world (settle s st) = world st.
Proof.
  unfold settle. destruct (body st) as [[?|]| | |]; now repeat split.
Qed.

(** A second completion signal, and a progress signal after completion,
    leave the state as it is. *)
Lemma on_complete_again (st : state) (f : Final) :
  isDone st = true -> step st (Complete f) = st.
Proof. simpl. unfold on_complete. now intros ->. Qed.

Lemma on_update_after_completion (st : state) (p : Progress) :
  isDone st = true -> step st (Update p) = st.
Proof. simpl. unfold on_update. now intros ->. Qed.

Lemma pr_isDone_step (st : state) (ev : event) :
  isDone (step st ev) =
  isDone st || match ev with Complete _ => true | _ => false end.
Proof.
  destruct ev; simpl.
  - unfold on_update. rewrite orb_false_r.
    destruct (isDone st) eqn:E; simpl; auto.
  - unfold on_complete. rewrite orb_true_r.
    destruct (isDone st) eqn:E; simpl; auto.
  - rewrite orb_false_r. apply settle_keeps.
  - rewrite orb_false_r. apply resume_keeps.
Qed.

Lemma pr_isDone_monotone (tr : list event) :
  forall st : state, isDone st = true -> isDone (run st tr) = true.
Proof.
  induction tr as [|ev tr IH]; intros st H; simpl; [exact H|].
  apply IH. rewrite pr_isDone_step, H. reflexivity.
Qed.

Lemma pr_flips_bound (tr : list event) :
  forall st : state,
    flips onStarted onProgress st tr <= (if isDone st then 0 else 1).
Proof.
  induction tr as [|ev tr IH]; intros st; simpl.
  - destruct (isDone st); lia.
  - specialize (IH (step st ev)).
    rewrite pr_isDone_step in *.
    destruct (isDone st), ev; simpl in *; lia.
Qed.

(** The invariant behind the [!] of line 272: [isDone] and [finalData]
    are written together, by the first completion signal. *)
Lemma pr_final_run (tr : list event) :
  forall st : state,
    isDone (run st tr) =
      isDone st || match first_complete tr with
                   | Some _ => true | None => false end /\
    finalData (run st tr) =
      if isDone st then finalData st
      else match first_complete tr with
           | Some f => Some f
           | None => finalData st
           end.
Proof.
  induction tr as [|ev tr IH]; intros st; simpl.
  - rewrite orb_false_r. split; [reflexivity | now destruct (isDone st)].
  - destruct (IH (step st ev)) as [IH1 IH2]. rewrite IH1, IH2. clear IH.
    destruct ev; simpl.
    + unfold on_update. destruct (isDone st) eqn:E; simpl; rewrite ?E; auto.
    + unfold on_complete. destruct (isDone st) eqn:E; simpl; rewrite ?E; auto.
    + destruct (settle_keeps s st) as (-> & -> & _). auto.
    + destruct (resume_keeps st) as (-> & -> & _). auto.
Qed.

Lemma pr_issued_run (tr : list event) :
  forall st : state, issued (run st tr) = issued st.
Proof.
  induction tr as [|ev tr IH]; intros st; simpl; [reflexivity|].
  rewrite IH. destruct ev; simpl.
  - unfold on_update. now destruct (isDone st).
  - unfold on_complete. now destruct (isDone st).
  - apply settle_keeps.
  - apply resume_keeps.
Qed.

(** [onProgress] is called for the progress signals delivered before the
    completion flag is set, and for no other. *)
Lemma pr_progress_calls_run (tr : list event) :
  forall st : state,
    progress_calls (calls (run st tr)) =
    progress_calls (calls st) ++
    (if isDone st then []
     else match onProgress with
          | Some _ => updates_before_complete tr
          | None => []
          end).
Proof.
  induction tr as [|ev tr IH]; intros st; simpl.
  - destruct (isDone st), onProgress; now rewrite app_nil_r.
  - rewrite IH. clear IH. destruct ev; simpl.
    + unfold on_update. destruct (isDone st) eqn:E; simpl; rewrite ?E; auto.
      unfold record_optional. destruct onProgress; [|reflexivity].
      rewrite progress_calls_app. simpl. now rewrite <- app_assoc.
    + unfold on_complete. destruct (isDone st) eqn:E; simpl; rewrite ?E; auto.
      now destruct onProgress.
    + destruct (settle_keeps s st) as (-> & _ & _ & -> & _). reflexivity.
    + destruct (resume_keeps st) as (-> & _ & _ & ->). reflexivity.
Qed.

(** The world is what the recorded calls make of the initial world. *)
Lemma pr_world_step (w0 : W) (st : state) (ev : event) :
  world st = fold_left (replay onStarted onProgress) (calls st) w0 ->
  world (step st ev) =
  fold_left (replay onStarted onProgress) (calls (step st ev)) w0.
Proof.
  intros H. destruct ev; simpl.
  - unfold on_update. destruct (isDone st); simpl; [exact H|].
    unfold record_optional, call_optional in *.
    destruct onProgress; [|exact H].
    rewrite fold_left_app. simpl. now rewrite <- H.
  - unfold on_complete. destruct (isDone st); simpl; exact H.
  - destruct (settle_keeps s st) as (_ & _ & _ & -> & ->). exact H.
  - unfold ProgressRequest.resume, condition_isDone, started.
    destruct (body st) as [[[a|e]|]| | |]; simpl; try exact H.
    + assert (call_optional onStarted a (world st) =
              fold_left (replay onStarted onProgress)
                (record_optional onStarted (OnStarted a) (calls st)) w0) as K.
      { unfold record_optional, call_optional in *.
        destruct onStarted; [|exact H].
        rewrite fold_left_app. simpl. now rewrite <- H. }
      destruct (isDone st); simpl; exact K.
    + destruct (isDone st); simpl; exact H.
Qed.

Lemma pr_world_run (w0 : W) (tr : list event) :
  forall st : state,
    world st = fold_left (replay onStarted onProgress) (calls st) w0 ->
    world (run st tr) =
    fold_left (replay onStarted onProgress) (calls (run st tr)) w0.
Proof.
  induction tr as [|ev tr IH]; intros st H; simpl; [exact H|].
  apply IH. now apply pr_world_step.
Qed.

Lemma pr_finished_stable (tr : list event) :
  forall st : state,
    (forall v, body st = returned v -> body (run st tr) = returned v) /\
    (forall e, body st = threw e -> body (run st tr) = threw e).
Proof.
  induction tr as [|ev tr IH]; intros st; simpl; [now split|].
  split; intros x Hx; apply IH; destruct ev; simpl;
    unfold on_update, on_complete, settle, ProgressRequest.resume;
    try (destruct (isDone st); simpl; exact Hx);
    rewrite Hx; exact Hx.
Qed.

(** [isDone] and [finalData] of a call, read off the trace. *)
Lemma pr_final_of_call (w : W) (args : AArgs) (tr : list event) :
  isDone (run (progressRequest w args) tr) =
    match first_complete tr with Some _ => true | None => false end /\
  finalData (run (progressRequest w args) tr) = first_complete tr.
Proof.
  destruct (pr_final_run tr (progressRequest w args)) as [D F].
  simpl in D, F. split; [exact D|].
  rewrite F. now destruct (first_complete tr).
Qed.

(** What the program counter says about the trace that led to it. *)
Lemma pr_body_agrees (w : W) (args : AArgs) (tr : list event) :
  match body (run (progressRequest w args) tr) with
  | await_startLongJobActivity settled => first_settle tr = settled
  | await_condition => exists a, first_settle tr = Some (Fulfilled a)
  | returned v =>
      exists tr1 tr2 a f,
        tr = tr1 ++ Resume :: tr2 /\
        first_settle tr1 = Some (Fulfilled a) /\
        first_complete tr1 = Some f /\ v = Some f
  | threw e =>
      exists tr1 tr2, tr = tr1 ++ Resume :: tr2 /\
                      first_settle tr1 = Some (Rejected e)
  end.
Proof.
  induction tr as [|ev tr IH] using rev_ind; [reflexivity|].
  rewrite pr_run_snoc.
  destruct (pr_final_of_call w args tr) as [D F].
  assert (forall x v,
            (exists tr1 tr2 a f,
                tr = tr1 ++ Resume :: tr2 /\
                first_settle tr1 = Some (Fulfilled a) /\
                first_complete tr1 = Some f /\ v = Some f) ->
            exists tr1 tr2 a f,
              tr ++ [x] = tr1 ++ Resume :: tr2 /\
              first_settle tr1 = Some (Fulfilled a) /\
              first_complete tr1 = Some f /\ v = Some f) as K1.
  { intros x v (tr1 & tr2 & a & f & -> & H).
    exists tr1, (tr2 ++ [x]), a, f. now rewrite <- app_assoc. }
  assert (forall x e,
            (exists tr1 tr2, tr = tr1 ++ Resume :: tr2 /\
                             first_settle tr1 = Some (Rejected e)) ->
            exists tr1 tr2, tr ++ [x] = tr1 ++ Resume :: tr2 /\
                            first_settle tr1 = Some (Rejected e)) as K2.
  { intros x e (tr1 & tr2 & -> & H).
    exists tr1, (tr2 ++ [x]). now rewrite <- app_assoc. }
  assert (forall x : event,
            (exists a, first_settle tr = Some (Fulfilled a)) ->
            exists a, first_settle (tr ++ [x]) = Some (Fulfilled a)) as K3.
  { intros x (a & H). exists a. now apply pr_first_settle_app. }
  destruct (run (progressRequest w args) tr) as [d fd b wd cs iss];
    simpl in *.
  destruct ev as [p | f | s |]; simpl.
  - unfold on_update; simpl.
    destruct d; simpl;
      (destruct b as [[s'|]| | v | e]; simpl in *;
       [ rewrite pr_first_settle_snoc, IH; reflexivity
       | rewrite pr_first_settle_snoc, IH; reflexivity
       | now apply K3 | now apply K1 | now apply K2 ]).
  - unfold on_complete; simpl.
    destruct d; simpl;
      (destruct b as [[s'|]| | v | e]; simpl in *;
       [ rewrite pr_first_settle_snoc, IH; reflexivity
       | rewrite pr_first_settle_snoc, IH; reflexivity
       | now apply K3 | now apply K1 | now apply K2 ]).
  - unfold settle; simpl.
    destruct b as [[s'|]| | v | e]; simpl in *;
      [ rewrite pr_first_settle_snoc, IH; reflexivity
      | rewrite pr_first_settle_snoc, IH; reflexivity
      | now apply K3 | now apply K1 | now apply K2 ].
  - unfold ProgressRequest.resume, condition_isDone, started; simpl.
    destruct b as [[[a|e]|]| | v | e]; simpl in *.
    + destruct d; simpl.
      * destruct (first_complete tr) as [f|] eqn:C; [|discriminate].
        exists tr, [], a, f. now repeat split.
      * exists a. now apply pr_first_settle_app.
    + exists tr, []. now split.
    + rewrite pr_first_settle_snoc, IH; reflexivity.
    + destruct d; simpl.
      * destruct IH as (a & IH).
        destruct (first_complete tr) as [f|] eqn:C; [|discriminate].
        exists tr, [], a, f. now repeat split.
      * now apply K3.
    + now apply K1.
    + now apply K2.
Qed.

(** Once the activity has resolved and the completion signal has been
    delivered, in either order, the next [Resume] ends the call with the
    payload of the first completion signal. *)
Lemma pr_both_then_resumed
    (w : W) (args : AArgs) (tr1 tr2 : list event) a f :
  first_settle tr1 = Some (Fulfilled a) ->
  first_complete tr1 = Some f ->
  body (run (progressRequest w args) (tr1 ++ Resume :: tr2)) =
  returned (Some f).
Proof.
  intros H C.
  change (tr1 ++ Resume :: tr2) with (tr1 ++ [Resume] ++ tr2).
  rewrite app_assoc, pr_run_app, pr_run_snoc.
  pose proof (pr_body_agrees w args tr1) as A.
  destruct (pr_final_of_call w args tr1) as [D F].
  rewrite C in D, F.
  destruct (run (progressRequest w args) tr1) as [d fd b wd cs iss];
    simpl in *. subst d fd.
  apply pr_finished_stable.
  destruct b as [settled | | v | e]; simpl in *.
  - rewrite H in A; subst settled. reflexivity.
  - reflexivity.
  - destruct A as (u1 & u2 & a' & f' & -> & _ & A & ->).
    rewrite (first_complete_app u1 _ A) in C. now injection C as ->.
  - destruct A as (u1 & u2 & -> & A).
    rewrite (pr_first_settle_app u1 _ A) in H. discriminate.
Qed.

End Facts.

Section Claims.

Context {AResult AArgs Progress Final Err W : Type}.
Variables updateSignalDef completeSignalDef : SignalDefinition.
Variable onStarted : option (AResult -> W -> W).
Variable onProgress : option (Progress -> W -> W).
Variable cb : Progress -> W -> W.

Local Notation state :=
  (ProgressRequest.state AResult AArgs Progress Final Err W).
Local Notation event := (ProgressRequest.event AResult Progress Final Err).
Local Notation progressRequest :=
  (ProgressRequest.progressRequest (AResult:=AResult) (Progress:=Progress)
     (Final:=Final) (Err:=Err) updateSignalDef completeSignalDef).

(** C2.  The host delivers the progress signals [ps] and then the
    completion signal [f]; the start activity resolves at any point of
    this, before or after any of the signals, and the body is resumed
    whenever the host likes and once at the end.  Then the call returns
    [f], [onProgress] has been called with the elements of [ps], once each
    and in that order, and the world is what the recorded calls make of the
    initial one.  Both handlers are set before the activity is called, and
    a completion signal that arrives while the activity is still running is
    the one returned. *)
Theorem progressRequest_progress_then_final
    (w : W) (args : AArgs) (tr : list event)
    (ps : list Progress) (f : Final) (a : AResult) :
  deliveries tr = map Update ps ++ [Complete f] ->
  first_settle tr = Some (Fulfilled a) ->
  body (run onStarted (Some cb) (progressRequest w args) (tr ++ [Resume])) =
    returned (Some f) /\
  progress_calls
    (calls (run onStarted (Some cb) (progressRequest w args)
              (tr ++ [Resume]))) = ps /\
  world (run onStarted (Some cb) (progressRequest w args) (tr ++ [Resume])) =
    fold_left (replay onStarted (Some cb))
      (calls (run onStarted (Some cb) (progressRequest w args)
                (tr ++ [Resume]))) w /\
  issued (run onStarted (Some cb) (progressRequest w args)
            (tr ++ [Resume])) =
    [SetHandler updateSignalDef; SetHandler completeSignalDef; Invoke args] /\
  body (run onStarted (Some cb) (progressRequest w args)
          ([Complete f; Settle (Fulfilled a); Resume] : list event)) =
    returned (Some f).
Proof.
  intros D S.
  assert (first_complete tr = Some f) as C.
  { rewrite <- first_complete_deliveries, D, first_complete_map_Update.
    reflexivity. }
  assert (updates_before_complete tr = ps) as U.
  { rewrite <- updates_deliveries, D, updates_map_Update. simpl.
    apply app_nil_r. }
  split; [now apply pr_both_then_resumed with (a := a)|].
  split.
  - rewrite pr_progress_calls_run. simpl.
    rewrite <- U. clear.
    induction tr as [|e t IH]; simpl; [reflexivity|].
    destruct e; simpl; now rewrite ?IH.
  - split; [now apply pr_world_run|].
    split; [apply pr_issued_run | reflexivity].
Qed.

(** C7.  In every run of a call, [onProgress] has been called with
    exactly the progress payloads delivered before the first completion
    signal, in their order: none, one or many, before the start activity
    resolves and after, and none of those delivered after completion.  A
    progress signal delivered once the flag is set changes nothing at
    all. *)
Theorem onProgress_never_after_completion (w : W) (args : AArgs) :
  (forall tr : list event,
      progress_calls
        (calls (run onStarted (Some cb) (progressRequest w args) tr)) =
      updates_before_complete tr) /\
  (forall (st : state) (p : Progress),
      isDone st = true -> step onStarted (Some cb) st (Update p) = st) /\
  (forall (ps1 ps2 ps3 : list Progress) (a : AResult) (f : Final),
      progress_calls
        (calls (run onStarted (Some cb) (progressRequest w args)
                  (map Update ps1 ++ [Settle (Fulfilled a); Resume] ++
                   map Update ps2 ++ [Complete f] ++ map Update ps3))) =
      ps1 ++ ps2).
Proof.
  assert (forall tr : list event,
      progress_calls
        (calls (run onStarted (Some cb) (progressRequest w args) tr)) =
      updates_before_complete tr) as H.
  { intros tr. now rewrite pr_progress_calls_run. }
  split; [exact H|].
  split; [intros st p; apply on_update_after_completion|].
  intros ps1 ps2 ps3 a f. rewrite H, updates_map_Update. simpl.
  rewrite updates_map_Update. simpl. now rewrite app_nil_r.
Qed.

(** In every run of a call: when [isDone] holds, [finalData] has been
    written with the payload of the first completion signal; a step that
    sets [isDone] is a delivery of the completion signal and writes
    [finalData] in the same handler run; and what the call returns is what
    was written. *)
Lemma pr_finalData_written_with_isDone
    (w : W) (args : AArgs) (tr : list event) :
  (isDone (run onStarted onProgress (progressRequest w args) tr) = true ->
   exists f,
     first_complete tr = Some f /\
     finalData (run onStarted onProgress (progressRequest w args) tr) =
     Some f) /\
  (forall v,
      body (run onStarted onProgress (progressRequest w args) tr) =
      returned v ->
      exists f, first_complete tr = Some f /\ v = Some f) /\
  (forall (st : state) (ev : event),
      isDone st = false ->
      isDone (step onStarted onProgress st ev) = true ->
      exists f, ev = Complete f /\
                finalData (step onStarted onProgress st ev) = Some f).
Proof.
  destruct (pr_final_of_call updateSignalDef completeSignalDef
              onStarted onProgress w args tr) as [D F].
  split; [|split].
  - intros H. rewrite D in H.
    destruct (first_complete tr) as [f|]; [|discriminate].
    exists f. now split.
  - intros v B.
    pose proof (pr_body_agrees updateSignalDef completeSignalDef
                  onStarted onProgress w args tr) as A.
    rewrite B in A. destruct A as (tr1 & tr2 & a & f & -> & _ & C & ->).
    exists f. split; [now apply first_complete_app | reflexivity].
  - intros st ev H1 H2. rewrite pr_isDone_step, H1 in H2.
    destruct ev as [| f | |]; try discriminate.
    exists f. split; [reflexivity|].
    simpl. unfold on_complete. now rewrite H1.
Qed.

End Claims.

(** The scenario of two progress reports and a final result: the activity
    resolves to ["job-42"] after the first report.  The callbacks write
    what they are called with to a list. *)
Lemma progressRequest_progress_then_final_witness :
  body (run (Some (fun (a : string) (w : list string) => w ++ [a]))
          (Some (fun (p : string) (w : list string) => w ++ [p]))
          (progressRequest (Err:=string) "searchProgress"%string
             "searchComplete"%string [] [1])
          ([Update "found 3 listings"%string;
            Settle (Fulfilled "job-42"%string); Resume;
            Update "found 7 listings"%string;
            Complete "done, 7 listings"%string] ++ [Resume])) =
  returned (Some "done, 7 listings"%string).
Proof.
  apply (@progressRequest_progress_then_final
           string (list nat) string string string (list string)
           "searchProgress"%string "searchComplete"%string
           (Some (fun a w => w ++ [a])) (fun p w => w ++ [p]) [] [1]
           [Update "found 3 listings"%string;
            Settle (Fulfilled "job-42"%string); Resume;
            Update "found 7 listings"%string;
            Complete "done, 7 listings"%string]
           ["found 3 listings"%string; "found 7 listings"%string]
           "done, 7 listings"%string "job-42"%string);
    reflexivity.
Defined.

Lemma onProgress_never_after_completion_witness :
  step (AArgs:=list nat) (Err:=string)
    (Some (fun (a : string) (w : list string) => w ++ [a]))
    (Some (fun (p : string) (w : list string) => w ++ [p]))
    (run (Some (fun (a : string) (w : list string) => w ++ [a]))
       (Some (fun (p : string) (w : list string) => w ++ [p]))
       (progressRequest "searchProgress"%string "searchComplete"%string
          [] [1])
       [Complete "done"%string])
    (Update "late"%string) =
  run (Some (fun (a : string) (w : list string) => w ++ [a]))
    (Some (fun (p : string) (w : list string) => w ++ [p]))
    (progressRequest "searchProgress"%string "searchComplete"%string [] [1])
    [Complete "done"%string].
Proof.
  apply (proj1 (proj2
    (@onProgress_never_after_completion
       string (list nat) string string string (list string)
       "searchProgress"%string "searchComplete"%string
       (Some (fun a w => w ++ [a])) (fun p w => w ++ [p]) [] [1]))).
  reflexivity.
Defined.

End ProgressRequestFacts.

(** ** The completion flag across the patterns *)

Module AcrossPatterns.

(** C5.  In [waitForDone] and in [progressRequest], from any state and
    along any run, [isDone] goes from [false] to [true] at most once; and
    once it holds, one more delivery of the completion signal leaves the
    whole state as it is, so that the run with the extra delivery and the
    run without it end in the same state: same value returned, same
    [finalData], same calls of the callbacks. *)
Theorem completion_flag_is_set_once :
  (forall (T Args Final Err : Type)
          (st : WaitForDone.state T Args Err)
          (tr : list (WaitForDone.event T Final Err)),
      WaitForDone.flips st tr <= 1 /\
      (WaitForDone.isDone (WaitForDone.run st tr) = true ->
       forall (p : Final) (tr2 : list (WaitForDone.event T Final Err)),
         WaitForDone.run st (tr ++ WaitForDone.Done p :: tr2) =
         WaitForDone.run st (tr ++ tr2))) /\
  (forall (AResult AArgs Progress Final Err W : Type)
          (onStarted : option (AResult -> W -> W))
          (onProgress : option (Progress -> W -> W))
          (st : ProgressRequest.state AResult AArgs Progress Final Err W)
          (tr : list (ProgressRequest.event AResult Progress Final Err)),
      ProgressRequest.flips onStarted onProgress st tr <= 1 /\
      (ProgressRequest.isDone
         (ProgressRequest.run onStarted onProgress st tr) = true ->
       forall (f : Final)
              (tr2 : list (ProgressRequest.event AResult Progress Final Err)),
         ProgressRequest.run onStarted onProgress st
           (tr ++ ProgressRequest.Complete f :: tr2) =
         ProgressRequest.run onStarted onProgress st (tr ++ tr2))).
Proof.
  split.
  - intros T Args Final Err st tr. split.
    + pose proof (WaitForDoneFacts.wfd_flips_bound tr st) as B.
      destruct (WaitForDone.isDone st); lia.
    + intros D p tr2.
      rewrite !WaitForDoneFacts.wfd_run_app.
      change (WaitForDone.run (WaitForDone.run st tr)
                (WaitForDone.Done p :: tr2))
        with (WaitForDone.run
                (WaitForDone.step (WaitForDone.run st tr)
                   (WaitForDone.Done p)) tr2).
      now rewrite WaitForDoneFacts.on_done_again.
  - intros AResult AArgs Progress Final Err W onStarted onProgress st tr.
    split.
    + pose proof (ProgressRequestFacts.pr_flips_bound
                    onStarted onProgress tr st) as B.
      destruct (ProgressRequest.isDone st); lia.
    + intros D f tr2.
      rewrite !ProgressRequestFacts.pr_run_app.
      change (ProgressRequest.run onStarted onProgress
                (ProgressRequest.run onStarted onProgress st tr)
                (ProgressRequest.Complete f :: tr2))
        with (ProgressRequest.run onStarted onProgress
                (ProgressRequest.step onStarted onProgress
                   (ProgressRequest.run onStarted onProgress st tr)
                   (ProgressRequest.Complete f)) tr2).
      now rewrite ProgressRequestFacts.on_complete_again.
Qed.

(** C10.  The handler of the submission signal does not look at [isDone].
    Deliver a finish signal and then a submission, from any state: the
    flag is set, and still the submission is stored in [lastSubmission]
    and [onSubmission] is called with it; if the body was waiting, the
    next [Resume] leaves the loop with the submission still stored.  In
    [progressRequest], a progress signal delivered after a completion
    signal changes nothing. *)
Theorem submission_handler_ignores_isDone :
  (forall (Args Submission Final W : Type) (cb : Submission -> W -> W)
          (st : IterativeLoop.state Args Submission W)
          (f : Final) (sub : Submission),
      IterativeLoop.isDone
        (IterativeLoop.run (Some cb) st [IterativeLoop.Finish f]) = true /\
      IterativeLoop.lastSubmission
        (IterativeLoop.run (Some cb) st
           [IterativeLoop.Finish f; IterativeLoop.Submit sub]) = Some sub /\
      IterativeLoop.calls
        (IterativeLoop.run (Some cb) st
           [IterativeLoop.Finish f; IterativeLoop.Submit sub]) =
        IterativeLoop.calls st ++ [sub] /\
      IterativeLoop.world
        (IterativeLoop.run (Some cb) st
           [IterativeLoop.Finish f; IterativeLoop.Submit sub]) =
        cb sub (IterativeLoop.world st) /\
      (IterativeLoop.body st = IterativeLoop.await_condition ->
       IterativeLoop.body
         (IterativeLoop.run (Some cb) st
            [IterativeLoop.Finish f; IterativeLoop.Submit sub;
             IterativeLoop.Resume]) = IterativeLoop.returned /\
       IterativeLoop.lastSubmission
         (IterativeLoop.run (Some cb) st
            [IterativeLoop.Finish f; IterativeLoop.Submit sub;
             IterativeLoop.Resume]) = Some sub)) /\
  (forall (AResult AArgs Progress Final Err W : Type)
          (onStarted : option (AResult -> W -> W))
          (cb : Progress -> W -> W)
          (st : ProgressRequest.state AResult AArgs Progress Final Err W)
          (f : Final) (p : Progress),
      ProgressRequest.run onStarted (Some cb) st
        [ProgressRequest.Complete f; ProgressRequest.Update p] =
      ProgressRequest.run onStarted (Some cb) st
        [ProgressRequest.Complete f]).
Proof.
  split.
  - intros Args Submission Final W cb st f sub.
    split; [reflexivity|].
    split; [reflexivity|].
    split; [reflexivity|].
    split; [reflexivity|].
    intros B. simpl. rewrite IterativeLoopFacts.resume_cases. simpl.
    rewrite B. now split.
  - intros AResult AArgs Progress Final Err W onStarted cb st f p. simpl.
    apply (ProgressRequestFacts.on_update_after_completion
             onStarted (Some cb)).
    unfold ProgressRequest.on_complete.
    destruct (ProgressRequest.isDone st) eqn:E; simpl; auto.
Qed.

(** Two completion signals with different payloads: the second is as if it
    had not been sent. *)
Lemma completion_flag_is_set_once_witness :
  ProgressRequest.run (AArgs:=list nat) (Err:=string)
    (Some (fun (a : string) (w : list string) => w ++ [a]))
    (Some (fun (p : string) (w : list string) => w ++ [p]))
    (ProgressRequest.progressRequest
       "searchProgress"%string "searchComplete"%string [] [1])
    ([ProgressRequest.Complete "first"%string] ++
     ProgressRequest.Complete "second"%string ::
     [ProgressRequest.Settle (Fulfilled "job-42"%string);
      ProgressRequest.Resume]) =
  ProgressRequest.run
    (Some (fun (a : string) (w : list string) => w ++ [a]))
    (Some (fun (p : string) (w : list string) => w ++ [p]))
    (ProgressRequest.progressRequest
       "searchProgress"%string "searchComplete"%string [] [1])
    ([ProgressRequest.Complete "first"%string] ++
     [ProgressRequest.Settle (Fulfilled "job-42"%string);
      ProgressRequest.Resume]).
Proof.
  apply (proj2 (proj2 completion_flag_is_set_once
    string (list nat) string string string (list string)
    (Some (fun a w => w ++ [a])) (Some (fun p w => w ++ [p]))
    (ProgressRequest.progressRequest
       "searchProgress"%string "searchComplete"%string [] [1])
    [ProgressRequest.Complete "first"%string])).
  reflexivity.
Defined.

(** A submission after the finish signal, to a loop that is waiting. *)
Lemma submission_handler_ignores_isDone_witness :
  IterativeLoop.body
    (IterativeLoop.run (Some (fun (sub : nat) (w : list nat) => w ++ [sub]))
       (IterativeLoop.iterativeLoop (Args:=list nat)
          "condition"%string "finish"%string [] [])
       [IterativeLoop.Finish "ok"%string; IterativeLoop.Submit 4;
        IterativeLoop.Resume]) = IterativeLoop.returned /\
  IterativeLoop.lastSubmission
    (IterativeLoop.run (Some (fun (sub : nat) (w : list nat) => w ++ [sub]))
       (IterativeLoop.iterativeLoop (Args:=list nat)
          "condition"%string "finish"%string [] [])
       [IterativeLoop.Finish "ok"%string; IterativeLoop.Submit 4;
        IterativeLoop.Resume]) = Some 4.
Proof.
  apply (proj1 submission_handler_ignores_isDone
    (list nat) nat string (list nat) (fun sub w => w ++ [sub])
    (IterativeLoop.iterativeLoop "condition"%string "finish"%string [] [])
    "ok"%string 4).
  reflexivity.
Defined.

End AcrossPatterns.

(** ** Runs on concrete inputs *)

Module ScenarioRuns.
Import Scenarios.

Example search_returns :
  ProgressRequest.body search_call =
  ProgressRequest.returned (Some "done, 7 listings"%string).
Proof. reflexivity. Qed.

Example search_calls :
  ProgressRequest.calls search_call =
  [ProgressRequest.OnStarted "job-42"%string;
   ProgressRequest.OnProgress "found 3 listings"%string;
   ProgressRequest.OnProgress "found 7 listings"%string] /\
  ProgressRequest.started_calls (ProgressRequest.calls search_call) =
  ["job-42"%string] /\
  ProgressRequest.world search_call =
  ["job-42"%string; "found 3 listings"%string; "found 7 listings"%string].
Proof. repeat split. Qed.

(** Without a completion signal the call stays at line 269. *)
Example search_without_completion :
  ProgressRequest.body
    (ProgressRequest.run (Some note) (Some note)
       (ProgressRequest.progressRequest (AArgs:=list string) (Final:=string)
          (Err:=string) "searchProgress"%string "searchComplete"%string
          [] ["2LDK"%string])
       [ProgressRequest.Settle (Fulfilled "job-42"%string);
        ProgressRequest.Resume;
        ProgressRequest.Update "found 3 listings"%string;
        ProgressRequest.Resume]) =
  ProgressRequest.await_condition.
Proof. reflexivity. Qed.

(** A rejected activity: the failure is thrown, completion signal or
    not. *)
Example search_fails :
  ProgressRequest.body
    (ProgressRequest.run (Some note) (Some note)
       (ProgressRequest.progressRequest (AResult:=string)
          (AArgs:=list string) "searchProgress"%string
          "searchComplete"%string [] ["2LDK"%string])
       [ProgressRequest.Complete "done"%string;
        ProgressRequest.Settle (Rejected "timeout"%string);
        ProgressRequest.Resume]) =
  ProgressRequest.threw "timeout"%string.
Proof. reflexivity. Qed.

(** [waitForDone] with the signal first, and with the signal missing. *)
Example done_before_start_resolves :
  WaitForDone.body
    (WaitForDone.run
       (WaitForDone.waitForDone (Args:=list nat) (Err:=string)
          "done"%string [1])
       [WaitForDone.Done "payload"%string;
        WaitForDone.Settle (Fulfilled 42); WaitForDone.Resume]) =
  WaitForDone.returned 42.
Proof. reflexivity. Qed.

Example done_never_sent :
  WaitForDone.body
    (WaitForDone.run
       (WaitForDone.waitForDone (Args:=list nat) (Err:=string)
          "done"%string [1])
       ([WaitForDone.Settle (Fulfilled 42); WaitForDone.Resume;
         WaitForDone.Resume] : list (WaitForDone.event nat string string))) =
  WaitForDone.await_condition 42.
Proof. reflexivity. Qed.

(** The loop of [workflows.ts] with no submission at all, and a loop that
    is resumed without a finish signal. *)
Example finish_without_submission :
  IterativeLoop.body
    (IterativeLoop.run (Submission:=string) (Some note)
       (IterativeLoop.iterativeLoop (Args:=list nat)
          "condition"%string "finish"%string [] [])
       [IterativeLoop.Finish "ok"%string; IterativeLoop.Resume]) =
  IterativeLoop.returned.
Proof. reflexivity. Qed.

Example submissions_without_finish :
  IterativeLoop.body
    (IterativeLoop.run (Final:=string) (Some note)
       (IterativeLoop.iterativeLoop (Args:=list nat)
          "condition"%string "finish"%string [] [])
       [IterativeLoop.Submit "a"%string; IterativeLoop.Resume;
        IterativeLoop.Submit "b"%string; IterativeLoop.Resume;
        IterativeLoop.Resume]) =
  IterativeLoop.await_condition.
Proof. reflexivity. Qed.

End ScenarioRuns.

(** ** How the calls end, and what they leave alone *)

Module WaitForDoneOutcomes.
Import WaitForDone.
Section Facts.

Context {T Args Final Err : Type}.
Variable doneSignalDef : SignalDefinition.

Local Notation state := (WaitForDone.state T Args Err).
Local Notation event := (WaitForDone.event T Final Err).

Lemma rejected_then_resumed (args : Args) (tr1 tr2 : list event) e :
  first_settle tr1 = Some (Rejected e) ->
  body (run (waitForDone doneSignalDef args) (tr1 ++ Resume :: tr2)) =
  threw e.
Proof.
  intros H.
  change (tr1 ++ Resume :: tr2) with (tr1 ++ [Resume] ++ tr2).
  rewrite app_assoc, WaitForDoneFacts.wfd_run_app,
    WaitForDoneFacts.wfd_run_snoc.
  pose proof (WaitForDoneFacts.wfd_body_agrees doneSignalDef args tr1) as A.
  apply WaitForDoneFacts.wfd_finished_stable.
  destruct (run (waitForDone doneSignalDef args) tr1) as [d b iss];
    simpl in *.
  destruct b as [settled | r | r | e']; simpl in *.
  - rewrite H in A; subst settled. reflexivity.
  - rewrite H in A. discriminate.
  - destruct A as (u1 & u2 & -> & A & _).
    rewrite (WaitForDoneFacts.wfd_first_settle_app u1 _ A) in H.
    discriminate.
  - destruct A as (u1 & u2 & -> & A).
    rewrite (WaitForDoneFacts.wfd_first_settle_app u1 _ A) in H.
    now injection H as ->.
Qed.

(** X1.  When the start activity of [waitForDone] fails with [e], the call
    is parked on line 95 with the failure or has thrown [e]: it does not
    reach the wait of line 98 and returns nothing, whether the completion
    signal is delivered or not; and it has thrown [e] once the body has
    been resumed. *)
Theorem waitForDone_rejection_propagates
    (args : Args) (tr : list event) (e : Err) :
  first_settle tr = Some (Rejected e) ->
  (body (run (waitForDone doneSignalDef args) tr) =
     await_startActivity (Some (Rejected e)) \/
   body (run (waitForDone doneSignalDef args) tr) = threw e) /\
  (forall tr2,
      body (run (waitForDone doneSignalDef args) (tr ++ Resume :: tr2)) =
      threw e).
Proof.
  intros H. split; [|intros tr2; now apply rejected_then_resumed].
  pose proof (WaitForDoneFacts.wfd_body_agrees doneSignalDef args tr) as A.
  destruct (body (run (waitForDone doneSignalDef args) tr))
    as [settled | r | r | e']; simpl in A.
  - left. rewrite H in A. now subst.
  - rewrite H in A. discriminate.
  - destruct A as (u1 & u2 & -> & A & _).
    rewrite (WaitForDoneFacts.wfd_first_settle_app u1 _ A) in H.
    discriminate.
  - destruct A as (u1 & u2 & -> & A).
    rewrite (WaitForDoneFacts.wfd_first_settle_app u1 _ A) in H.
    injection H as ->. now right.
Qed.

End Facts.

(** The signal is delivered, the activity fails, the body is resumed. *)
Lemma waitForDone_rejection_propagates_witness :
  body (run (waitForDone (T:=nat) (Args:=list nat) "done"%string [7])
          ([Done 5; Settle (Rejected "boom"%string)] ++ Resume :: [Done 6]))
  = threw "boom"%string.
Proof.
  apply (proj2 (@waitForDone_rejection_propagates
                  nat (list nat) nat string "done"%string [7]
                  [Done 5; Settle (Rejected "boom"%string)]
                  "boom"%string eq_refl)).
Defined.

End WaitForDoneOutcomes.

Module ProgressRequestOutcomes.
Import ProgressRequest.
Section Facts.

Context {AResult AArgs Progress Final Err W : Type}.
Variables updateSignalDef completeSignalDef : SignalDefinition.
Variable onStarted : option (AResult -> W -> W).
Variable onProgress : option (Progress -> W -> W).

Local Notation state :=
  (ProgressRequest.state AResult AArgs Progress Final Err W).
Local Notation event := (ProgressRequest.event AResult Progress Final Err).
Local Notation step := (ProgressRequest.step onStarted onProgress).
Local Notation run := (ProgressRequest.run onStarted onProgress).
Local Notation progressRequest :=
  (ProgressRequest.progressRequest (AResult:=AResult) (Progress:=Progress)
     (Final:=Final) (Err:=Err) updateSignalDef completeSignalDef).
Local Notation body_agrees :=
  (ProgressRequestFacts.pr_body_agrees updateSignalDef completeSignalDef
     onStarted onProgress).

Lemma pr_rejected_then_resumed
    (w : W) (args : AArgs) (tr1 tr2 : list event) e :
  first_settle tr1 = Some (Rejected e) ->
  body (run (progressRequest w args) (tr1 ++ Resume :: tr2)) = threw e.
Proof.
  intros H.
  change (tr1 ++ Resume :: tr2) with (tr1 ++ [Resume] ++ tr2).
  rewrite app_assoc, ProgressRequestFacts.pr_run_app,
    ProgressRequestFacts.pr_run_snoc.
  pose proof (body_agrees w args tr1) as A.
  apply ProgressRequestFacts.pr_finished_stable.
  destruct (run (progressRequest w args) tr1) as [d fd b wd cs iss];
    simpl in *.
  destruct b as [settled | | v | e']; simpl in *.
  - rewrite H in A; subst settled. reflexivity.
  - destruct A as (a & A). rewrite H in A. discriminate.
  - destruct A as (u1 & u2 & a & f & -> & A & _).
    rewrite (ProgressRequestFacts.pr_first_settle_app u1 _ A) in H.
    discriminate.
  - destruct A as (u1 & u2 & -> & A).
    rewrite (ProgressRequestFacts.pr_first_settle_app u1 _ A) in H.
    now injection H as ->.
Qed.


(** Where the body is, against the calls of [onStarted] so far. *)
Lemma pr_started_agrees (w : W) (args : AArgs) (tr : list event) :
  match body (run (progressRequest w args) tr) with
  | await_startLongJobActivity _ | threw _ =>
      started_calls (calls (run (progressRequest w args) tr)) = []
  | await_condition | returned _ =>
      exists a,
        first_settle tr = Some (Fulfilled a) /\
        started_calls (calls (run (progressRequest w args) tr)) =
        match onStarted with Some _ => [a] | None => [] end
  end.
Proof.
  induction tr as [|ev tr IH] using rev_ind; [reflexivity|].
  rewrite ProgressRequestFacts.pr_run_snoc.
  pose proof (body_agrees w args tr) as A.
  assert (forall x : event,
            (exists a, first_settle tr = Some (Fulfilled a) /\
               started_calls (calls (run (progressRequest w args) tr)) =
               match onStarted with Some _ => [a] | None => [] end) ->
            exists a, first_settle (tr ++ [x]) = Some (Fulfilled a) /\
               started_calls (calls (run (progressRequest w args) tr)) =
               match onStarted with Some _ => [a] | None => [] end) as K.
  { intros x (a & H1 & H2). exists a.
    split; [now apply ProgressRequestFacts.pr_first_settle_app | exact H2]. }
  destruct (run (progressRequest w args) tr) as [d fd b wd cs iss];
    simpl in *.
  destruct ev as [p | f | s |]; simpl.
  - unfold on_update; simpl.
    assert (started_calls (record_optional onProgress (OnProgress p) cs) =
            started_calls cs) as R.
    { unfold record_optional. destruct onProgress; [|reflexivity].
      rewrite ProgressRequestFacts.started_calls_app. simpl.
      apply app_nil_r. }
    destruct d; simpl; rewrite ?R;
      destruct b as [[s'|]| | v | e]; simpl in *; auto.
  - unfold on_complete; simpl.
    destruct d; simpl; destruct b as [[s'|]| | v | e]; simpl in *; auto.
  - unfold settle; simpl.
    destruct b as [[s'|]| | v | e]; simpl in *; auto.
  - unfold ProgressRequest.resume, condition_isDone, started; simpl.
    destruct b as [[[a|e]|]| | v | e]; simpl in *; auto.
    assert (started_calls (record_optional onStarted (OnStarted a) cs) =
            match onStarted with Some _ => [a] | None => [] end) as R.
    { unfold record_optional. destruct onStarted; [|exact IH].
      rewrite ProgressRequestFacts.started_calls_app, IH. reflexivity. }
    destruct d; simpl; exists a;
      (split; [now apply ProgressRequestFacts.pr_first_settle_app
              | exact R]).
    destruct d; simpl; auto.
Qed.

Lemma pr_past_start_stable (tr : list event) :
  forall st : state,
    (body st = await_condition \/ exists v, body st = returned v) ->
    body (run st tr) = await_condition \/
    exists v, body (run st tr) = returned v.
Proof.
  induction tr as [|ev tr IH]; intros st H; simpl; [exact H|].
  apply IH. destruct ev; simpl.
  - unfold on_update. destruct (isDone st); exact H.
  - unfold on_complete. destruct (isDone st); exact H.
  - unfold settle. destruct H as [H | [v H]]; rewrite H; eauto.
  - unfold ProgressRequest.resume, condition_isDone.
    destruct H as [H | [v H]]; rewrite H; [|eauto].
    destruct (isDone st); simpl; eauto.
Qed.

End Facts.

Section Started.

Context {AResult AArgs Progress Final Err W : Type}.
Variables updateSignalDef completeSignalDef : SignalDefinition.
Variable cb : AResult -> W -> W.
Variable onProgress : option (Progress -> W -> W).

Local Notation event := (ProgressRequest.event AResult Progress Final Err).
Local Notation run := (ProgressRequest.run (Some cb) onProgress).
Local Notation progressRequest :=
  (ProgressRequest.progressRequest (AResult:=AResult) (Progress:=Progress)
     (Final:=Final) (Err:=Err) updateSignalDef completeSignalDef).

(** X3.  [onStarted] is called at most once in a call of
    [progressRequest], and then with what the start activity resolved to;
    it has been called once the body has been resumed after the activity
    resolved, hence before the call returns; it is not called when the
    activity fails. *)
Theorem onStarted_is_called_once_with_the_result
    (w : W) (args : AArgs) (tr : list event) :
  (started_calls (calls (run (progressRequest w args) tr)) = [] \/
   exists a,
     first_settle tr = Some (Fulfilled a) /\
     started_calls (calls (run (progressRequest w args) tr)) = [a]) /\
  (forall a tr2,
      first_settle tr = Some (Fulfilled a) ->
      started_calls
        (calls (run (progressRequest w args) (tr ++ Resume :: tr2))) = [a]) /\
  (forall e,
      first_settle tr = Some (Rejected e) ->
      started_calls (calls (run (progressRequest w args) tr)) = []) /\
  (forall v,
      body (run (progressRequest w args) tr) = returned v ->
      exists a,
        started_calls (calls (run (progressRequest w args) tr)) = [a]).
Proof.
  pose proof (pr_started_agrees updateSignalDef completeSignalDef
                (Some cb) onProgress w args tr) as A.
  split; [|split; [|split]].
  - destruct (body (run (progressRequest w args) tr)); auto.
  - intros a tr2 S.
    pose proof (pr_started_agrees updateSignalDef completeSignalDef
                  (Some cb) onProgress w args (tr ++ Resume :: tr2)) as B.
    assert (body (run (progressRequest w args) (tr ++ Resume :: tr2)) =
              await_condition \/
            exists v,
              body (run (progressRequest w args) (tr ++ Resume :: tr2)) =
              returned v) as P.
    { change (tr ++ Resume :: tr2) with (tr ++ [Resume] ++ tr2).
      rewrite app_assoc, ProgressRequestFacts.pr_run_app,
        ProgressRequestFacts.pr_run_snoc.
      apply pr_past_start_stable.
      pose proof (ProgressRequestFacts.pr_body_agrees
                    updateSignalDef completeSignalDef
                    (Some cb) onProgress w args tr) as C.
      destruct (run (progressRequest w args) tr) as [d fd b wd cs iss];
        simpl in *.
      unfold ProgressRequest.resume, condition_isDone, started; simpl.
      destruct b as [settled | | v | e]; simpl in *.
      - rewrite S in C. subst settled. destruct d; simpl; eauto.
      - destruct d; simpl; eauto.
      - eauto.
      - destruct C as (u1 & u2 & -> & C).
        rewrite (ProgressRequestFacts.pr_first_settle_app u1 _ C) in S.
        discriminate. }
    assert (first_settle (tr ++ Resume :: tr2) = Some (Fulfilled a)) as S'.
    { now apply ProgressRequestFacts.pr_first_settle_app. }
    destruct P as [P | [v P]]; rewrite P in B;
      destruct B as (a' & B1 & B2); rewrite S' in B1;
      injection B1 as <-; exact B2.
  - intros e S.
    destruct (body (run (progressRequest w args) tr)); auto;
      destruct A as (a & A & _); rewrite S in A; discriminate.
  - intros v B. rewrite B in A. destruct A as (a & _ & A). eauto.
Qed.

End Started.

(** A progress report, then the activity resolves and the body runs. *)
Lemma onStarted_is_called_once_with_the_result_witness :
  started_calls
    (calls (run (Some (fun (a : string) (w : list string) => w ++ [a]))
              (Some (fun (p : string) (w : list string) => w ++ [p]))
              (progressRequest (Final:=string) (Err:=string)
                 "searchProgress"%string "searchComplete"%string [] [1])
              ([Update "found 3 listings"%string;
                Settle (Fulfilled "job-42"%string)] ++
               Resume :: [Resume; Settle (Fulfilled "job-43"%string)]))) =
  ["job-42"%string].
Proof.
  apply (proj1 (proj2
    (@onStarted_is_called_once_with_the_result
       string (list nat) string string string (list string)
       "searchProgress"%string "searchComplete"%string
       (fun a w => w ++ [a]) (Some (fun p w => w ++ [p])) [] [1]
       [Update "found 3 listings"%string;
        Settle (Fulfilled "job-42"%string)]))).
  reflexivity.
Defined.


End ProgressRequestOutcomes.

Module IterativeLoopOutcomes.
Import IterativeLoop.
Section Facts.

Context {Args Submission Final W : Type}.
Variables submissionSignalDef finishSignalDef : SignalDefinition.
Variable onSubmission : option (Submission -> W -> W).

Local Notation state := (IterativeLoop.state Args Submission W).
Local Notation event := (IterativeLoop.event Submission Final).
Local Notation step := (IterativeLoop.step (Final:=Final) onSubmission).
Local Notation run := (IterativeLoop.run (Final:=Final) onSubmission).
Local Notation iterativeLoop :=
  (IterativeLoop.iterativeLoop (Args:=Args)
     submissionSignalDef finishSignalDef).

(** X4.  A call of [iterativeLoop] sets the handler of the finish signal
    and then that of the submission signal, and starts no activity.  For
    every order of events it has returned exactly when the body was
    resumed at some point after a finish signal: no number of submissions
    ends the loop, and neither does a finish signal before the body
    runs. *)
Theorem iterativeLoop_outcome (w : W) (args : Args) (tr : list event) :
  issued (run (iterativeLoop w args) tr) =
    [SetHandler finishSignalDef; SetHandler submissionSignalDef] /\
  (body (run (iterativeLoop w args) tr) = returned <->
   exists tr1 tr2, tr = tr1 ++ Resume :: tr2 /\ finished tr1 = true).
Proof.
  split; [apply IterativeLoopFacts.il_issued_run|].
  split.
  - intros H.
    pose proof (IterativeLoopFacts.il_body_agrees
                  submissionSignalDef finishSignalDef onSubmission
                  w args tr) as A.
    rewrite H in A. exact A.
  - intros (tr1 & tr2 & -> & F).
    now apply IterativeLoopFacts.finished_then_resumed.
Qed.

(** With no [Resume], the variable holds the last submission delivered,
    or what it held. *)
Lemma slot_without_resume (tr : list event) :
  forall st : state,
    existsb (@is_Resume _ _) tr = false ->
    lastSubmission (run st tr) =
    match rev (submissions tr) with
    | sub :: _ => Some sub
    | [] => lastSubmission st
    end.
Proof.
  induction tr as [|ev tr IH] using rev_ind; intros st N; [reflexivity|].
  rewrite existsb_app in N. apply orb_false_elim in N as [N1 N2].
  rewrite IterativeLoopFacts.il_run_snoc,
    IterativeLoopFacts.submissions_app.
  destruct ev; simpl in *; try discriminate.
  - rewrite app_nil_r. now apply IH.
  - now rewrite rev_app_distr.
Qed.

(** X5.  After the body of [iterativeLoop] has run at a point where no
    finish signal had been delivered, and until it runs again,
    [lastSubmission] holds the latest of the submissions delivered since,
    and nothing when there was none: of several submissions between two
    runs of the body only the last is kept. *)
Theorem pending_slot_is_latest_since_wake
    (w : W) (args : Args) (tr1 tr2 : list event) :
  finished tr1 = false ->
  existsb (@is_Resume _ _) tr2 = false ->
  lastSubmission (run (iterativeLoop w args) (tr1 ++ Resume :: tr2)) =
  match rev (submissions tr2) with
  | sub :: _ => Some sub
  | [] => None
  end.
Proof.
  intros F N.
  change (tr1 ++ Resume :: tr2) with (tr1 ++ [Resume] ++ tr2).
  rewrite app_assoc, IterativeLoopFacts.il_run_app,
    IterativeLoopFacts.il_run_snoc, (slot_without_resume _ _ N).
  assert (lastSubmission (step (run (iterativeLoop w args) tr1) Resume) =
          None) as E.
  { simpl. rewrite IterativeLoopFacts.resume_cases.
    rewrite (IterativeLoopFacts.not_finished_pending
               submissionSignalDef finishSignalDef onSubmission
               w args tr1 F).
    rewrite IterativeLoopFacts.il_isDone_run, F. simpl.
    destruct (lastSubmission (run (iterativeLoop w args) tr1)) eqn:L;
      [reflexivity | exact L]. }
  rewrite E. reflexivity.
Qed.

End Facts.

Lemma iterativeLoop_outcome_witness :
  body (run (Some (fun (sub : nat) (w : list nat) => w ++ [sub]))
          (iterativeLoop (Args:=list nat) "condition"%string
             "finish"%string [] [])
          [Submit 1; Finish "ok"%string; Resume; Submit 2]) = returned.
Proof.
  apply (proj2
    (@iterativeLoop_outcome (list nat) nat string (list nat)
       "condition"%string "finish"%string
       (Some (fun sub w => w ++ [sub])) [] []
       [Submit 1; Finish "ok"%string; Resume; Submit 2])).
  exists [Submit 1; Finish "ok"%string], [Submit 2]. split; reflexivity.
Defined.

Lemma pending_slot_is_latest_since_wake_witness :
  lastSubmission
    (run (Final:=string) (Some (fun (sub : nat) (w : list nat) => w ++ [sub]))
       (iterativeLoop (Args:=list nat) "condition"%string
          "finish"%string [] [])
       ([Submit 1; Submit 2] ++ Resume :: [Submit 3; Submit 4; Submit 5])) =
  Some 5.
Proof.
  apply (@pending_slot_is_latest_since_wake (list nat) nat string (list nat)
           "condition"%string "finish"%string
           (Some (fun sub w => w ++ [sub])) [] []
           [Submit 1; Submit 2] [Submit 3; Submit 4; Submit 5]);
    reflexivity.
Defined.

End IterativeLoopOutcomes.

Module AbsentCallbacks.

Lemma loop_without_callback
    (Args Submission Final W : Type)
    (tr : list (IterativeLoop.event Submission Final)) :
  forall st : IterativeLoop.state Args Submission W,
    IterativeLoop.world (IterativeLoop.run None st tr) =
      IterativeLoop.world st /\
    IterativeLoop.calls (IterativeLoop.run None st tr) =
      IterativeLoop.calls st.
Proof.
  intros st. split.
  - rewrite IterativeLoopFacts.il_world_run.
    generalize (IterativeLoop.world st).
    induction (IterativeLoop.submissions tr) as [|sub l IH]; intros w0;
      simpl; auto.
  - rewrite IterativeLoopFacts.il_calls_run. apply app_nil_r.
Qed.

Lemma request_without_callbacks
    (AResult AArgs Progress Final Err W : Type)
    (tr : list (ProgressRequest.event AResult Progress Final Err)) :
  forall st : ProgressRequest.state AResult AArgs Progress Final Err W,
    ProgressRequest.world (ProgressRequest.run None None st tr) =
      ProgressRequest.world st /\
    ProgressRequest.calls (ProgressRequest.run None None st tr) =
      ProgressRequest.calls st.
Proof.
  induction tr as [|ev tr IH]; intros st; simpl; [now split|].
  destruct (IH (ProgressRequest.step None None st ev)) as [-> ->].
  destruct ev; simpl.
  - unfold ProgressRequest.on_update.
    destruct (ProgressRequest.isDone st); now split.
  - unfold ProgressRequest.on_complete.
    destruct (ProgressRequest.isDone st); now split.
  - unfold ProgressRequest.settle.
    destruct (ProgressRequest.body st) as [[?|]| | |]; now split.
  - unfold ProgressRequest.resume, ProgressRequest.condition_isDone,
      ProgressRequest.started.
    destruct (ProgressRequest.body st) as [[[?|?]|]| | |]; simpl;
      try (now split); destruct (ProgressRequest.isDone st); now split.
Qed.

(** X6.  The callbacks are optional.  Called without them,
    [iterativeLoop] and [progressRequest] leave the caller's world as it
    is and call nothing, whatever is delivered; the signals still drive
    the call: the loop ends on the finish signal and the request returns
    the payload of the completion signal. *)
Theorem absent_callbacks_are_skipped :
  (forall (Args Submission Final W : Type)
          (st : IterativeLoop.state Args Submission W)
          (tr : list (IterativeLoop.event Submission Final)),
      IterativeLoop.world (IterativeLoop.run None st tr) =
        IterativeLoop.world st /\
      IterativeLoop.calls (IterativeLoop.run None st tr) =
        IterativeLoop.calls st) /\
  (forall (AResult AArgs Progress Final Err W : Type)
          (st : ProgressRequest.state AResult AArgs Progress Final Err W)
          (tr : list (ProgressRequest.event AResult Progress Final Err)),
      ProgressRequest.world (ProgressRequest.run None None st tr) =
        ProgressRequest.world st /\
      ProgressRequest.calls (ProgressRequest.run None None st tr) =
        ProgressRequest.calls st) /\
  (forall (Args Submission Final W : Type) (w : W) (args : Args)
          (def1 def2 : SignalDefinition) (sub : Submission) (f : Final),
      IterativeLoop.body
        (IterativeLoop.run None
           (IterativeLoop.iterativeLoop def1 def2 w args)
           [IterativeLoop.Submit sub; IterativeLoop.Finish f;
            IterativeLoop.Resume]) = IterativeLoop.returned) /\
  (forall (AResult AArgs Progress Final Err W : Type) (w : W)
          (args : AArgs) (def1 def2 : SignalDefinition)
          (p : Progress) (f : Final) (a : AResult),
      ProgressRequest.body
        (ProgressRequest.run (Err:=Err) None None
           (ProgressRequest.progressRequest def1 def2 w args)
           [ProgressRequest.Update p; ProgressRequest.Complete f;
            ProgressRequest.Settle (Fulfilled a);
            ProgressRequest.Resume]) =
      ProgressRequest.returned (Some f)).
Proof.
  split; [intros; apply loop_without_callback|].
  split; [intros; apply request_without_callbacks|].
  split; reflexivity.
Qed.

End AbsentCallbacks.

(** ** A completion signal without a payload *)

Module CompletionPayloads.
Import ProgressRequest ProgressRequestFacts Payload.

Section Claims.

Context {AResult AArgs Progress A Err W : Type}.
Variables updateSignalDef completeSignalDef : SignalDefinition.
Variable onStarted : option (AResult -> W -> W).
Variable onProgress : option (Progress -> W -> W).

Local Notation state :=
  (ProgressRequest.state AResult AArgs Progress (carried A) Err W).
Local Notation event :=
  (ProgressRequest.event AResult Progress (carried A) Err).
Local Notation progressRequest :=
  (ProgressRequest.progressRequest (AResult:=AResult) (Progress:=Progress)
     (Final:=carried A) (Err:=Err) updateSignalDef completeSignalDef).

(** C9, amended.  In every run of a call whose completion signal may
    carry [undefined] or [null]: when [isDone] holds, [finalData] has been
    written with the payload of the first completion signal; a step that
    sets [isDone] is a delivery of the completion signal and writes its
    payload to [finalData] in the same handler run; what the call returns
    is that payload.  [finalData], and the value returned, is defined
    exactly when the first completion signal carried a value: [finalData!]
    holds for such signals and for no other. *)
Theorem finalData_is_the_first_completion_payload
    (w : W) (args : AArgs) (tr : list event) :
  (isDone (run onStarted onProgress (progressRequest w args) tr) = true ->
   exists p,
     first_complete tr = Some p /\
     finalData (run onStarted onProgress (progressRequest w args) tr) =
     Some p) /\
  (forall v,
      body (run onStarted onProgress (progressRequest w args) tr) =
      returned v ->
      exists p, first_complete tr = Some p /\ v = Some p) /\
  (forall (st : state) (ev : event),
      isDone st = false ->
      isDone (step onStarted onProgress st ev) = true ->
      exists p, ev = Complete p /\
                finalData (step onStarted onProgress st ev) = Some p) /\
  (isDone (run onStarted onProgress (progressRequest w args) tr) = true ->
   (defined
      (content
         (finalData (run onStarted onProgress (progressRequest w args) tr))) =
    true <->
    exists a, first_complete tr = Some (Value a))) /\
  (forall v,
      body (run onStarted onProgress (progressRequest w args) tr) =
      returned v ->
      (defined (content v) = true <->
       exists a, first_complete tr = Some (Value a))).
Proof.
  destruct (@pr_finalData_written_with_isDone
              AResult AArgs Progress (carried A) Err W
              updateSignalDef completeSignalDef onStarted onProgress
              w args tr) as (H1 & H2 & H3).
  split; [exact H1|]. split; [exact H2|]. split; [exact H3|].
  split.
  - intros D. destruct (H1 D) as (p & C & F). rewrite F, C. simpl.
    destruct p as [a| |]; simpl; split; intros H;
      try discriminate; try (now exists a); try reflexivity;
      destruct H as [a' H]; discriminate.
  - intros v B. destruct (H2 v B) as (p & C & ->). rewrite C. simpl.
    destruct p as [a| |]; simpl; split; intros H;
      try discriminate; try (now exists a); try reflexivity;
      destruct H as [a' H]; discriminate.
Qed.

End Claims.

(** C9 as the specification words it does not hold.  The completion
    signal is delivered without a payload, the start activity resolves and
    the body runs: [isDone] holds while [finalData] is [undefined], and
    [undefined] is what the call returns. *)
Lemma finalData_is_undefined_after_an_empty_completion :
  exists st : ProgressRequest.state string (list string) string
                (carried string) string (list string),
    st = run (Some Scenarios.note) (Some Scenarios.note)
           (progressRequest "searchProgress"%string "searchComplete"%string
              [] ["2LDK"%string])
           [Complete Undefined; Settle (Fulfilled "job-42"%string); Resume] /\
    isDone st = true /\
    defined (content (finalData st)) = false /\
    exists v, body st = returned v /\ defined (content v) = false.
Proof.
  eexists. split; [reflexivity|].
  split; [reflexivity|]. split; [reflexivity|].
  eexists. split; reflexivity.
Qed.

(** The first completion signal carries a value, the second none: the
    value is what [finalData] holds. *)
Lemma finalData_is_the_first_completion_payload_witness :
  exists p,
    first_complete
      ([Complete (Value "7 listings"%string); Complete Undefined]
         : list (event string string (carried string) string)) = Some p /\
    finalData
      (run (Some Scenarios.note) (Some Scenarios.note)
         (progressRequest (Err:=string) "searchProgress"%string
            "searchComplete"%string [] ["2LDK"%string])
         [Complete (Value "7 listings"%string); Complete Undefined]) =
    Some p.
Proof.
  apply (proj1
    (@finalData_is_the_first_completion_payload
       string (list string) string string string (list string)
       "searchProgress"%string "searchComplete"%string
       (Some Scenarios.note) (Some Scenarios.note) [] ["2LDK"%string]
       [Complete (Value "7 listings"%string); Complete Undefined])).
  reflexivity.
Defined.

End CompletionPayloads.

(** ** The workflow *)

Module ResearchFacts.
Import Js Research.
Section Facts.

Variable number : Type.
Variable to_string : Js.value number -> string.
Variable Err : Type.
Variable type_error : Err.
Variable chatSessionId : string.

Local Notation value := (Js.value number).
Local Notation state := (Research.state number Err).
Local Notation event := (Research.event number Err).
Local Notation search := (Research.search number Err).
Local Notation env := (Research.env number Err).
Local Notation ledger := (Research.ledger number Err).
Local Notation command := (Research.command number).
Local Notation request_state := (Research.request_state number Err).
Local Notation request_event := (Research.request_event number Err).
Local Notation step := (Research.step to_string type_error chatSessionId).
Local Notation run := (Research.run to_string type_error chatSessionId).
Local Notation in_request :=
  (Research.in_request to_string type_error chatSessionId).
Local Notation settle_search :=
  (Research.settle_search to_string type_error chatSessionId).
Local Notation resume_search :=
  (Research.resume_search to_string type_error chatSessionId).
Local Notation onSubmission := (Research.onSubmission type_error).
Local Notation posted := (Research.posted to_string chatSessionId).
Local Notation keeps := (Research.keeps to_string chatSessionId).
Local Notation pr_step :=
  (ProgressRequest.step (AArgs:=value) (Final:=value) (Err:=Err)
     (Some (Research.onStarted chatSessionId))
     (Some (Research.onProgress to_string type_error chatSessionId))).

Lemma wf_run_app (tr1 tr2 : list event) :
  forall st : state,
    run st (tr1 ++ tr2) =
    match run st tr1 with
    | Some st' => run st' tr2
    | None => None
    end.
Proof.
  induction tr1 as [|ev tr1 IH]; intros st; simpl; [reflexivity|].
  destruct (step st ev); [apply IH | reflexivity].
Qed.

(** Once the workflow is over or stuck, no event changes it. *)
Lemma halted_step (st : state) (ev : event) :
  over st || stuck st = true -> step st ev = Some st.
Proof. unfold Research.step. now intros ->. Qed.

Lemma halted_run (tr : list event) (st : state) :
  over st || stuck st = true -> run st tr = Some st.
Proof.
  intros H. induction tr as [|ev tr IH]; simpl; [reflexivity|].
  now rewrite halted_step.
Qed.

Lemma halted_kept (tr : list event) :
  forall st st' : state,
    run st tr = Some st' ->
    over st' || stuck st' = false -> over st || stuck st = false.
Proof.
  intros st st' R O. destruct (over st || stuck st) eqn:E; [|reflexivity].
  rewrite (halted_run tr st E) in R. injection R as <-. congruence.
Qed.

(** An invariant of the steps holds along a run. *)
Lemma run_invariant (P : state -> Prop) :
  (forall st ev st', P st -> step st ev = Some st' -> P st') ->
  forall tr st st', P st -> run st tr = Some st' -> P st'.
Proof.
  intros HP. induction tr as [|ev tr IH]; intros st st' H R; simpl in R.
  - now injection R as <-.
  - destruct (step st ev) as [st1|] eqn:E; [|discriminate].
    exact (IH st1 st' (HP st ev st1 H E) R).
Qed.

Lemma set_nth_length {A : Type} (l : list A) :
  forall k x, List.length (set_nth k x l) = List.length l.
Proof.
  induction l as [|y l IH]; intros k x; [now destruct k|].
  destruct k; simpl; [reflexivity | now rewrite IH].
Qed.

Lemma set_nth_same {A : Type} (l : list A) :
  forall k x, k < List.length l -> nth_error (set_nth k x l) k = Some x.
Proof.
  induction l as [|y l IH]; intros k x H; simpl in H; [lia|].
  destruct k; simpl; [reflexivity | apply IH; lia].
Qed.

Lemma set_nth_other {A : Type} (l : list A) :
  forall k j x, j <> k -> nth_error (set_nth k x l) j = nth_error l j.
Proof.
  induction l as [|y l IH]; intros k j x H; [now destruct k|].
  destruct k, j; simpl; try reflexivity; [lia | apply IH; lia].
Qed.

(** The searches after [on_search]: the k-th is replaced, the others
    stay. *)
Lemma on_search_nth (k : nat)
    (f : ledger -> search -> ledger * search) (e : env) j :
  nth_error (searches (on_search k f e)) j =
  if Nat.eqb j k then
    match nth_error (searches e) k with
    | Some x => Some (snd (f (book e) x))
    | None => None
    end
  else nth_error (searches e) j.
Proof.
  unfold on_search.
  destruct (nth_error (searches e) k) as [x|] eqn:E.
  - destruct (f (book e) x) as [cs x'] eqn:F. simpl.
    destruct (Nat.eqb_spec j k) as [->|N].
    + apply set_nth_same. apply nth_error_Some. congruence.
    + now apply set_nth_other.
  - destruct (Nat.eqb_spec j k) as [->|N]; [exact E | reflexivity].
Qed.

Lemma on_search_length (k : nat)
    (f : ledger -> search -> ledger * search) (e : env) :
  List.length (searches (on_search k f e)) = List.length (searches e).
Proof.
  unfold on_search.
  destruct (nth_error (searches e) k) as [x|]; [|reflexivity].
  destruct (f (book e) x). simpl. apply set_nth_length.
Qed.

Lemma on_search_book (k : nat)
    (f : ledger -> search -> ledger * search) (e : env) :
  book (on_search k f e) =
  match nth_error (searches e) k with
  | Some x => fst (f (book e) x)
  | None => book e
  end.
Proof.
  unfold on_search.
  destruct (nth_error (searches e) k) as [x|]; [|reflexivity].
  now destruct (f (book e) x).
Qed.

Lemma searches_started_app (cs1 cs2 : list command) :
  searches_started (cs1 ++ cs2) =
  searches_started cs1 ++ searches_started cs2.
Proof.
  induction cs1 as [|c cs1 IH]; simpl; [reflexivity|].
  destruct c; simpl; now rewrite IH.
Qed.

Lemma later_refl (b : ledger) : later b b.
Proof. split; [exists []; now rewrite app_nil_r | auto]. Qed.

Lemma later_trans (b1 b2 b3 : ledger) :
  later b1 b2 -> later b2 b3 -> later b1 b3.
Proof.
  intros [(e1 & C1 & S1) U1] [(e2 & C2 & S2) U2]. split; [|auto].
  exists (e1 ++ e2). rewrite C2, C1, <- app_assoc. split; [reflexivity|].
  now rewrite searches_started_app, S1, S2.
Qed.

Lemma later_ask (b : ledger) (message : string) :
  later b (ask (PostChatMessage chatSessionId message) b).
Proof. split; [eexists; split; reflexivity | auto]. Qed.

Lemma later_ask_unawaited (b : ledger) (message : string) :
  later b (ask_unawaited (PostChatMessage chatSessionId message) b).
Proof. split; [eexists; split; reflexivity | auto]. Qed.

Lemma later_reject (b : ledger) (e : Err) : later b (reject e b).
Proof.
  split; [exists []; now rewrite app_nil_r | simpl; discriminate].
Qed.

Lemma later_settle_message (i : nat) (s : settlement string Err)
    (b : ledger) :
  later b (settle_message i s b).
Proof.
  unfold settle_message.
  destruct (existsb (Nat.eqb i) (unawaited b)); [|apply later_refl].
  destruct s as [v|e]; (split; [exists []; now rewrite app_nil_r|]);
    simpl; [auto | discriminate].
Qed.

(** A step of a call of [progressReq] with the callbacks of the workflow
    adds chat messages to the commands, if anything. *)
Lemma pr_step_world (r : request_state) (ev : request_event) :
  later (ProgressRequest.world r) (ProgressRequest.world (pr_step r ev)).
Proof.
  destruct ev as [p | f | s |]; simpl.
  - unfold ProgressRequest.on_update.
    destruct (ProgressRequest.isDone r); simpl; [apply later_refl|].
    unfold Research.onProgress.
    destruct (get p "message"); [apply later_ask_unawaited|].
    apply later_reject.
  - unfold ProgressRequest.on_complete.
    destruct (ProgressRequest.isDone r); simpl; apply later_refl.
  - unfold ProgressRequest.settle.
    destruct (ProgressRequest.body r) as [[?|]| | |]; simpl;
      apply later_refl.
  - unfold ProgressRequest.resume, ProgressRequest.condition_isDone,
      ProgressRequest.started.
    destruct (ProgressRequest.body r) as [[[a|e]|]| | |]; simpl;
      try apply later_refl.
    + destruct (ProgressRequest.isDone r); simpl;
        apply later_ask_unawaited.
    + destruct (ProgressRequest.isDone r); simpl; apply later_refl.
Qed.

(** Once [isDone] holds, no step changes it or [finalData]. *)
Lemma pr_step_when_done (r : request_state) (ev : request_event) :
  ProgressRequest.isDone r = true ->
  ProgressRequest.isDone (pr_step r ev) = true /\
  ProgressRequest.finalData (pr_step r ev) = ProgressRequest.finalData r.
Proof.
  intros D. destruct ev as [p | f | s |]; simpl.
  - unfold ProgressRequest.on_update. rewrite D. now split.
  - unfold ProgressRequest.on_complete. rewrite D. now split.
  - destruct (ProgressRequestFacts.settle_keeps s r) as (-> & -> & _).
    now split.
  - destruct (ProgressRequestFacts.resume_keeps
                (Some (Research.onStarted chatSessionId)) r)
      as (-> & -> & _).
    now split.
Qed.

(** [finalData] is written with [isDone], and a returned value is
    [finalData]: kept by every step. *)
Lemma pr_step_final (r : request_state) (ev : request_event) :
  (ProgressRequest.isDone r = true ->
   exists result, ProgressRequest.finalData r = Some result) ->
  (forall v,
      ProgressRequest.body r = ProgressRequest.returned v ->
      ProgressRequest.isDone r = true /\
      v = ProgressRequest.finalData r) ->
  (ProgressRequest.isDone (pr_step r ev) = true ->
   exists result,
     ProgressRequest.finalData (pr_step r ev) = Some result) /\
  (forall v,
      ProgressRequest.body (pr_step r ev) = ProgressRequest.returned v ->
      ProgressRequest.isDone (pr_step r ev) = true /\
      v = ProgressRequest.finalData (pr_step r ev)).
Proof.
  intros H1 H2.
  destruct r as [d fd b w cs iss]; simpl in *.
  destruct ev as [p | f | s |]; simpl.
  - unfold ProgressRequest.on_update; simpl.
    destruct d; simpl; auto.
  - unfold ProgressRequest.on_complete; simpl.
    destruct d; simpl; [auto|].
    split; [eauto|].
    intros v B. destruct (H2 v B) as [? _]. discriminate.
  - unfold ProgressRequest.settle; simpl.
    destruct b as [[?|]| | |]; simpl; auto.
    split; [exact H1 | discriminate].
  - unfold ProgressRequest.resume, ProgressRequest.condition_isDone,
      ProgressRequest.started; simpl.
    destruct b as [[[a|e]|]| | |]; simpl; auto.
    + destruct d; simpl; split; auto; try discriminate.
      intros v B. injection B as <-. now split.
    + split; [exact H1 | discriminate].
    + destruct d; simpl; split; auto; try discriminate.
      intros v B. injection B as <-. now split.
Qed.

Lemma posted_more (b b' : ledger) (x : search) :
  (exists extra, commands b' = commands b ++ extra) ->
  (unhandled b <> None -> unhandled b' <> None) ->
  posted b x -> posted b' x.
Proof.
  intros (extra & C) U. unfold Research.posted.
  destruct (callback x); auto.
  - intros H. rewrite C. apply in_or_app. now left.
  - intros (r & s & F & G & H). exists r, s.
    split; [exact F|]. split; [exact G|].
    rewrite C. apply in_or_app. now left.
  - intros (r & s & F & G & H). exists r, s.
    split; [exact F|]. split; [exact G|].
    rewrite C. apply in_or_app. now left.
Qed.

Lemma posted_later (b b' : ledger) (x : search) :
  later b b' -> posted b x -> posted b' x.
Proof.
  intros [(extra & C & _) U]. apply posted_more; [now exists extra | exact U].
Qed.

Lemma in_request_keeps ev b (x : search) :
  keeps b x (in_request ev b x).
Proof.
  unfold Research.keeps, Research.in_request. simpl.
  set (r := lend_request b (invocation x)).
  split; [|split].
  - exact (pr_step_world r ev).
  - intros (S1 & S2 & S3).
    destruct (pr_step_final r ev S1 S2) as [T1 T2].
    split; [exact T1|]. split; [exact T2|]. simpl.
    destruct (callback x) as [| finalRes | | | e];
      try exact I.
    + destruct S3 as [D ->].
      destruct (pr_step_when_done r ev D) as [-> ->]. now split.
    + now destruct (pr_step_when_done r ev S3).
    + now destruct (pr_step_when_done r ev S3).
  - intros (S1 & S2 & S3) P.
    pose proof (pr_step_world r ev) as L.
    pose proof (posted_later x L P) as Q.
    unfold Research.posted in *. simpl in *.
    destruct (callback x) as [| finalRes | | | e];
      try exact Q.
    + destruct (pr_step_when_done r ev S3) as [_ ->]. exact Q.
    + destruct (pr_step_when_done r ev S3) as [_ ->]. exact Q.
Qed.

Lemma keeps_same b (x x' : search) :
  (sound x -> sound x') ->
  (sound x -> posted b x -> posted b x') ->
  keeps b x (b, x').
Proof.
  intros H1 H2. split; [|split]; simpl; auto. apply later_refl.
Qed.

Lemma keeps_trans b (x : search) b1 (x1 : search) p :
  keeps b x (b1, x1) -> keeps b1 x1 p -> keeps b x p.
Proof.
  intros (L1 & S1 & P1) (L2 & S2 & P2). simpl in *.
  split; [exact (later_trans L1 L2)|]. split; auto.
Qed.

(** When the call of [progressReq] has returned or thrown, the callback
    goes on. *)
Lemma proceed_keeps b (x : search) :
  keeps b x (proceed chatSessionId (b, x)).
Proof.
  unfold Research.proceed.
  destruct (callback x) as [| finalRes | | | e] eqn:C;
    try (apply keeps_same; tauto).
  destruct (ProgressRequest.body (invocation x)) as [?| |v|e] eqn:B;
    try (apply keeps_same; tauto).
  - split; [apply later_ask|]. split; simpl.
    + unfold Research.sound. simpl. intros (S1 & S2 & _).
      destruct (S2 v B) as [D E].
      split; [exact S1|]. split; [exact S2|]. split; [exact D | exact E].
    + intros _ _. unfold Research.posted. simpl.
      apply in_or_app. right. now left.
  - split; [apply later_reject|]. split; simpl.
    + unfold Research.sound. simpl. tauto.
    + intros _ _. unfold Research.posted. simpl. discriminate.
Qed.

Lemma proceed_invocation (p : ledger * search) :
  invocation (snd (proceed chatSessionId p)) = invocation (snd p).
Proof.
  destruct p as [b x]. unfold Research.proceed. simpl.
  destruct (callback x); try reflexivity.
  now destruct (ProgressRequest.body (invocation x)).
Qed.

Lemma settle_search_keeps s b (x : search) :
  keeps b x (settle_search s b x).
Proof.
  unfold Research.settle_search.
  destruct (callback x) as [| finalRes | | | e] eqn:C;
    try (apply keeps_same; tauto).
  - destruct (ProgressRequest.body (invocation x)) as [[?|]| | |] eqn:B;
      try (apply keeps_same; tauto).
    destruct (in_request (ProgressRequest.Settle s) b x) as [b1 x1] eqn:E1.
    destruct (in_request ProgressRequest.Resume b1 x1) as [b2 x2] eqn:E2.
    apply keeps_trans with (b1 := b1) (x1 := x1);
      [rewrite <- E1; apply in_request_keeps|].
    apply keeps_trans with (b1 := b2) (x1 := x2);
      [rewrite <- E2; apply in_request_keeps | apply proceed_keeps].
  - destruct s as [r|e].
    + destruct (get (content finalRes) "summary") as [summary|] eqn:G.
      * split; [apply later_ask|]. split; simpl.
        -- unfold Research.sound. simpl. rewrite C. tauto.
        -- unfold Research.sound, Research.posted. simpl. rewrite C.
           intros (S1 & _ & D & F) _. destruct (S1 D) as (result & R).
           exists result, summary. split; [exact R|].
           rewrite F, R in G. simpl in G. split; [exact G|].
           apply in_or_app; right; now left.
      * split; [apply later_reject|].
        split; [unfold Research.sound; simpl; rewrite ?C; tauto|].
        intros _ _; unfold Research.posted; simpl; discriminate.
    + split; [apply later_reject|].
      split; [unfold Research.sound; simpl; rewrite ?C; tauto|].
      intros _ _; unfold Research.posted; simpl; discriminate.
  - destruct s as [r|e].
    + apply keeps_same;
        unfold Research.sound, Research.posted; simpl; rewrite ?C; tauto.
    + split; [apply later_reject|].
      split; [unfold Research.sound; simpl; rewrite ?C; tauto|].
      intros _ _; unfold Research.posted; simpl; discriminate.
Qed.

Lemma resume_search_keeps b (x : search) :
  keeps b x (resume_search b x).
Proof.
  unfold Research.resume_search.
  destruct (callback x) as [| finalRes | | | e] eqn:C;
    try (apply keeps_same; tauto).
  destruct (ProgressRequest.body (invocation x)) as [?| | |] eqn:B;
    try (apply keeps_same; tauto).
  destruct (in_request ProgressRequest.Resume b x) as [b2 x2] eqn:E2.
  apply keeps_trans with (b1 := b2) (x1 := x2);
    [rewrite <- E2; apply in_request_keeps | apply proceed_keeps].
Qed.

(** [Settle] and [Resume] leave [isDone] and [finalData] of the call as
    they are. *)
Lemma in_request_quiet ev b (x : search) :
  ProgressRequest.is_signal ev = false ->
  ProgressRequest.isDone (invocation (snd (in_request ev b x))) =
    ProgressRequest.isDone (invocation x) /\
  ProgressRequest.finalData (invocation (snd (in_request ev b x))) =
    ProgressRequest.finalData (invocation x).
Proof.
  destruct ev as [p | f | s |]; simpl; try discriminate; intros _.
  - now destruct (ProgressRequestFacts.settle_keeps s
                    (lend_request b (invocation x))) as (-> & -> & _).
  - now destruct (ProgressRequestFacts.resume_keeps
                    (Some (Research.onStarted chatSessionId))
                    (lend_request b (invocation x))) as (-> & -> & _).
Qed.

Lemma settle_search_quiet s b (x : search) :
  ProgressRequest.isDone (invocation (snd (settle_search s b x))) =
    ProgressRequest.isDone (invocation x) /\
  ProgressRequest.finalData (invocation (snd (settle_search s b x))) =
    ProgressRequest.finalData (invocation x).
Proof.
  unfold Research.settle_search.
  destruct (callback x) as [| finalRes | | | e]; try (now split).
  - destruct (ProgressRequest.body (invocation x)) as [[?|]| | |];
      try (now split).
    destruct (in_request (ProgressRequest.Settle s) b x) as [b1 x1] eqn:E1.
    rewrite proceed_invocation.
    destruct (@in_request_quiet ProgressRequest.Resume b1 x1 eq_refl)
      as [-> ->].
    replace x1 with (snd (in_request (ProgressRequest.Settle s) b x))
      by now rewrite E1.
    now apply in_request_quiet.
  - destruct s; [|now split].
    now destruct (get (content finalRes) "summary").
  - now destruct s.
Qed.

Lemma resume_search_quiet b (x : search) :
  ProgressRequest.isDone (invocation (snd (resume_search b x))) =
    ProgressRequest.isDone (invocation x) /\
  ProgressRequest.finalData (invocation (snd (resume_search b x))) =
    ProgressRequest.finalData (invocation x).
Proof.
  unfold Research.resume_search.
  destruct (callback x) as [| finalRes | | | e]; try (now split).
  destruct (ProgressRequest.body (invocation x)) as [?| | |];
    try (now split).
  rewrite proceed_invocation. now apply in_request_quiet.
Qed.

(** How a step changes what the workflow holds. *)
Lemma step_now (st st' : state) (ev : event) :
  over st || stuck st = false ->
  step st ev = Some st' ->
  match ev with
  | Condition cond => now st' = onSubmission cond (now st)
  | Convinced _ => now st' = now st
  | Progress prog =>
      now st' = on_search (List.length (searches (now st)) - 1)
                  (in_request (ProgressRequest.Update prog)) (now st)
  | Complete result =>
      now st' = on_search (List.length (searches (now st)) - 1)
                  (in_request (ProgressRequest.Complete result)) (now st)
  | Settle Main _ => now st' = now st
  | Resume Main =>
      now st' = now st \/
      now st' = {| book := ask (PostChatMessage chatSessionId
                                  farewell_message) (book (now st));
                   searches := searches (now st) |}
  | Settle (Search k) s => now st' = on_search k (settle_search s) (now st)
  | Resume (Search k) => now st' = on_search k resume_search (now st)
  | Settle (Message i) s =>
      now st' = {| book := settle_message i s (book (now st));
                   searches := searches (now st) |}
  | Resume (Message _) => now st' = now st
  end.
Proof.
  unfold Research.step. intros ->.
  destruct ev as [cond | msg | prog | result | [|k|i] s | [|k|i]]; intros H.
  - unfold deliver_condition in H.
    destruct (loop st) as [l|]; [|discriminate].
    now injection H as <-.
  - unfold in_loop in H. destruct (loop st) as [l|]; [|discriminate].
    now injection H as <-.
  - unfold to_latest_request in H.
    destruct (searches (now st)) eqn:E; [discriminate|].
    now injection H as <-.
  - unfold to_latest_request in H.
    destruct (searches (now st)) eqn:E; [discriminate|].
    now injection H as <-.
  - injection H as <-. unfold settle_main.
    destruct (main st), s; reflexivity.
  - now injection H as <-.
  - now injection H as <-.
  - injection H as <-. unfold resume_main.
    destruct (main st); try (now left).
    destruct (loop st) as [l|] eqn:L; [|now left].
    destruct (IterativeLoopFacts.il_effects_resume
                (lend_loop (now st) l)) as (_ & W & _).
    simpl in *.
    destruct (IterativeLoop.body
                (IterativeLoop.resume (lend_loop (now st) l))); simpl.
    + left. exact W.
    + right. now rewrite W.
  - now injection H as <-.
  - now injection H as <-.
Qed.

(** What a step does to the ledger and to the searches made before
    it. *)
Lemma step_later (st st' : state) (ev : event) :
  step st ev = Some st' ->
  List.length (searches (now st)) <= List.length (searches (now st')) /\
  (unhandled (book (now st)) <> None ->
   unhandled (book (now st')) <> None) /\
  exists extra, commands (book (now st')) =
                commands (book (now st)) ++ extra.
Proof.
  intros H.
  destruct (over st || stuck st) eqn:O.
  { rewrite (halted_step st ev O) in H. injection H as <-.
    split; [lia|]. split; [auto|]. exists []. now rewrite app_nil_r. }
  pose proof (step_now st ev O H) as E.
  assert (forall b' ss,
            later (book (now st)) b' ->
            List.length (searches (now st)) <= List.length ss ->
            now st' = {| book := b'; searches := ss |} ->
            List.length (searches (now st)) <=
              List.length (searches (now st')) /\
            (unhandled (book (now st)) <> None ->
             unhandled (book (now st')) <> None) /\
            exists extra, commands (book (now st')) =
                          commands (book (now st)) ++ extra) as K.
  { intros b' ss [(extra & C & _) U] L ->. simpl.
    split; [exact L|]. split; [exact U|]. now exists extra. }
  assert (forall j f,
            (forall b y, keeps b y (f b y)) ->
            now st' = on_search j f (now st) ->
            List.length (searches (now st)) <=
              List.length (searches (now st')) /\
            (unhandled (book (now st)) <> None ->
             unhandled (book (now st')) <> None) /\
            exists extra, commands (book (now st')) =
                          commands (book (now st)) ++ extra) as J.
  { intros j f F W.
    apply (K (book (on_search j f (now st)))
             (searches (on_search j f (now st)))).
    - rewrite on_search_book.
      destruct (nth_error (searches (now st)) j) as [y|];
        [apply F | apply later_refl].
    - rewrite on_search_length. lia.
    - rewrite W. now destruct (on_search j f (now st)). }
  destruct ev as [cond | msg | prog | result | [|j|i] s | [|j|i]];
    try (rewrite E; split; [lia|]; split; [auto|];
         exists []; now rewrite app_nil_r);
    try (revert E; apply J; intros b y;
         first [apply in_request_keeps | apply settle_search_keeps
               | apply resume_search_keeps]).
  - rewrite E. unfold Research.onSubmission.
    destruct (get cond "request") as [request|]; simpl.
    + rewrite length_app. split; [lia|]. split; [auto|]. now eexists.
    + split; [lia|]. split; [discriminate|].
      exists []. now rewrite app_nil_r.
  - revert E. apply K; [apply later_settle_message | lia].
  - destruct E as [E | E]; rewrite E.
    + split; [lia|]. split; [auto|]. exists []. now rewrite app_nil_r.
    + simpl. split; [lia|]. split; [auto|]. now eexists.
Qed.

(** Every search of a run is sound and has left with the host what it
    should. *)
Lemma good_step (st st' : state) (ev : event) :
  (forall k x, nth_error (searches (now st)) k = Some x ->
               sound x /\ posted (book (now st)) x) ->
  step st ev = Some st' ->
  forall k x, nth_error (searches (now st')) k = Some x ->
              sound x /\ posted (book (now st')) x.
Proof.
  intros G H.
  destruct (over st || stuck st) eqn:O.
  { rewrite (halted_step st ev O) in H. now injection H as <-. }
  assert (forall j f,
            (forall b y, keeps b y (f b y)) ->
            forall k x,
              nth_error (searches (on_search j f (now st))) k = Some x ->
              sound x /\ posted (book (on_search j f (now st))) x)
    as K.
  { intros j f F k x N.
    rewrite on_search_nth in N. rewrite on_search_book.
    destruct (Nat.eqb_spec k j) as [->|D].
    - destruct (nth_error (searches (now st)) j) as [y|] eqn:E;
        [|discriminate].
      injection N as <-. destruct (G j y E) as [S P].
      destruct (F (book (now st)) y) as (_ & F2 & F3). auto.
    - destruct (G k x N) as [S P]. split; [exact S|].
      destruct (nth_error (searches (now st)) j) as [y|]; [|exact P].
      destruct (F (book (now st)) y) as (L & _).
      exact (posted_later x L P). }
  pose proof (step_now st ev O H) as E.
  destruct ev as [cond | msg | prog | result | [|j|i] s | [|j|i]];
    try (rewrite E; exact G);
    try (rewrite E; apply K; intros b y;
         first [apply in_request_keeps | apply settle_search_keeps
               | apply resume_search_keeps]).
  - rewrite E. unfold Research.onSubmission.
    destruct (get cond "request") as [request|]; simpl.
    + intros k x N.
      destruct (Nat.lt_ge_cases k (List.length (searches (now st))))
        as [L | L].
      * rewrite nth_error_app1 in N by exact L.
        destruct (G k x N) as [S P]. split; [exact S|].
        apply (@posted_more (book (now st)) _ x);
          [now eexists | auto | exact P].
      * rewrite nth_error_app2 in N by exact L.
        destruct (k - List.length (searches (now st))) as [|n];
          [|destruct n; discriminate].
        injection N as <-. unfold Research.sound, Research.posted. simpl.
        repeat split; try discriminate.
    + intros k x N. destruct (G k x N) as [S P]. split; [exact S|].
      exact (posted_later x (later_reject (book (now st)) type_error) P).
  - rewrite E. simpl. intros k x N. destruct (G k x N) as [S P].
    split; [exact S|].
    exact (posted_later x (later_settle_message i s (book (now st))) P).
  - destruct E as [E | E]; rewrite E; [exact G|].
    simpl. intros k x N. destruct (G k x N) as [S P].
    split; [exact S|].
    exact (posted_later x (later_ask (book (now st)) farewell_message) P).
Qed.

Lemma good_run (tr : list event) (st' : state) :
  run (relifeResearchWorkflow chatSessionId) tr = Some st' ->
  forall k x, nth_error (searches (now st')) k = Some x ->
              sound x /\ posted (book (now st')) x.
Proof.
  apply (run_invariant
           (fun st => forall k x,
                nth_error (searches (now st)) k = Some x ->
                sound x /\ posted (book (now st)) x)).
  - intros st ev st1. apply good_step.
  - intros k x N. destruct k; discriminate.
Qed.

(** A step that leaves the workflow running asks for a search exactly
    when it is the delivery of a condition, and that condition has a
    [request] to read. *)
Lemma step_counts (st st' : state) (ev : event) :
  over st || stuck st = false ->
  step st ev = Some st' ->
  stuck st' = false ->
  searches_started (commands (book (now st'))) =
    searches_started (commands (book (now st))) ++
    map search_args (conditions [ev]) /\
  List.length (searches (now st')) =
    List.length (searches (now st)) + List.length (conditions [ev]) /\
  (forall cond, In cond (conditions [ev]) -> get cond "request" <> None).
Proof.
  intros O H T. pose proof (step_now st ev O H) as E.
  assert (forall j f,
            (forall b y, keeps b y (f b y)) ->
            searches_started (commands (book (on_search j f (now st)))) =
              searches_started (commands (book (now st))) ++ [] /\
            List.length (searches (on_search j f (now st))) =
              List.length (searches (now st)) + 0 /\
            (forall cond : value, In cond [] -> get cond "request" <> None))
    as K.
  { intros j f F. rewrite on_search_length, on_search_book.
    split; [|split; [lia | intros cond []]]. rewrite app_nil_r.
    destruct (nth_error (searches (now st)) j) as [y|]; [|reflexivity].
    destruct (F (book (now st)) y) as (((extra & -> & X) & _) & _).
    now rewrite searches_started_app, X, app_nil_r. }
  destruct ev as [cond | msg | prog | result | [|j|i] s | [|j|i]]; simpl;
    try (rewrite E, app_nil_r;
         split; [reflexivity | split; [lia | intros cond []]]);
    try (rewrite E; apply K; intros b y;
         first [apply in_request_keeps | apply settle_search_keeps
               | apply resume_search_keeps]).
  - unfold Research.stuck in T. rewrite E in T |- *.
    unfold Research.onSubmission, search_args, get_optional in *.
    destruct (get cond "request") as [request|] eqn:G; simpl in *;
      [|discriminate].
    rewrite searches_started_app, length_app. simpl.
    split; [reflexivity|]. split; [reflexivity|].
    intros c [<- | []]. rewrite G. discriminate.
  - rewrite E. simpl.
    destruct (later_settle_message i s (book (now st)))
      as [(extra & -> & X) _].
    rewrite searches_started_app, X.
    split; [reflexivity | split; [lia | intros cond []]].
  - destruct E as [E | E]; rewrite E; simpl.
    + rewrite app_nil_r. split; [reflexivity | split; [lia|intros c []]].
    + rewrite searches_started_app. simpl.
      split; [reflexivity | split; [lia | intros c []]].
Qed.

Lemma run_counts (tr : list event) :
  forall st st' : state,
    run st tr = Some st' ->
    over st' || stuck st' = false ->
    searches_started (commands (book (now st'))) =
      searches_started (commands (book (now st))) ++
      map search_args (conditions tr) /\
    List.length (searches (now st')) =
      List.length (searches (now st)) + List.length (conditions tr) /\
    (forall cond, In cond (conditions tr) -> get cond "request" <> None).
Proof.
  induction tr as [|ev tr IH]; intros st st' R O; simpl in R.
  - injection R as <-. simpl. rewrite app_nil_r.
    split; [reflexivity | split; [lia | intros cond []]].
  - destruct (step st ev) as [st1|] eqn:E; [|discriminate].
    destruct (IH st1 st' R O) as (I1 & I2 & I3).
    assert (over st || stuck st = false) as O0.
    { apply (@halted_kept (ev :: tr) st st');
        [simpl; now rewrite E | exact O]. }
    pose proof (@halted_kept tr st1 st' R O) as O1.
    apply orb_false_iff in O1. destruct O1 as [_ T1].
    destruct (step_counts st ev O0 E T1) as (S1 & S2 & S3).
    rewrite I1, I2, S1, S2.
    assert (conditions (ev :: tr) = conditions [ev] ++ conditions tr) as C.
    { destruct ev; reflexivity. }
    rewrite C, length_app, map_app, <- app_assoc.
    split; [reflexivity|]. split; [lia|].
    intros cond M. apply in_app_or in M. destruct M; auto.
Qed.

Lemma get_None (v : value) (key : string) :
  get v key = None <-> v = Undefined \/ v = Null.
Proof.
  destruct v; simpl; split;
    try discriminate; try (intros [H | H]; discriminate); auto.
Qed.


(** A search that is not the latest and has not got its completion
    signal stays so. *)
Lemma orphan_step (k : nat) (st st' : state) (ev : event) :
  (exists x, nth_error (searches (now st)) k = Some x /\
             ProgressRequest.isDone (invocation x) = false /\
             sound x) ->
  S k < List.length (searches (now st)) \/ over st || stuck st = true ->
  step st ev = Some st' ->
  (exists x, nth_error (searches (now st')) k = Some x /\
             ProgressRequest.isDone (invocation x) = false /\
             sound x) /\
  (S k < List.length (searches (now st')) \/ over st' || stuck st' = true).
Proof.
  intros (x & N & D & Sx) L H.
  destruct (over st || stuck st) eqn:O.
  { rewrite (halted_step st ev O) in H. injection H as <-.
    split; [now exists x | now right]. }
  destruct L as [L | L]; [|discriminate].
  pose proof (step_now st ev O H) as E.
  assert (forall j f,
            (forall b y, keeps b y (f b y)) ->
            (j = k -> forall b y,
               ProgressRequest.isDone (invocation (snd (f b y))) =
               ProgressRequest.isDone (invocation y)) ->
            (exists x', nth_error (searches (on_search j f (now st))) k
                        = Some x' /\
               ProgressRequest.isDone (invocation x') = false /\
               sound x') /\
            (S k < List.length (searches (on_search j f (now st))) \/
             over st' || stuck st' = true)) as K.
  { intros j f F Q. rewrite on_search_length, on_search_nth.
    split; [|now left].
    destruct (Nat.eqb_spec k j) as [<-|_]; [|now exists x].
    rewrite N. eexists. split; [reflexivity|].
    rewrite (Q eq_refl). split; [exact D|].
    now apply (F (book (now st)) x). }
  destruct ev as [cond | msg | prog | result | [|j|i] s | [|j|i]];
    try (rewrite E; split; [now exists x | now left]).
  - rewrite E. unfold Research.onSubmission.
    destruct (get cond "request"); simpl.
    + rewrite length_app. simpl. split; [|left; lia].
      exists x. rewrite nth_error_app1 by lia. auto.
    + split; [now exists x | now left].
  - rewrite E. apply K; [intros b y; apply in_request_keeps|]. lia.
  - rewrite E. apply K; [intros b y; apply in_request_keeps|]. lia.
  - rewrite E. apply K; [intros b y; apply settle_search_keeps|].
    intros _ b y. apply (proj1 (settle_search_quiet s b y)).
  - destruct E as [E | E]; rewrite E; (split; [now exists x | now left]).
  - rewrite E. apply K; [intros b y; apply resume_search_keeps|].
    intros _ b y. apply (proj1 (resume_search_quiet b y)).
Qed.

Lemma orphan_run (k : nat) (tr : list event) :
  forall st st' : state,
    (exists x, nth_error (searches (now st)) k = Some x /\
               ProgressRequest.isDone (invocation x) = false /\
               sound x) ->
    S k < List.length (searches (now st)) \/ over st || stuck st = true ->
    run st tr = Some st' ->
    exists x, nth_error (searches (now st')) k = Some x /\
              ProgressRequest.isDone (invocation x) = false /\
              sound x.
Proof.
  induction tr as [|ev tr IH]; intros st st' X L R; simpl in R.
  - now injection R as <-.
  - destruct (step st ev) as [st1|] eqn:E; [|discriminate].
    destruct (@orphan_step k st st1 ev X L E) as [X1 L1].
    exact (IH st1 st' X1 L1 R).
Qed.


(** An invariant that speaks of the events so far. *)
Lemma run_invariant_tr (P : list event -> state -> Prop) (st0 : state) :
  P [] st0 ->
  (forall tr st ev st',
      P tr st -> step st ev = Some st' -> P (tr ++ [ev]) st') ->
  forall tr st', run st0 tr = Some st' -> P tr st'.
Proof.
  intros H0 HP tr. induction tr as [|ev tr IH] using rev_ind; intros st' R.
  - simpl in R. now injection R as <-.
  - rewrite wf_run_app in R.
    destruct (run st0 tr) as [st|] eqn:E; [|discriminate].
    simpl in R. destruct (step st ev) as [st1|] eqn:E1; [|discriminate].
    injection R as <-. exact (HP tr st ev st1 (IH st eq_refl) E1).
Qed.

(** What a search holds in [finalData] was delivered by a completion
    signal. *)
Lemma final_was_delivered (tr : list event) (st' : state) :
  run (relifeResearchWorkflow chatSessionId) tr = Some st' ->
  forall k x result,
    nth_error (searches (now st')) k = Some x ->
    ProgressRequest.finalData (invocation x) = Some result ->
    In (Complete result) tr.
Proof.
  apply (run_invariant_tr
           (fun tr st => forall k x result,
                nth_error (searches (now st)) k = Some x ->
                ProgressRequest.finalData (invocation x) = Some result ->
                In (Complete result) tr)).
  { intros k x result N. destruct k; discriminate. }
  clear tr st'. intros tr st ev st' IH H k x result N F.
  apply in_or_app.
  destruct (over st || stuck st) eqn:O.
  { rewrite (halted_step st ev O) in H. injection H as <-.
    left. exact (IH k x result N F). }
  pose proof (step_now st ev O H) as E.
  assert (forall j f,
            (forall b y,
                ProgressRequest.finalData (invocation (snd (f b y))) =
                ProgressRequest.finalData (invocation y)) ->
            now st' = on_search j f (now st) ->
            In (Complete result) tr) as K.
  { intros j f Q W. rewrite W, on_search_nth in N.
    destruct (Nat.eqb_spec k j) as [->|_]; [|exact (IH k x result N F)].
    destruct (nth_error (searches (now st)) j) as [y|] eqn:Y;
      [|discriminate].
    injection N as <-. rewrite Q in F. exact (IH j y result Y F). }
  destruct ev as [cond | msg | prog | res | [|j|i] s | [|j|i]].
  - left. rewrite E in N. unfold Research.onSubmission in N.
    destruct (get cond "request"); simpl in N;
      [|exact (IH k x result N F)].
    destruct (Nat.lt_ge_cases k (List.length (searches (now st))))
      as [L | L].
    + rewrite nth_error_app1 in N by exact L. exact (IH k x result N F).
    + rewrite nth_error_app2 in N by exact L.
      destruct (k - List.length (searches (now st))) as [|n];
        [|destruct n; discriminate].
      injection N as <-. discriminate.
  - left. rewrite E in N. exact (IH k x result N F).
  - left. revert E. apply K. intros b y. simpl.
    unfold ProgressRequest.on_update. simpl.
    now destruct (ProgressRequest.isDone (invocation y)).
  - rewrite E, on_search_nth in N.
    destruct (Nat.eqb_spec k (List.length (searches (now st)) - 1))
      as [->|_]; [|left; exact (IH k x result N F)].
    destruct (nth_error (searches (now st))
                (List.length (searches (now st)) - 1)) as [y|] eqn:Y;
      [|discriminate].
    injection N as <-. simpl in F.
    unfold ProgressRequest.on_complete in F. simpl in F.
    destruct (ProgressRequest.isDone (invocation y)); simpl in F.
    + left. exact (IH _ y result Y F).
    + right. injection F as <-. now left.
  - left. rewrite E in N. exact (IH k x result N F).
  - left. revert E. apply K. intros b y.
    apply (proj2 (settle_search_quiet s b y)).
  - left. rewrite E in N. exact (IH k x result N F).
  - left. destruct E as [E | E]; rewrite E in N; exact (IH k x result N F).
  - left. revert E. apply K. intros b y.
    apply (proj2 (resume_search_quiet b y)).
  - left. rewrite E in N. exact (IH k x result N F).
Qed.


Lemma convinced_more (tr : list event) (ev : event) :
  existsb is_Convinced tr = true ->
  existsb is_Convinced (tr ++ [ev]) = true.
Proof. intros H. rewrite existsb_app, H. reflexivity. Qed.

(** The loop of the workflow is finished only by a finish signal, and the
    workflow function goes past line 142 only when the loop has
    returned. *)
Lemma end_needs_finish (tr : list event) (st' : state) :
  run (relifeResearchWorkflow chatSessionId) tr = Some st' ->
  (forall l, loop st' = Some l ->
     (IterativeLoop.isDone l = true -> existsb is_Convinced tr = true) /\
     (IterativeLoop.body l = IterativeLoop.returned ->
      IterativeLoop.isDone l = true)) /\
  match main st' with
  | await_farewell_message => existsb is_Convinced tr = true
  | returned => existsb is_Convinced tr = true
  | _ => True
  end.
Proof.
  apply (run_invariant_tr
    (fun tr st =>
       (forall l, loop st = Some l ->
          (IterativeLoop.isDone l = true ->
           existsb is_Convinced tr = true) /\
          (IterativeLoop.body l = IterativeLoop.returned ->
           IterativeLoop.isDone l = true)) /\
       match main st with
       | await_farewell_message => existsb is_Convinced tr = true
       | returned => existsb is_Convinced tr = true
       | _ => True
       end)).
  { split; [intros l H; discriminate | exact I]. }
  clear tr st'. intros tr st ev st' [IL IM] H.
  assert ((forall l, loop st = Some l ->
            (IterativeLoop.isDone l = true ->
             existsb is_Convinced (tr ++ [ev]) = true) /\
            (IterativeLoop.body l = IterativeLoop.returned ->
             IterativeLoop.isDone l = true)) /\
          match main st with
          | await_farewell_message =>
              existsb is_Convinced (tr ++ [ev]) = true
          | returned => existsb is_Convinced (tr ++ [ev]) = true
          | _ => True
          end) as Same.
  { split.
    - intros l L. destruct (IL l L) as [A B].
      split; [intros D; apply convinced_more; auto | exact B].
    - destruct (main st); auto using convinced_more. }
  unfold Research.step in H. destruct (over st || stuck st) eqn:O.
  { injection H as <-. exact Same. }
  destruct Same as [S1 S2].
  destruct ev as [cond | msg | prog | res | [|j|i] s | [|j|i]].
  - unfold deliver_condition in H.
    destruct (loop st) as [l|] eqn:L; [|discriminate].
    injection H as <-. simpl. split; [|exact S2].
    intros l' E. injection E as <-.
    destruct cond; simpl; apply (S1 l eq_refl).
  - unfold in_loop in H. destruct (loop st) as [l|] eqn:L; [|discriminate].
    injection H as <-. simpl.
    assert (existsb is_Convinced (tr ++ [Convinced msg]) = true) as C.
    { rewrite existsb_app. simpl. apply orb_true_r. }
    split; [|destruct (main st); auto].
    intros l' E. injection E as <-. simpl. auto.
  - unfold to_latest_request in H.
    destruct (searches (now st)); [discriminate|].
    injection H as <-. now split.
  - unfold to_latest_request in H.
    destruct (searches (now st)); [discriminate|].
    injection H as <-. now split.
  - injection H as <-. unfold settle_main.
    revert S2. destruct (main st) eqn:M; intros S2; destruct s as [r|e];
      simpl; rewrite ?M; try (split; [exact S1 | auto]; fail).
    split; [|exact I].
    intros l E. injection E as <-. simpl. split; discriminate.
  - injection H as <-. now split.
  - injection H as <-. now split.
  - injection H as <-. unfold resume_main.
    revert S2. destruct (main st) eqn:M; intros S2;
      try (simpl; rewrite ?M; split; assumption).
    destruct (loop st) as [l|] eqn:L;
      [|simpl; rewrite ?M, ?L; split; assumption].
    set (l' := IterativeLoop.step (Some onSubmission)
                 (lend_loop (now st) l) IterativeLoop.Resume).
    destruct (S1 l eq_refl) as [A C].
    assert (IterativeLoop.isDone l' = IterativeLoop.isDone l /\
            (IterativeLoop.body l' = IterativeLoop.returned ->
             IterativeLoop.isDone l = true)) as [D R'].
    { unfold l'. simpl. rewrite IterativeLoopFacts.resume_cases. simpl.
      destruct (IterativeLoop.body l) eqn:B; simpl.
      - destruct (IterativeLoop.isDone l) eqn:D; simpl; [now split|].
        destruct (IterativeLoop.lastSubmission l); simpl; rewrite ?B;
          split; auto; discriminate.
      - rewrite B. split; auto. }
    destruct (IterativeLoop.body l') eqn:B'; simpl.
    + split; [|exact I]. intros l0 E. injection E as <-.
      rewrite D. split; [exact A | intros; congruence].
    + split; [|exact (A (R' eq_refl))].
      intros l0 E. injection E as <-. rewrite D.
      split; [exact A | intros _; exact (R' eq_refl)].
  - injection H as <-. now split.
  - injection H as <-. now split.
Qed.

(** X10.  In a run in which every signal finds its handler set, the
    workflow asks for the farewell message of line 143, and returns, only
    after a finish signal has been delivered.  It does not wait for its
    searches: with a search going on, a finish signal and the resumption
    of the loop end the workflow, and the search is left at line 129
    without its completion signal. *)
Theorem workflow_ends_on_finish_only :
  (forall (tr : list event) (st' : state),
      run (relifeResearchWorkflow chatSessionId) tr = Some st' ->
      main st' = returned \/ main st' = await_farewell_message ->
      existsb is_Convinced tr = true) /\
  (forall (request msg : value) (r1 r2 : string),
      exists st' x,
        run (relifeResearchWorkflow chatSessionId)
          [Settle Main (Fulfilled r1);
           Condition (Obj [("request"%string, request)]);
           Convinced msg; Resume Main;
           Settle Main (Fulfilled r2)] = Some st' /\
        main st' = returned /\
        commands (book (now st')) =
          [PostChatMessage chatSessionId waiting_message;
           StartSearchActivity (Obj [("request"%string, request)]);
           PostChatMessage chatSessionId farewell_message] /\
        searches (now st') = [x] /\
        callback x = await_progressReq /\
        ProgressRequest.isDone (invocation x) = false).
Proof.
  split.
  - intros tr st' R M.
    destruct (@end_needs_finish tr st' R) as [_ E].
    destruct M as [M | M]; rewrite M in E; exact E.
  - intros request msg r1 r2. eexists. eexists.
    split; [reflexivity|]. repeat split.
Qed.

End Facts.




Lemma workflow_ends_on_finish_only_witness :
  existsb is_Convinced
    ([Settle Main (Fulfilled "ok"%string);
      Convinced (Str "bye"); Resume Main]
       : list (event string string)) = true.
Proof.
  eapply (proj1 (@workflow_ends_on_finish_only
                   string JsText.to_string string "TypeError"%string
                   "chat-1"%string)).
  - reflexivity.
  - right. reflexivity.
Defined.

End ResearchFacts.

(** ** The HTTP endpoints and the command-line clients *)

Module ServerFacts.
Import Js Server.
Section Facts.

Variable number : Type.
Variable zero_or_NaN : number -> bool.
Variable Failure : Type.
Variable TASK_QUEUE_NAME : string.
Variable describe : thrown Failure -> string.
Variable client : client_call number -> option Failure.

Local Notation value := (Js.value number).
Local Notation truthy := (Js.truthy zero_or_NaN).
Local Notation handle :=
  (Server.handle zero_or_NaN TASK_QUEUE_NAME describe client).

Lemma call_then_answer_cases (c : client_call number) (body : value) :
  (client c = None /\
   call_then_answer describe client c body =
   {| calls := [c]; answer := {| status := 200; json := body |} |}) \/
  (exists f, client c = Some f /\
     call_then_answer describe client c body =
     failed describe [c] (ClientError f)).
Proof.
  unfold call_then_answer. destruct (client c) as [f|]; [right | left].
  - now exists f.
  - now split.
Qed.

(** X11.  Every endpoint makes at most one call to the Temporal client,
    and its answer says what happened: 200 exactly when one call was made
    and the client accepted it, 400 only when no call was made, 500 when
    the body was [undefined] or [null] (no call made) or when the client
    refused the one call. *)
Theorem endpoints_answer_by_what_they_did (e : endpoint) (body : value) :
  (status (answer (handle e body)) = 200 /\
   exists c, calls (handle e body) = [c] /\ client c = None) \/
  (status (answer (handle e body)) = 400 /\ calls (handle e body) = []) \/
  (status (answer (handle e body)) = 500 /\
   ((calls (handle e body) = [] /\ (body = Undefined \/ body = Null)) \/
    exists c f, calls (handle e body) = [c] /\ client c = Some f)).
Proof.
  assert (forall c b,
    (status (answer (call_then_answer describe client c b)) = 200 /\
     exists c', calls (call_then_answer describe client c b) = [c'] /\
                client c' = None) \/
    (status (answer (call_then_answer describe client c b)) = 400 /\
     calls (call_then_answer describe client c b) = []) \/
    (status (answer (call_then_answer describe client c b)) = 500 /\
     ((calls (call_then_answer describe client c b) = [] /\
       (body = Undefined \/ body = Null)) \/
      exists c' f, calls (call_then_answer describe client c b) = [c'] /\
                   client c' = Some f))) as K.
  { intros c b.
    destruct (call_then_answer_cases c b) as [[A ->] | (f & A & ->)].
    - left. split; [reflexivity|]. now exists c.
    - right; right. split; [reflexivity|]. right. now exists c, f. }
  destruct e as [timestamp | | | |]; simpl.
  - unfold start. destruct body; simpl;
      try (right; right; split; [reflexivity | left; split; auto]);
      try (right; left; now split).
    destruct (Js.truthy zero_or_NaN (lookup "chatSessionId" fields)); simpl;
      [apply K | right; left; now split].
  - unfold request_research. destruct body; simpl;
      try (right; right; split; [reflexivity | left; split; auto]);
      try (right; left; now split).
    destruct (Js.truthy zero_or_NaN (lookup "workflowId" fields)); simpl;
      [|right; left; now split].
    destruct (Js.truthy zero_or_NaN
                (get_optional (lookup "condition" fields) "request")); simpl;
      [apply K | right; left; now split].
  - unfold submit_research_progress. destruct body; simpl;
      try (right; right; split; [reflexivity | left; split; auto]);
      try (right; left; now split).
    destruct (Js.truthy zero_or_NaN (lookup "workflowId" fields)); simpl;
      [|right; left; now split].
    destruct (Js.truthy zero_or_NaN (lookup "message" fields)); simpl;
      [apply K | right; left; now split].
  - unfold submit_research_result. destruct body; simpl;
      try (right; right; split; [reflexivity | left; split; auto]);
      try (right; left; now split).
    destruct (Js.truthy zero_or_NaN (lookup "workflowId" fields)); simpl;
      [|right; left; now split].
    destruct (Js.truthy zero_or_NaN (lookup "summary" fields)); simpl;
      [apply K | right; left; now split].
  - unfold convinced. destruct body; simpl;
      try (right; right; split; [reflexivity | left; split; auto]);
      try (right; left; now split).
    destruct (Js.truthy zero_or_NaN (lookup "workflowId" fields)); simpl;
      [apply K | right; left; now split].
Qed.

Lemma call_then_answer_calls (c : client_call number) (body : value) :
  calls (call_then_answer describe client c body) = [c].
Proof. unfold call_then_answer. now destruct (client c). Qed.

(** X12.  A signal the server sends carries what the handler checked:
    the workflow id is truthy; a condition is the [condition] of the body
    as it came, with a truthy [request]; a progress report is
    [{ message }] with the truthy [message] of the body, never the
    fallback text of the handler; a result is [{ summary }] with a truthy
    [summary]; the payload of the finish signal is truthy, and is the
    fallback text exactly when [finishMsg] is missing or falsy. *)
Theorem signals_carry_what_was_checked
    (e : endpoint) (body wid payload : value) (def : SignalDefinition) :
  In (wid, def, payload) (signals_sent (calls (handle e body))) ->
  wid = get_optional body "workflowId" /\
  truthy wid = true /\
  ((def = Research.userConditionSignal /\
    payload = get_optional body "condition" /\
    truthy (get_optional payload "request") = true) \/
   (def = Research.searchProgressSignal /\
    payload = Obj [("message"%string, get_optional body "message")] /\
    truthy (get_optional body "message") = true) \/
   (def = Research.searchCompleteSignal /\
    payload = Obj [("summary"%string, get_optional body "summary")] /\
    truthy (get_optional body "summary") = true) \/
   (def = Research.userConvincedSignal /\
    truthy payload = true /\
    (payload = get_optional body "finishMsg" \/
     (truthy (get_optional body "finishMsg") = false /\
      payload = Str "User decided to finish")))).
Proof.
  destruct e as [timestamp | | | |]; simpl.
  - unfold start. destruct (get body "chatSessionId") as [v|];
      [|contradiction].
    destruct (Js.truthy zero_or_NaN v); simpl; [|contradiction].
    rewrite call_then_answer_calls. simpl. contradiction.
  - unfold request_research, get_optional.
    destruct body; simpl; try contradiction.
    destruct (Js.truthy zero_or_NaN (lookup "workflowId" fields)) eqn:W;
      simpl; [|contradiction].
    destruct (Js.truthy zero_or_NaN
                (match get (lookup "condition" fields) "request" with
                 | Some x => x
                 | None => Undefined
                 end)) eqn:R; simpl; [|contradiction].
    rewrite call_then_answer_calls. simpl.
    intros [H | []]. injection H as <- <- <-.
    split; [reflexivity|]. split; [exact W|]. left. now repeat split.
  - unfold submit_research_progress, get_optional.
    destruct body; simpl; try contradiction.
    destruct (Js.truthy zero_or_NaN (lookup "workflowId" fields)) eqn:W;
      simpl; [|contradiction].
    destruct (Js.truthy zero_or_NaN (lookup "message" fields)) eqn:M;
      simpl; [|contradiction].
    rewrite call_then_answer_calls. simpl.
    intros [H | []]. injection H as <- <- <-.
    split; [reflexivity|]. split; [exact W|]. right; left.
    unfold Js.or_else. rewrite M. now repeat split.
  - unfold submit_research_result, get_optional.
    destruct body; simpl; try contradiction.
    destruct (Js.truthy zero_or_NaN (lookup "workflowId" fields)) eqn:W;
      simpl; [|contradiction].
    destruct (Js.truthy zero_or_NaN (lookup "summary" fields)) eqn:M;
      simpl; [|contradiction].
    rewrite call_then_answer_calls. simpl.
    intros [H | []]. injection H as <- <- <-.
    split; [reflexivity|]. split; [exact W|]. right; right; left.
    now repeat split.
  - unfold convinced, get_optional.
    destruct body; simpl; try contradiction.
    destruct (Js.truthy zero_or_NaN (lookup "workflowId" fields)) eqn:W;
      simpl; [|contradiction].
    rewrite call_then_answer_calls. simpl.
    intros [H | []]. injection H as <- <- <-.
    split; [reflexivity|]. split; [exact W|]. right; right; right.
    split; [reflexivity|]. unfold Js.or_else.
    destruct (Js.truthy zero_or_NaN (lookup "finishMsg" fields)) eqn:F.
    + split; [exact F | now left].
    + split; [reflexivity | right; now split].
Qed.

End Facts.

Section Clients.

Variable number : Type.
Variable zero_or_NaN : number -> bool.
Variable Failure : Type.
Variable TASK_QUEUE_NAME : string.
Variable describe : thrown Failure -> string.
Variable client : client_call number -> option Failure.
Variable connect : option Failure.
Variable close : option Failure.

Local Notation value := (Js.value number).

(** A client that is past its argument check connects, sends its signal
    when the connection is made, and ends with code 0 when connecting,
    sending and closing all went well, with code 1 otherwise. *)
Lemma send_outcome (workflowId : string) (def : SignalDefinition)
    (payload : value) :
  Cli.connected (Cli.send connect client close workflowId def payload) =
    true /\
  Cli.calls (Cli.send connect client close workflowId def payload) =
    match connect with
    | None => [SendSignal (Str workflowId) def payload]
    | Some _ => []
    end /\
  (Cli.exit_code (Cli.send connect client close workflowId def payload) = 0
   <->
   connect = None /\
   client (SendSignal (Str workflowId) def payload) = None /\
   close = None) /\
  (Cli.exit_code (Cli.send connect client close workflowId def payload) <> 0
   ->
   Cli.exit_code (Cli.send connect client close workflowId def payload) = 1).
Proof.
  unfold Cli.send.
  destruct connect as [f|].
  { simpl. repeat (split; try reflexivity); try discriminate.
    now intros [? _]. }
  destruct (client (SendSignal (Str workflowId) def payload)) as [f|].
  { simpl. repeat (split; try reflexivity); try discriminate.
    now intros (_ & ? & _). }
  destruct close as [f|]; simpl.
  - repeat (split; try reflexivity); try discriminate.
    now intros (_ & _ & ?).
  - repeat (split; try reflexivity). now intros [].
Qed.

(** What the endpoints send as a condition has a truthy [request], and
    what they send as a result is [{ summary }] with a truthy
    [summary]. *)
Lemma checked_payload (e : endpoint) (body wid payload : value) :
  (In (wid, Research.userConditionSignal, payload)
      (signals_sent
         (calls (handle zero_or_NaN TASK_QUEUE_NAME describe client
                   e body))) ->
   Js.truthy zero_or_NaN (get_optional payload "request") = true) /\
  (In (wid, Research.searchCompleteSignal, payload)
      (signals_sent
         (calls (handle zero_or_NaN TASK_QUEUE_NAME describe client
                   e body))) ->
   exists summary,
     payload = Obj [("summary"%string, summary)] /\
     Js.truthy zero_or_NaN summary = true).
Proof.
  assert (forall c b,
            calls (call_then_answer describe client c b) = [c]) as K.
  { intros c b. unfold call_then_answer. now destruct (client c). }
  destruct e as [timestamp | | | |]; simpl.
  - unfold start. destruct (get body "chatSessionId") as [v|];
      [|split; intros []].
    destruct (Js.truthy zero_or_NaN v); simpl; [|split; intros []].
    rewrite K. simpl. split; intros [].
  - unfold request_research. destruct body; simpl; try (split; intros []).
    destruct (Js.truthy zero_or_NaN (lookup "workflowId" fields)); simpl;
      [|split; intros []].
    destruct (Js.truthy zero_or_NaN
                (get_optional (lookup "condition" fields) "request"))
      eqn:R; simpl; [|split; intros []].
    rewrite K. simpl. split; intros [H | []]; [|discriminate].
    injection H as _ H. now rewrite <- H.
  - unfold submit_research_progress.
    destruct body; simpl; try (split; intros []).
    destruct (Js.truthy zero_or_NaN (lookup "workflowId" fields)); simpl;
      [|split; intros []].
    destruct (Js.truthy zero_or_NaN (lookup "message" fields)); simpl;
      [|split; intros []].
    rewrite K. simpl. split; intros [H | []]; discriminate.
  - unfold submit_research_result.
    destruct body; simpl; try (split; intros []).
    destruct (Js.truthy zero_or_NaN (lookup "workflowId" fields)); simpl;
      [|split; intros []].
    destruct (Js.truthy zero_or_NaN (lookup "summary" fields)) eqn:M;
      simpl; [|split; intros []].
    rewrite K. simpl. split; intros [H | []]; [discriminate|].
    injection H as _ H. exists (lookup "summary" fields).
    split; [now rewrite <- H | exact M].
  - unfold convinced. destruct body; simpl; try (split; intros []).
    destruct (Js.truthy zero_or_NaN (lookup "workflowId" fields)); simpl;
      [|split; intros []].
    rewrite K. simpl. split; intros [H | []]; discriminate.
Qed.

(** X13.  The three command-line clients check the number of their
    arguments and nothing else.  With too few (fewer than two for
    [requrst-research] and [submit-research-result], none for
    [convinced]) they stop with code 1 before they connect.  Otherwise
    each of them connects; when the connection is made it sends one
    signal to the workflow named by the first argument:
    [{ request }], [{ summary }] with the second argument as it is, an
    empty one included, or the fixed text of [convinced]; it sends none
    when the connection fails.  It ends with code 0 exactly when
    connecting, sending and closing all went well, and with code 1
    otherwise.  The HTTP endpoints, unlike the clients, send as a
    condition only payloads with a truthy [request] and as a result only
    [{ summary }] with a truthy [summary]. *)
Theorem clients_check_only_the_number_of_arguments :
  (forall args : list string,
      List.length args < 2 ->
      Cli.request_research connect client close args = Cli.usage number /\
      Cli.submit_research_result connect client close args =
        Cli.usage number) /\
  Cli.convinced connect client close [] = Cli.usage number /\
  (Cli.connected (Cli.usage number) = false /\
   Cli.calls (Cli.usage number) = [] /\
   Cli.exit_code (Cli.usage number) = 1) /\
  (forall (workflowId request : string) (rest : list string),
      Cli.connected (Cli.request_research connect client close
                       (workflowId :: request :: rest)) = true /\
      Cli.calls (Cli.request_research connect client close
                   (workflowId :: request :: rest)) =
        match connect with
        | None =>
            [SendSignal (Str workflowId) Research.userConditionSignal
               (Obj [("request"%string, Str request)])]
        | Some _ => []
        end /\
      (Cli.exit_code (Cli.request_research connect client close
                        (workflowId :: request :: rest)) = 0 <->
       connect = None /\
       client (SendSignal (Str workflowId) Research.userConditionSignal
                 (Obj [("request"%string, Str request)])) = None /\
       close = None) /\
      (Cli.exit_code (Cli.request_research connect client close
                        (workflowId :: request :: rest)) <> 0 ->
       Cli.exit_code (Cli.request_research connect client close
                        (workflowId :: request :: rest)) = 1)) /\
  (forall (workflowId summary : string) (rest : list string),
      Cli.connected (Cli.submit_research_result connect client close
                       (workflowId :: summary :: rest)) = true /\
      Cli.calls (Cli.submit_research_result connect client close
                   (workflowId :: summary :: rest)) =
        match connect with
        | None =>
            [SendSignal (Str workflowId) Research.searchCompleteSignal
               (Obj [("summary"%string, Str summary)])]
        | Some _ => []
        end /\
      (Cli.exit_code (Cli.submit_research_result connect client close
                        (workflowId :: summary :: rest)) = 0 <->
       connect = None /\
       client (SendSignal (Str workflowId) Research.searchCompleteSignal
                 (Obj [("summary"%string, Str summary)])) = None /\
       close = None) /\
      (Cli.exit_code (Cli.submit_research_result connect client close
                        (workflowId :: summary :: rest)) <> 0 ->
       Cli.exit_code (Cli.submit_research_result connect client close
                        (workflowId :: summary :: rest)) = 1)) /\
  (forall (workflowId : string) (rest : list string),
      Cli.connected (Cli.convinced connect client close
                       (workflowId :: rest)) = true /\
      Cli.calls (Cli.convinced connect client close (workflowId :: rest)) =
        match connect with
        | None =>
            [SendSignal (Str workflowId) Research.userConvincedSignal
               (Str "物件ID1234")]
        | Some _ => []
        end /\
      (Cli.exit_code (Cli.convinced connect client close
                        (workflowId :: rest)) = 0 <->
       connect = None /\
       client (SendSignal (Str workflowId) Research.userConvincedSignal
                 (Str "物件ID1234")) = None /\
       close = None) /\
      (Cli.exit_code (Cli.convinced connect client close
                        (workflowId :: rest)) <> 0 ->
       Cli.exit_code (Cli.convinced connect client close
                        (workflowId :: rest)) = 1)) /\
  (forall (e : endpoint) (body wid payload : value),
      (In (wid, Research.userConditionSignal, payload)
          (signals_sent
             (calls (handle zero_or_NaN TASK_QUEUE_NAME describe client
                       e body))) ->
       Js.truthy zero_or_NaN (get_optional payload "request") = true) /\
      (In (wid, Research.searchCompleteSignal, payload)
          (signals_sent
             (calls (handle zero_or_NaN TASK_QUEUE_NAME describe client
                       e body))) ->
       exists summary,
         payload = Obj [("summary"%string, summary)] /\
         Js.truthy zero_or_NaN summary = true)) /\
  Js.truthy zero_or_NaN
    (get_optional (Obj [("request"%string, Str "")]) "request") = false.
Proof.
  split; [|split; [reflexivity|split; [now repeat split|]]].
  - intros args L. destruct args as [|a [|b rest]]; simpl in L;
      [now split | now split | lia].
  - split; [intros workflowId request rest; apply send_outcome|].
    split; [intros workflowId summary rest; apply send_outcome|].
    split; [intros workflowId rest; apply send_outcome|].
    split; [intros e body wid payload; apply checked_payload|].
    reflexivity.
Qed.

End Clients.

(** A progress report posted to the server, numbers being natural
    numbers and the client accepting every call. *)
Lemma signals_carry_what_was_checked_witness :
  Js.truthy (fun n => Nat.eqb n 0) (Str "wf-1") = true /\
  (Obj [("message"%string, Str "found 3 listings")] : Js.value nat) =
  Obj [("message"%string,
        get_optional
          (Obj [("workflowId"%string, Str "wf-1");
                ("message"%string, Str "found 3 listings")])
          "message")].
Proof.
  destruct (@signals_carry_what_was_checked
              nat (fun n => Nat.eqb n 0) string "queue"%string
              (fun _ => "error"%string) (fun _ => None)
              SubmitResearchProgress
              (Obj [("workflowId"%string, Str "wf-1");
                    ("message"%string, Str "found 3 listings")])
              (Str "wf-1") (Obj [("message"%string, Str "found 3 listings")])
              Research.searchProgressSignal (or_introl eq_refl))
    as (_ & T & [(D & _) | [(_ & P & _) | [(D & _) | (D & _)]]]);
    try discriminate.
  split; [exact T | exact P].
Defined.

Lemma endpoints_answer_by_what_they_did_witness :
  status
    (answer
       (handle (fun n => Nat.eqb n 0) "queue"%string
          (fun _ : thrown string => "error"%string)
          (fun _ : client_call nat => Some "not found"%string)
          Convinced
          (Obj [("workflowId"%string, Str "wf-1")]))) = 500.
Proof.
  destruct (@endpoints_answer_by_what_they_did
              nat (fun n => Nat.eqb n 0) string "queue"%string
              (fun _ => "error"%string) (fun _ => Some "not found"%string)
              Convinced (Obj [("workflowId"%string, Str "wf-1")]))
    as [(_ & c & _ & C) | [(_ & C) | (S5 & _)]];
    [discriminate | discriminate | exact S5].
Defined.

(** [requrst-research] called with the workflow id alone, and with an
    empty request when the host accepts everything. *)
Lemma clients_check_only_the_number_of_arguments_witness :
  List.length ["wf-1"%string] < 2 /\
  Cli.request_research (number:=nat) None (fun _ => @None string) None
    ["wf-1"%string] = Cli.usage nat /\
  Cli.calls
    (Cli.request_research (number:=nat) None
       (fun _ => @None string) None ["wf-1"%string; ""%string]) =
  [SendSignal (Str "wf-1") Research.userConditionSignal
     (Obj [("request"%string, Str "")])].
Proof.
  split; [simpl; lia|]. split.
  - apply (proj1
      (@clients_check_only_the_number_of_arguments
         nat (fun n => Nat.eqb n 0) string "queue"%string
         (fun _ => "error"%string) (fun _ => None) None None)
      ["wf-1"%string]).
    simpl; lia.
  - apply (proj1 (proj2 (proj1 (proj2 (proj2 (proj2
      (@clients_check_only_the_number_of_arguments
         nat (fun n => Nat.eqb n 0) string "queue"%string
         (fun _ => "error"%string) (fun _ => None) None None))))
      "wf-1"%string ""%string []))).
Defined.

End ServerFacts.

(** ** The workflow on concrete runs *)

Module ResearchRuns.
Import Js Research.

(** A first search is overtaken by a second condition; the completion
    signal goes to the second search, whose two messages are asked for;
    the finish signal ends the workflow. *)
Example two_conditions :
  match
    run JsText.to_string "TypeError"%string "chat-1"
      (relifeResearchWorkflow "chat-1")
      [Settle Main (Fulfilled "ok"%string);
       Condition (Obj [("request"%string, Str "2LDK")]);
       Settle (Search 0) (Fulfilled "job-1"%string);
       Progress (Obj [("message"%string, Str "found 3 listings")]);
       Condition (Obj [("request"%string, Str "3LDK")]);
       Complete (Obj [("summary"%string, Str "7 listings")]);
       Resume (Search 0);
       Settle (Search 1) (Fulfilled "job-2"%string);
       Settle (Search 1) (Fulfilled "ok"%string);
       Convinced (Str "bye"); Resume Main;
       Settle Main (Fulfilled "ok"%string)]
  with
  | Some st =>
      main st = returned /\
      commands (book (now st)) =
      [PostChatMessage "chat-1" waiting_message;
       StartSearchActivity (Obj [("request"%string, Str "2LDK")]);
       PostChatMessage "chat-1" searching_message;
       PostChatMessage "chat-1"
         (String.append progress_prefix "found 3 listings");
       StartSearchActivity (Obj [("request"%string, Str "3LDK")]);
       PostChatMessage "chat-1" searching_message;
       PostChatMessage "chat-1" done_message;
       PostChatMessage "chat-1"
         (String.append result_prefix "7 listings");
       PostChatMessage "chat-1" farewell_message] /\
      map (fun x => callback x) (searches (now st)) =
      [await_progressReq; await_result_message]
  | None => False
  end.
Proof. vm_compute. repeat split. Qed.

(** The start activity of a search fails: the callback of the condition
    throws, nobody handles it, and the condition delivered next starts no
    search. *)
Example search_fails_to_start :
  match
    run JsText.to_string "TypeError"%string "chat-1"
      (relifeResearchWorkflow "chat-1")
      [Settle Main (Fulfilled "ok"%string);
       Condition (Obj [("request"%string, Str "2LDK")]);
       Settle (Search 0) (Rejected "boom"%string);
       Condition (Obj [("request"%string, Str "3LDK")])]
  with
  | Some st =>
      stuck st = true /\
      unhandled (book (now st)) = Some "boom"%string /\
      commands (book (now st)) =
      [PostChatMessage "chat-1" waiting_message;
       StartSearchActivity (Obj [("request"%string, Str "2LDK")])]
  | None => False
  end.
Proof. vm_compute. repeat split. Qed.

(** The completion signal is sent without a payload: the callback fails
    at line 131 and the message with the result is not asked for. *)
Example completion_without_a_payload :
  match
    run JsText.to_string "TypeError"%string "chat-1"
      (relifeResearchWorkflow "chat-1")
      [Settle Main (Fulfilled "ok"%string);
       Condition (Obj [("request"%string, Str "2LDK")]);
       Settle (Search 0) (Fulfilled "job-1"%string);
       Complete Undefined;
       Resume (Search 0);
       Settle (Search 0) (Fulfilled "ok"%string)]
  with
  | Some st =>
      stuck st = true /\
      unhandled (book (now st)) = Some "TypeError"%string /\
      commands (book (now st)) =
      [PostChatMessage "chat-1" waiting_message;
       StartSearchActivity (Obj [("request"%string, Str "2LDK")]);
       PostChatMessage "chat-1" searching_message;
       PostChatMessage "chat-1" done_message]
  | None => False
  end.
Proof. vm_compute. repeat split. Qed.

(** A chat message of a progress report fails: nobody awaits the
    callback of the report. *)
Example progress_message_fails :
  match
    run JsText.to_string "TypeError"%string "chat-1"
      (relifeResearchWorkflow "chat-1")
      [Settle Main (Fulfilled "ok"%string);
       Condition (Obj [("request"%string, Str "2LDK")]);
       Progress (Obj [("message"%string, Str "found 3 listings")]);
       Settle (Message 2) (Rejected "chat is down"%string);
       Complete (Obj [("summary"%string, Str "7 listings")])]
  with
  | Some st =>
      stuck st = true /\
      map (fun x => ProgressRequest.isDone (invocation x))
        (searches (now st)) = [false]
  | None => False
  end.
Proof. vm_compute. repeat split. Qed.

(** A condition delivered before the waiting message is posted finds no
    handler: such a run is not modelled. *)
Example condition_before_the_loop :
  run JsText.to_string "TypeError"%string "chat-1"
    (relifeResearchWorkflow "chat-1")
    [Condition (Obj [("request"%string, Str "2LDK")])] = None.
Proof. reflexivity. Qed.

End ResearchRuns.
